(** * Code-review chat: announcement publisher and stale-message reconciler

    A shallow embedding of [src/code-review-chat/CodeReviewChat.ts].

    The TypeScript classes talk to two remote services (the Slack Web API and
    the GitHub issue / pull-request provider).  Every remote call is a
    request of type [Req R]; an asynchronous function is a tree [Prog A]
    whose nodes are the requests it awaits and the lines it logs.  The
    remote side is an arbitrary function from the interaction so far to the
    next answer, so every theorem below holds whatever the services do. *)

From Stdlib Require Import String Ascii List ZArith Lia Bool Arith.
From Stdlib Require Import DecimalString.
Import ListNotations.
Local Open Scope string_scope.
Local Open Scope list_scope.

(** ** JavaScript values *)

Module Js.

(** Truthiness of a string: every string but the empty one. *)
Definition truthy_string (s : string) : bool :=
  match s with EmptyString => false | String _ _ => true end.

(** Truthiness of [string | undefined]. *)
Definition truthy_opt_string (o : option string) : bool :=
  match o with Some s => truthy_string s | None => false end.

(** Truthiness of a number (integers only are modelled): non-zero. *)
Definition truthy_number (n : Z) : bool := negb (n =? 0)%Z.

Definition truthy_opt_number (o : option Z) : bool :=
  match o with Some n => truthy_number n | None => false end.

(** [`${n}`] for an integral number. *)
Definition number_to_string (n : Z) : string :=
  NilZero.string_of_int (Z.to_int n).

(** [s.startsWith(p)], the test used at each position by the searches
    below. *)
Fixpoint startsWith (p s : string) : bool :=
  match p with
  | EmptyString => true
  | String a p' =>
      match s with
      | EmptyString => false
      | String b s' => Ascii.eqb a b && startsWith p' s'
      end
  end.

(** [s.indexOf(p)]: the position of the first occurrence of [p] in [s]. *)
Fixpoint indexOf (p s : string) : option nat :=
  if startsWith p s then Some 0
  else match s with
       | EmptyString => None
       | String _ s' => option_map S (indexOf p s')
       end.

(** [s.includes(p)]. *)
Definition includes (s p : string) : bool :=
  match indexOf p s with Some _ => true | None => false end.

(** [s.slice(n)] for [0 <= n]. *)
Fixpoint skip (n : nat) (s : string) : string :=
  match n, s with
  | S n', String _ s' => skip n' s'
  | _, _ => s
  end.

(** [s.replace(p, r)] for a string pattern [p] and a replacement [r]
    without [$]: the first occurrence of [p] is replaced, and [s] is
    returned unchanged when there is none. *)
Fixpoint replace (p r s : string) : string :=
  if startsWith p s then r ++ skip (String.length p) s
  else match s with
       | EmptyString => EmptyString
       | String c s' => String c (replace p r s')
       end.

(** [s.replace(/c/g, '')] for a one-character pattern [c]. *)
Fixpoint remove_all (c : ascii) (s : string) : string :=
  match s with
  | EmptyString => EmptyString
  | String a s' => if Ascii.eqb a c then remove_all c s' else String a (remove_all c s')
  end.

(** Thrown values: [Error] objects, carrying their message. *)
Inductive Error : Type := mkError (message : string).

Definition message (e : Error) : string := let (m) := e in m.

(** [`${err}`], that is [Error.prototype.toString]. *)
Definition error_to_string (e : Error) : string :=
  match message e with
  | EmptyString => "Error"
  | m => "Error: " ++ m
  end.

End Js.

(** ** Data model *)

(** [interface PR]. *)
Module PR.
Record t : Type := mk {
  number : Z;
  body : string;
  additions : Z;
  deletions : Z;
  changed_files : Z;
  url : string;
  owner : string;
  draft : bool;
  title : string
}.
End PR.

(** [interface SlackReaction]. *)
Module SlackReaction.
Record t : Type := mk {
  name : string;
  count : Z;
  users : list string
}.
End SlackReaction.

(** [interface SlackMessage].  The [type] field is the constant
    ['message'] and is left out.  [subtype] is kept as the string the
    service sends: ['tombstone'], ['channel_join'] (or any other special
    kind), or absent. *)
Module SlackMessage.
Record t : Type := mk {
  subtype : option string;
  text : string;
  reply_count : option Z;
  ts : string;
  reactions : option (list SlackReaction.t)
}.
End SlackMessage.

(** [payload] of [interface Options]. *)
Module Payload.
Record t : Type := mk {
  owner : string;
  repo : string;
  repo_full_name : string;
  repo_url : option string;
  pr : PR.t
}.
End Payload.

(** [interface Options]. *)
Module Options.
Record t : Type := mk {
  slackToken : string;
  codereviewChannel : string;
  payload : Payload.t
}.
End Options.

(** [interface Channel]. *)
Module Channel.
Record t : Type := mk {
  id : string;
  name : string;
  is_member : bool
}.
End Channel.

(** [response_metadata] of [interface ConversationsList]. *)
Module ResponseMetadata.
Record t : Type := mk { next_cursor : option string }.
End ResponseMetadata.

(** [interface ConversationsList]. *)
Module ConversationsList.
Record t : Type := mk {
  channels : list Channel.t;
  response_metadata : option ResponseMetadata.t
}.

(** [groups?.response_metadata?.next_cursor]. *)
Definition next_cursor (groups : option t) : option string :=
  match groups with
  | Some g =>
      match response_metadata g with
      | Some md => ResponseMetadata.next_cursor md
      | None => None
      end
  | None => None
  end.
End ConversationsList.

(** A [WebClient] of [@slack/web-api] is known by the token it was built
    with. *)
Module WebClient.
Record t : Type := mk { token : string }.
End WebClient.

(** What [conversations.history] and [conversations.replies] resolve to:
    the two fields the code reads. *)
Module MessagesResponse.
Record t : Type := mk {
  ok : bool;
  messages : option (list SlackMessage.t)
}.
End MessagesResponse.

(** Block Kit values built for the announcement ([KnownBlock] of
    [@slack/web-api]), with the fields the code sets. *)
Module TextObject.
Record t : Type := mk {
  type : string;
  emoji : option bool;
  text : string
}.
End TextObject.

Module Button.
Record t : Type := mk {
  type : string;
  text : TextObject.t;
  style : option string;
  action_id : string;
  url : string
}.
End Button.

Inductive KnownBlock : Type :=
| SectionBlock (text : TextObject.t)
| ActionsBlock (elements : list Button.t).

(** Modelled from the spec: the issue provider of [../api/api] is not part
    of the sources.  The spec gives [getIssue() -> {author, assignee?,
    milestone?}], [getCurrentRepoMilestone() -> Milestone | none] and
    [setMilestone(Milestone)]; a milestone is an opaque handle. *)
Definition Milestone : Type := Z.

(** Modelled from the spec: the user type of [../api/api] is not part of
    the sources; the code reads [author.name] and hands the whole value to
    [hasWriteAccess]. *)
Module User.
Record t : Type := mk { name : string }.
End User.

(** Modelled from the spec: the issue type of [../api/api] is not part of
    the sources; [getIssue() -> {author, assignee?, milestone?}], of which
    the code reads [data.author], [!data.assignee] and [!data.milestone]. *)
Module Issue.
Record t : Type := mk {
  author : User.t;
  assignee : option string;
  milestone : option Milestone
}.
End Issue.

(** What [octokit.pulls.listReviews] resolves to, as far as the code reads
    it: [existingReviews?.data] and, of each review, [user.login]. *)
Module Review.
Record t : Type := mk { user_login : string }.
End Review.

Module ReviewsResponse.
Record t : Type := mk { data : option (list Review.t) }.
End ReviewsResponse.

(** What [octokit.pulls.listReviewRequests] resolves to:
    [existingRequests?.data?.users]; only the logins are kept. *)
Module ReviewRequests.
Record t : Type := mk { users : option (list string) }.
End ReviewRequests.

Module ReviewRequestsResponse.
Record t : Type := mk { data : option ReviewRequests.t }.
End ReviewRequestsResponse.

(** ** Remote calls and asynchronous programs *)

(** The remote calls of the file, each with the type it resolves to. *)
Inductive Req : Type -> Type :=
| conversations_list (web : WebClient.t) (types : string)
    (cursor : option string) (limit : Z) : Req ConversationsList.t
| conversations_history (web : WebClient.t) (channel : string) (limit : Z) :
    Req MessagesResponse.t
| conversations_replies (web : WebClient.t) (channel ts : string) :
    Req MessagesResponse.t
| chat_delete (web : WebClient.t) (channel ts : string) (as_user : bool) :
    Req unit
| chat_postMessage (web : WebClient.t) (text channel : string)
    (blocks : option (list KnownBlock)) (link_names : bool) : Req unit
| issue_getIssue : Req Issue.t
| issue_hasWriteAccess (user : User.t) : Req bool
| issue_addAssignee (name : string) : Req unit
| issue_getCurrentRepoMilestone : Req (option Milestone)
| issue_setMilestone (milestone : Milestone) : Req unit
| pulls_listReviews (owner repo : string) (pull_number : Z) :
    Req (option ReviewsResponse.t)
| pulls_listReviewRequests (owner repo : string) (pull_number : Z) :
    Req (option ReviewRequestsResponse.t).

(** A promise settles: it resolves to a value or rejects with an error. *)
Inductive Res (R : Type) : Type :=
| Resolved (v : R)
| Rejected (e : Js.Error).
Arguments Resolved {R} v.
Arguments Rejected {R} e.

(** What is observable of a run: the calls made, each with its answer, and
    the lines given to [safeLog]. *)
Inductive Event : Type :=
| Call {R : Type} (q : Req R) (r : Res R)
| Logged (msg : string).

Definition Trace : Type := list Event.

(** The remote side: the next answer, from everything that happened so
    far.  Nothing is assumed of it. *)
Definition Env : Type := Trace -> forall R : Type, Req R -> Res R.

(** The body of an [async] function.
    - [Ret a]: [return a];
    - [Throw e]: [throw e], or an awaited rejection that nothing catches;
    - [Diverge]: a loop that was not over when its fuel ran out;
    - [Log msg k]: [safeLog(msg)], then [k];
    - [Await q k]: the call [q] is made and awaited, [k] receives how it
      settled ([try]/[catch] sees the rejection);
    - [AwaitBoth q1 q2 k]: [await Promise.all([q1, q2])]: both calls are
      made, they settle in either order, and [k] receives the pair, or the
      rejection that came first. *)
Inductive Prog (A : Type) : Type :=
| Ret (a : A)
| Throw (e : Js.Error)
| Diverge
| Log (msg : string) (k : Prog A)
| Await {R : Type} (q : Req R) (k : Res R -> Prog A)
| AwaitBoth {R1 R2 : Type} (q1 : Req R1) (q2 : Req R2)
    (k : Res (R1 * R2) -> Prog A).
Arguments Ret {A} a.
Arguments Throw {A} e.
Arguments Diverge {A}.
Arguments Log {A} msg k.
Arguments Await {A R} q k.
Arguments AwaitBoth {A R1 R2} q1 q2 k.

Fixpoint bind {A B} (p : Prog A) (f : A -> Prog B) : Prog B :=
  match p with
  | Ret a => f a
  | Throw e => Throw e
  | Diverge => Diverge
  | Log msg k => Log msg (bind k f)
  | Await q k => Await q (fun r => bind (k r) f)
  | AwaitBoth q1 q2 k => AwaitBoth q1 q2 (fun r => bind (k r) f)
  end.

(** [try { p } catch (e) { h e }]. *)
Fixpoint try_catch {A} (p : Prog A) (h : Js.Error -> Prog A) : Prog A :=
  match p with
  | Ret a => Ret a
  | Throw e => h e
  | Diverge => Diverge
  | Log msg k => Log msg (try_catch k h)
  | Await q k => Await q (fun r => try_catch (k r) h)
  | AwaitBoth q1 q2 k => AwaitBoth q1 q2 (fun r => try_catch (k r) h)
  end.

(** How an awaited promise comes back into the function: its value, or a
    throw. *)
Definition settle {R} (r : Res R) : Prog R :=
  match r with
  | Resolved v => Ret v
  | Rejected e => Throw e
  end.

(** [await q]. *)
Definition await {R} (q : Req R) : Prog R := Await q settle.

(** [await Promise.all([q1, q2])]. *)
Definition await_all2 {R1 R2} (q1 : Req R1) (q2 : Req R2) : Prog (R1 * R2) :=
  AwaitBoth q1 q2 settle.

(** [safeLog(msg)]. *)
Definition safeLog (msg : string) : Prog unit := Log msg (Ret tt).

Declare Scope prog_scope.
Delimit Scope prog_scope with prog.
Notation "x <- p ;; k" := (bind p (fun x => k))
  (at level 61, p at next level, right associativity) : prog_scope.
Notation "' pat <- p ;; k" := (bind p (fun x => match x with pat => k end))
  (at level 61, pat pattern, p at next level, right associativity) : prog_scope.
Notation "p ;; k" := (bind p (fun _ => k))
  (at level 61, right associativity) : prog_scope.
Local Open Scope prog_scope.

(** How a function ends. *)
Inductive Outcome (A : Type) : Type :=
| Returned (a : A)
| Thrown (e : Js.Error)
| Unfinished.
Arguments Returned {A} a.
Arguments Thrown {A} e.
Arguments Unfinished {A}.

(** What [Promise.all] of two calls gives when the left one settles first,
    and when the right one does. *)
Definition left_first {R1 R2} (r1 : Res R1) (r2 : Res R2) : Res (R1 * R2) :=
  match r1, r2 with
  | Rejected e, _ => Rejected e
  | Resolved _, Rejected e => Rejected e
  | Resolved v1, Resolved v2 => Resolved (v1, v2)
  end.

Definition right_first {R1 R2} (r1 : Res R1) (r2 : Res R2) : Res (R1 * R2) :=
  match r2, r1 with
  | Rejected e, _ => Rejected e
  | Resolved _, Rejected e => Rejected e
  | Resolved v2, Resolved v1 => Resolved (v1, v2)
  end.

(** One function running alone against the remote side [env], from the
    history [tr]: how it ends and the history it leaves.  Two calls awaited
    together are answered left one first here; [step] below has both
    orders. *)
Fixpoint exec {A} (env : Env) (p : Prog A) (tr : Trace) : Outcome A * Trace :=
  match p with
  | Ret a => (Returned a, tr)
  | Throw e => (Thrown e, tr)
  | Diverge => (Unfinished, tr)
  | Log msg k => exec env k (tr ++ [Logged msg])
  | Await q k =>
      let r := env tr _ q in
      exec env (k r) (tr ++ [Call q r])
  | AwaitBoth q1 q2 k =>
      let r1 := env tr _ q1 in
      let tr1 := tr ++ [Call q1 r1] in
      let r2 := env tr1 _ q2 in
      exec env (k (left_first r1 r2)) (tr1 ++ [Call q2 r2])
  end.

(** ** The programs *)

(** [for (const x of xs) { body x }], where [continue] is the end of
    [body]. *)
Fixpoint for_of {X} (xs : list X) (body : X -> Prog unit) : Prog unit :=
  match xs with
  | [] => Ret tt
  | x :: xs' => body x ;; for_of xs' body
  end.

(** The [do ... while] of [listAllMemberships]: one page is asked for, a
    page that cannot be fetched is logged and leaves [groups] undefined,
    and the loop goes on as long as the last page names a next cursor. *)
Fixpoint listAllMemberships_pages (fuel : nat) (web : WebClient.t)
    (groups : option ConversationsList.t) (channels : list Channel.t) :
    Prog (list Channel.t) :=
  match fuel with
  | O => Diverge
  | S fuel' =>
      '(groups, channels) <-
        try_catch
          (g <- await (conversations_list web "public_channel,private_channel"
                         (ConversationsList.next_cursor groups) 100) ;;
           Ret (Some g, channels ++ ConversationsList.channels g))
          (fun err =>
             safeLog ("Error listing channels: " ++ Js.error_to_string err) ;;
             Ret (None, channels)) ;;
      if Js.truthy_opt_string (ConversationsList.next_cursor groups)
      then listAllMemberships_pages fuel' web groups channels
      else Ret channels
  end.

(** [async function listAllMemberships(web)]. *)
Definition listAllMemberships (fuel : nat) (web : WebClient.t) :
    Prog (list Channel.t) :=
  channels <- listAllMemberships_pages fuel web None [] ;;
  Ret (filter Channel.is_member channels).

(** [class Chatter]. *)
Module Chatter.
Record t : Type := mk {
  slackToken : string;
  notificationChannel : string
}.

(** [this.notificationChannel && memberships.find(...)]: the channel
    found, or a falsy value (the empty name, or [undefined]). *)
Definition codereviewChannel (this : t) (memberships : list Channel.t) :
    option Channel.t :=
  if Js.truthy_string (notificationChannel this)
  then find (fun m => String.eqb (Channel.name m) (notificationChannel this))
         memberships
  else None.

(** [async getChat()]. *)
Definition getChat (this : t) (fuel : nat) : Prog (WebClient.t * string) :=
  let web := WebClient.mk (slackToken this) in
  memberships <- listAllMemberships fuel web ;;
  match codereviewChannel this memberships with
  | None =>
      Throw (Js.mkError ("Slack channel not found: " ++ notificationChannel this))
  | Some c => Ret (web, Channel.id c)
  end.
End Chatter.

(** [class CodeReviewChatDeleter extends Chatter]. *)
Module CodeReviewChatDeleter.
Record t : Type := mk {
  super : Chatter.t;
  elevatedClient : option WebClient.t;
  prUrl : string
}.

(** The constructor. *)
Definition new (slackToken : string) (slackElevatedUserToken : option string)
    (notificationChannel prUrl : string) : t :=
  {| super := Chatter.mk slackToken notificationChannel;
     elevatedClient :=
       match slackElevatedUserToken with
       | Some tok => if Js.truthy_string tok then Some (WebClient.mk tok) else None
       | None => None
       end;
     prUrl := prUrl |}.

(** The callback of [messages.filter] (lines 93-107). *)
Definition isMessageToDelete (this : t) (message : SlackMessage.t) : bool :=
  let isCodeReviewMessage := Js.includes (SlackMessage.text message) (prUrl this) in
  if Js.truthy_opt_string (SlackMessage.subtype message) then true
  else
    match elevatedClient this, SlackMessage.reactions message with
    | Some _, Some reactions =>
        isCodeReviewMessage
        || existsb (fun reaction =>
                      String.eqb (SlackReaction.name reaction) "white_check_mark")
             reactions
    | _, _ => isCodeReviewMessage
    end.

(** The first loop (lines 110-125): the replies of the messages queued
    for deletion, pushed on [replies]. *)
Fixpoint fetchReplies (client : WebClient.t) (channel : string)
    (messagesToDelete : list SlackMessage.t) (replies : list SlackMessage.t) :
    Prog (list SlackMessage.t) :=
  match messagesToDelete with
  | [] => Ret replies
  | message :: rest =>
      if Js.truthy_opt_number (SlackMessage.reply_count message) then
        replyThread <- await (conversations_replies client channel
                                (SlackMessage.ts message)) ;;
        match MessagesResponse.ok replyThread, MessagesResponse.messages replyThread with
        | true, Some thread => fetchReplies client channel rest (replies ++ tl thread)
        | _, _ =>
            safeLog "Error getting messages replies" ;;
            fetchReplies client channel rest replies
        end
      else fetchReplies client channel rest replies
  end.

(** [message.subtype === 'tombstone']. *)
Definition isTombstone (message : SlackMessage.t) : bool :=
  match SlackMessage.subtype message with
  | Some s => String.eqb s "tombstone"
  | None => false
  end.

(** The call that deletes [message]: by the elevated client as the user,
    or by the bot's client (lines 140-152). *)
Definition deleteCall (this : t) (client : WebClient.t) (channel : string)
    (message : SlackMessage.t) : Req unit :=
  match elevatedClient this with
  | Some elevated => chat_delete elevated channel (SlackMessage.ts message) true
  | None => chat_delete client channel (SlackMessage.ts message) false
  end.

(** The second loop inside its [try]/[catch] (lines 132-156). *)
Definition deleteMessages (this : t) (client : WebClient.t) (channel : string)
    (messagesToDelete : list SlackMessage.t) : Prog unit :=
  try_catch
    (for_of messagesToDelete (fun message =>
       if isTombstone message then Ret tt
       else await (deleteCall this client channel message)))
    (fun e => safeLog "error deleting message, probably posted by some human").

(** Lines 93-126: the messages of the history that are queued for
    deletion, then their replies. *)
Definition queueMessages (this : t) (client : WebClient.t) (channel : string)
    (messages : list SlackMessage.t) : Prog (list SlackMessage.t) :=
  let messagesToDelete := filter (isMessageToDelete this) messages in
  replies <- fetchReplies client channel messagesToDelete [] ;;
  Ret (messagesToDelete ++ replies).

(** [async run()]. *)
Definition run (this : t) (fuel : nat) : Prog unit :=
  '(client, channel) <- Chatter.getChat (super this) fuel ;;
  response <- await (conversations_history client channel 20) ;;
  match MessagesResponse.ok response, MessagesResponse.messages response with
  | true, Some messages =>
      messagesToDelete <- queueMessages this client channel messages ;;
      if (List.length messagesToDelete =? 0)%nat
      then safeLog "no message found, exiting"
      else deleteMessages this client channel messagesToDelete
  | _, _ => Throw (Js.mkError "Error getting channel history")
  end.
End CodeReviewChatDeleter.

(** [class CodeReviewChat extends Chatter].  The [octokit] and [issue]
    members are the remote providers; their calls are requests. *)
Module CodeReviewChat.
Record t : Type := mk { options : Options.t }.

Definition super (this : t) : Chatter.t :=
  Chatter.mk (Options.slackToken (options this))
    (Options.codereviewChannel (options this)).

Definition pr (this : t) : PR.t := Payload.pr (Options.payload (options this)).

(** [private async postMessage(message, blocks)]. *)
Definition postMessage (this : t) (fuel : nat) (message : string)
    (blocks : option (list KnownBlock)) : Prog unit :=
  '(client, channel) <- Chatter.getChat (super this) fuel ;;
  await (chat_postMessage client message channel blocks true).

(** [existingReviews?.data?.some(review => review.user.login !==
    author.name)]: a boolean, or [undefined]. *)
Definition hasExistingReview (existingReviews : option ReviewsResponse.t)
    (author : User.t) : option bool :=
  match existingReviews with
  | Some reviews =>
      match ReviewsResponse.data reviews with
      | Some data =>
          Some (existsb (fun review =>
                           negb (String.eqb (Review.user_login review)
                                   (User.name author)))
                  data)
      | None => None
      end
  | None => None
  end.

(** [existingRequests?.data?.users?.length]. *)
Definition requestedUsers (existingRequests : option ReviewRequestsResponse.t) :
    option Z :=
  match existingRequests with
  | Some requests =>
      match ReviewRequestsResponse.data requests with
      | Some data =>
          match ReviewRequests.users data with
          | Some users => Some (Z.of_nat (List.length users))
          | None => None
          end
      | None => None
      end
  | None => None
  end.

(** Whether [hasExistingReview || existingRequests?.data?.users?.length]
    is truthy. *)
Definition hasExisting (existingReviews : option ReviewsResponse.t)
    (existingRequests : option ReviewRequestsResponse.t) (author : User.t) : bool :=
  match hasExistingReview existingReviews author with
  | Some true => true
  | _ => Js.truthy_opt_number (requestedUsers existingRequests)
  end.

Section Composition.
(** [Number.prototype.toLocaleString], which depends on the locale of
    the runtime. *)
Variable toLocaleString : Z -> string.

Definition cleanTitle (this : t) : string :=
  Js.remove_all "`"%char (PR.title (pr this)).

Definition changedFilesMessage (this : t) : string :=
  (Js.number_to_string (PR.changed_files (pr this)) ++ " file")
  ++ (if (PR.changed_files (pr this) >? 1)%Z then "s" else EmptyString).

Definition diffMessage (this : t) : string :=
  "+" ++ toLocaleString (PR.additions (pr this))
  ++ " -" ++ toLocaleString (PR.deletions (pr this))
  ++ ", " ++ changedFilesMessage this.

Definition repoMessage (this : t) : string :=
  if String.eqb (Payload.repo_full_name (Options.payload (options this)))
       "microsoft/vscode"
  then EmptyString
  else " in " ++ Payload.repo_full_name (Options.payload (options this)).

Definition githubUrl (this : t) : string := PR.url (pr this).

Definition vscodeDevUrl (this : t) : string :=
  Js.replace "https://" "https://insiders.vscode.dev/" (PR.url (pr this)).

(** The two blocks pushed on [blocks] (lines 242-280). *)
Definition blocks (this : t) : list KnownBlock :=
  [ SectionBlock
      {| TextObject.type := "mrkdwn";
         TextObject.emoji := None;
         TextObject.text :=
           cleanTitle this ++ " by " ++ PR.owner (pr this) ++ repoMessage this
           ++ ": `" ++ diffMessage this ++ "`" |};
    ActionsBlock
      [ {| Button.type := "button";
           Button.text :=
             {| TextObject.type := "plain_text";
                TextObject.emoji := Some true;
                TextObject.text := "Open in vscode.dev" |};
           Button.style := Some "primary";
           Button.action_id := "vscodedev";
           Button.url := vscodeDevUrl this |};
        {| Button.type := "button";
           Button.text :=
             {| TextObject.type := "plain_text";
                TextObject.emoji := Some true;
                TextObject.text := "Open on github.com" |};
           Button.style := None;
           Button.action_id := "github";
           Button.url := githubUrl this |} ] ].

(** The first task: [this.issue.addAssignee(author.name)]. *)
Definition assignTask (author : User.t) : Prog unit :=
  await (issue_addAssignee (User.name author)).

(** The second task (lines 197-202). *)
Definition milestoneTask (data : Issue.t) : Prog unit :=
  currentMilestone <- await issue_getCurrentRepoMilestone ;;
  match Issue.milestone data, currentMilestone with
  | None, Some milestone => await (issue_setMilestone milestone)
  | _, _ => Ret tt
  end.

(** The third task (lines 206-284). *)
Definition reviewTask (this : t) (fuel : nat) (author : User.t) : Prog unit :=
  let payload := Options.payload (options this) in
  '(existingReviews, existingRequests) <-
    await_all2
      (pulls_listReviews (Payload.owner payload) (Payload.repo payload)
         (PR.number (Payload.pr payload)))
      (pulls_listReviewRequests (Payload.owner payload) (Payload.repo payload)
         (PR.number (Payload.pr payload))) ;;
  if hasExisting existingReviews existingRequests author
  then safeLog "had existing review requests, exiting"
  else
    let message := ("New Pull Request from " ++ PR.owner (pr this))%string in
    safeLog message ;;
    postMessage this fuel message (Some (blocks this)).

(** [async run()] up to its last line: the tasks it has started.  The
    last line, [await Promise.all(tasks)], lets them run together; that
    is [run_tasks] below. *)
Definition run (this : t) (fuel : nat) : Prog (list (Prog unit)) :=
  if PR.draft (pr this) then
    safeLog "PR is draft, ignoring" ;; Ret []
  else
    data <- await issue_getIssue ;;
    let author := Issue.author data in
    hasWriteAccess <- await (issue_hasWriteAccess author) ;;
    if negb hasWriteAccess then
      safeLog "Issue author not team member, ignoring" ;; Ret []
    else
      let tasks := [] in
      let tasks :=
        if negb (Js.truthy_opt_string (Issue.assignee data))
        then tasks ++ [assignTask author]
        else tasks in
      let tasks := tasks ++ [milestoneTask data] in
      let tasks := tasks ++ [reviewTask this fuel author] in
      Ret tasks.
End Composition.
End CodeReviewChat.

(** ** Tasks running together *)

(** Whether a function is over. *)
Definition settled {A} (p : Prog A) : bool :=
  match p with
  | Ret _ | Throw _ | Diverge => true
  | _ => false
  end.

(** One move of a function that is not over: a line is logged, or one of
    the calls it waits for reaches the remote side and is answered ([left]
    says which, of two awaited together).  After the first of two calls the
    function waits for the other one; a rejection of the first is what the
    function gets in the end, as with [Promise.all]. *)
Definition step {A} (env : Env) (left : bool) (p : Prog A) (tr : Trace) :
    Prog A * Trace :=
  match p with
  | Log msg k => (k, tr ++ [Logged msg])
  | Await q k =>
      let r := env tr _ q in (k r, tr ++ [Call q r])
  | AwaitBoth q1 q2 k =>
      if left then
        let r1 := env tr _ q1 in
        (Await q2 (fun r2 => k (left_first r1 r2)), tr ++ [Call q1 r1])
      else
        let r2 := env tr _ q2 in
        (Await q1 (fun r1 => k (right_first r1 r2)), tr ++ [Call q2 r2])
  | _ => (p, tr)
  end.

(** The positions of the tasks that are not over. *)
Fixpoint pending (tasks : list (Prog unit)) (i : nat) : list nat :=
  match tasks with
  | [] => []
  | p :: rest => if settled p then pending rest (S i) else i :: pending rest (S i)
  end.

(** [tasks] with the one at position [i] replaced. *)
Fixpoint replace_nth {X} (i : nat) (x : X) (xs : list X) : list X :=
  match xs, i with
  | [], _ => []
  | _ :: rest, O => x :: rest
  | y :: rest, S i' => y :: replace_nth i' x rest
  end.

(** A schedule: at each turn, which of the pending tasks moves (counted
    among the pending ones, modulo their number), and which of two calls
    awaited together is answered first. *)
Definition Schedule : Type := list (nat * bool).

Definition turn (env : Env) (choice : nat * bool) (tasks : list (Prog unit))
    (tr : Trace) : list (Prog unit) * Trace :=
  match pending tasks 0 with
  | [] => (tasks, tr)
  | i0 :: more =>
      let i := nth (fst choice mod List.length (i0 :: more)) (i0 :: more) i0 in
      match nth_error tasks i with
      | Some p =>
          let '(p', tr') := step env (snd choice) p tr in
          (replace_nth i p' tasks, tr')
      | None => (tasks, tr)
      end
  end.

(** [await Promise.all(tasks)], for as long as the schedule goes.  The
    tasks move one at a time, in any order: the remote side sees the calls
    of different tasks in an order the code does not fix, and a task that
    rejects does not stop the others. *)
Fixpoint run_tasks (env : Env) (sched : Schedule) (tasks : list (Prog unit))
    (tr : Trace) : list (Prog unit) * Trace :=
  match sched with
  | [] => (tasks, tr)
  | choice :: sched' =>
      let '(tasks', tr') := turn env choice tasks tr in
      run_tasks env sched' tasks' tr'
  end.

(** ** Vocabulary of the statements *)

(** The call of [listAllMemberships] for the page after [cursor]. *)
Definition list_call (web : WebClient.t) (cursor : option string) :
    Req ConversationsList.t :=
  conversations_list web "public_channel,private_channel" cursor 100.

(** The events of fetching [pages] one after the other, from [cursor]. *)
Fixpoint page_events (web : WebClient.t) (cursor : option string)
    (pages : list ConversationsList.t) : Trace :=
  match pages with
  | [] => []
  | page :: rest =>
      Call (list_call web cursor) (Resolved page)
      :: page_events web (ConversationsList.next_cursor (Some page)) rest
  end.

(** The cursor in hand once [pages] have been fetched from [cursor]. *)
Fixpoint cursor_after (cursor : option string) (pages : list ConversationsList.t) :
    option string :=
  match pages with
  | [] => cursor
  | page :: rest => cursor_after (ConversationsList.next_cursor (Some page)) rest
  end.

(** From the history [tr], the service answers the listing with the
    sequence [pages]: each page but the last names a next cursor, the last
    one does not. *)
Fixpoint serves_pages (env : Env) (tr : Trace) (web : WebClient.t)
    (cursor : option string) (pages : list ConversationsList.t) : Prop :=
  match pages with
  | [] => False
  | page :: rest =>
      env tr _ (list_call web cursor) = Resolved page /\
      match rest with
      | [] =>
          Js.truthy_opt_string (ConversationsList.next_cursor (Some page)) = false
      | _ :: _ =>
          Js.truthy_opt_string (ConversationsList.next_cursor (Some page)) = true /\
          serves_pages env (tr ++ [Call (list_call web cursor) (Resolved page)]) web
            (ConversationsList.next_cursor (Some page)) rest
      end
  end.

(** From the history [tr], the service answers the listing with [pages],
    each naming a next cursor, and then fails with [err]. *)
Fixpoint serves_pages_then_fails (env : Env) (tr : Trace) (web : WebClient.t)
    (cursor : option string) (pages : list ConversationsList.t) (err : Js.Error) :
    Prop :=
  match pages with
  | [] => env tr _ (list_call web cursor) = Rejected err
  | page :: rest =>
      env tr _ (list_call web cursor) = Resolved page /\
      Js.truthy_opt_string (ConversationsList.next_cursor (Some page)) = true /\
      serves_pages_then_fails env
        (tr ++ [Call (list_call web cursor) (Resolved page)]) web
        (ConversationsList.next_cursor (Some page)) rest err
  end.

(** The member channels among those of [pages]. *)
Definition member_channels (pages : list ConversationsList.t) : list Channel.t :=
  filter Channel.is_member (flat_map ConversationsList.channels pages).

(** What a trace shows of the reply threads asked for: for each
    [conversations.replies] call, its client, channel and [ts], and its
    answer. *)
Definition reply_fetch (ev : Event) :
    option (WebClient.t * string * string * Res MessagesResponse.t) :=
  match ev with
  | Call q r =>
      match q in Req R return Res R -> option _ with
      | conversations_replies web channel ts => fun r => Some (web, channel, ts, r)
      | _ => fun _ => None
      end r
  | Logged _ => None
  end.

Definition reply_fetches (tr : Trace) :
    list (WebClient.t * string * string * Res MessagesResponse.t) :=
  flat_map (fun ev => match reply_fetch ev with Some f => [f] | None => [] end) tr.

(** The replies an answer carries: when it is [ok] and has messages, all
    of them but the first. *)
Definition replies_of (r : Res MessagesResponse.t) : list SlackMessage.t :=
  match r with
  | Resolved resp =>
      match MessagesResponse.ok resp, MessagesResponse.messages resp with
      | true, Some thread => tl thread
      | _, _ => []
      end
  | Rejected _ => []
  end.

(** The messages whose replies are asked for: those with a truthy
    [reply_count]. *)
Definition with_replies (messages : list SlackMessage.t) : list SlackMessage.t :=
  filter (fun m => Js.truthy_opt_number (SlackMessage.reply_count m)) messages.

(** The messages that are not tombstones. *)
Definition live (messages : list SlackMessage.t) : list SlackMessage.t :=
  filter (fun m => negb (CodeReviewChatDeleter.isTombstone m)) messages.

(** The delete calls a trace shows, in order. *)
Definition delete_call (ev : Event) : option (Req unit) :=
  match ev with
  | Call q _ =>
      match q with
      | chat_delete web channel ts as_user => Some (chat_delete web channel ts as_user)
      | _ => None
      end
  | Logged _ => None
  end.

Definition delete_calls (tr : Trace) : list (Req unit) :=
  flat_map (fun ev => match delete_call ev with Some q => [q] | None => [] end) tr.

(** A call that was rejected. *)
Definition rejected (ev : Event) : bool :=
  match ev with
  | Call _ (Rejected _) => true
  | _ => false
  end.

(** A delete call that was rejected. *)
Definition rejected_delete (ev : Event) : bool :=
  match ev with
  | Call (chat_delete _ _ _ _) (Rejected _) => true
  | _ => false
  end.

(** Every call [p] can ever make satisfies [P]. *)
Fixpoint calls_only (P : forall R, Req R -> Prop) {A} (p : Prog A) : Prop :=
  match p with
  | Ret _ | Throw _ | Diverge => True
  | Log _ k => calls_only P k
  | Await q k => P _ q /\ forall r, calls_only P (k r)
  | AwaitBoth q1 q2 k =>
      P _ q1 /\ P _ q2 /\ forall r, calls_only P (k r)
  end.

Definition call_satisfies (P : forall R, Req R -> Prop) (ev : Event) : Prop :=
  match ev with
  | Call q _ => P _ q
  | Logged _ => True
  end.

Definition is_delete {R} (q : Req R) : bool :=
  match q with
  | chat_delete _ _ _ _ => true
  | _ => false
  end.

Definition not_delete : forall R, Req R -> Prop := fun R q => is_delete q = false.

(** The two ways a delete call for [message] shows in a trace. *)
Definition deleted (this : CodeReviewChatDeleter.t) (client : WebClient.t)
    (channel : string) (message : SlackMessage.t) : Event :=
  Call (CodeReviewChatDeleter.deleteCall this client channel message) (Resolved tt).

Definition delete_refused (this : CodeReviewChatDeleter.t) (client : WebClient.t)
    (channel : string) (message : SlackMessage.t) (e : Js.Error) : Event :=
  Call (CodeReviewChatDeleter.deleteCall this client channel message) (Rejected e).

(** ** Tasks seen one at a time *)

(** [p] makes the event [ev], whatever the answer in it, and goes on as
    [p']. *)
Definition moves {A} (p : Prog A) (ev : Event) (p' : Prog A) : Prop :=
  match p with
  | Log msg k => ev = Logged msg /\ p' = k
  | Await q k => exists r, ev = Call q r /\ p' = k r
  | AwaitBoth q1 q2 k =>
      (exists r1, ev = Call q1 r1
                  /\ p' = Await q2 (fun r2 => k (left_first r1 r2)))
      \/ (exists r2, ev = Call q2 r2
                     /\ p' = Await q1 (fun r1 => k (right_first r1 r2)))
  | _ => False
  end.

(** [p] makes the events [h], in this order, and goes on as [p']. *)
Fixpoint runs_to {A} (p : Prog A) (h : Trace) (p' : Prog A) : Prop :=
  match h with
  | [] => p' = p
  | ev :: h' => exists p1, moves p ev p1 /\ runs_to p1 h' p'
  end.

(** [all] is made of [a] and [b], each in its order. *)
Inductive Merge {X : Type} : list X -> list X -> list X -> Prop :=
| Merge_nil : Merge [] [] []
| Merge_left x a b all : Merge a b all -> Merge (x :: a) b (x :: all)
| Merge_right x a b all : Merge a b all -> Merge a (x :: b) (x :: all).

(** The tasks [ps] have made, together, the events [all] and are now
    [ps']: each task has made its own events in its own order. *)
Inductive interleaved : list (Prog unit) -> Trace -> list (Prog unit) -> Prop :=
| interleaved_nil : interleaved [] [] []
| interleaved_cons p h p' ps hs ps' all :
    runs_to p h p' -> interleaved ps hs ps' -> Merge h hs all ->
    interleaved (p :: ps) all (p' :: ps').



(** ** What a trace shows of the publisher *)

Definition is_post {R} (q : Req R) : bool :=
  match q with
  | chat_postMessage _ _ _ _ _ => true
  | _ => false
  end.

(** A message was posted (the call was made, whatever its answer). *)
Definition posts (ev : Event) : bool :=
  match ev with
  | Call q _ => is_post q
  | Logged _ => false
  end.

(** The listing of reviews was answered with a review by someone other
    than [author]. *)
Definition shows_review_by_other (author : User.t) (ev : Event) : bool :=
  match ev with
  | Call q r =>
      match q in Req R return Res R -> bool with
      | pulls_listReviews _ _ _ => fun r =>
          match r with
          | Resolved (Some reviews) =>
              match ReviewsResponse.data reviews with
              | Some data =>
                  existsb (fun review =>
                             negb (String.eqb (Review.user_login review)
                                     (User.name author)))
                    data
              | None => false
              end
          | _ => false
          end
      | _ => fun _ => false
      end r
  | Logged _ => false
  end.

(** The listing of review requests was answered with a requested user. *)
Definition shows_pending_request (ev : Event) : bool :=
  match ev with
  | Call q r =>
      match q in Req R return Res R -> bool with
      | pulls_listReviewRequests _ _ _ => fun r =>
          match r with
          | Resolved (Some requests) =>
              match ReviewRequestsResponse.data requests with
              | Some data =>
                  match ReviewRequests.users data with
                  | Some (_ :: _) => true
                  | _ => false
                  end
              | None => false
              end
          | _ => false
          end
      | _ => fun _ => false
      end r
  | Logged _ => false
  end.



(** [addAssignee(name)] was called. *)
Definition assigns (name : string) (ev : Event) : bool :=
  match ev with
  | Call q _ =>
      match q with
      | issue_addAssignee n => String.eqb n name
      | _ => false
      end
  | Logged _ => false
  end.

(** [getCurrentRepoMilestone()] was answered with [milestone]. *)
Definition shows_current_milestone (milestone : Milestone) (ev : Event) : bool :=
  match ev with
  | Call q r =>
      match q in Req R return Res R -> bool with
      | issue_getCurrentRepoMilestone => fun r =>
          match r with
          | Resolved (Some m) => Z.eqb m milestone
          | _ => false
          end
      | _ => fun _ => false
      end r
  | Logged _ => false
  end.

(** [setMilestone(milestone)] was called. *)
Definition sets_milestone (milestone : Milestone) (ev : Event) : bool :=
  match ev with
  | Call q _ =>
      match q with
      | issue_setMilestone m => Z.eqb m milestone
      | _ => false
      end
  | Logged _ => false
  end.

(** The blocks given to [chat.postMessage], when [ev] is such a call. *)
Definition posted_blocks (ev : Event) : option (option (list KnownBlock)) :=
  match ev with
  | Call q _ =>
      match q with
      | chat_postMessage _ _ _ blocks _ => Some blocks
      | _ => None
      end
  | Logged _ => None
  end.


Definition from_milestoneTask : forall R, Req R -> Prop :=
  fun R q =>
    match q with
    | issue_getCurrentRepoMilestone | issue_setMilestone _ => True
    | _ => False
    end.

Definition from_reviewTask : forall R, Req R -> Prop :=
  fun R q =>
    match q with
    | pulls_listReviews _ _ _ | pulls_listReviewRequests _ _ _
    | conversations_list _ _ _ _ | chat_postMessage _ _ _ _ _ => True
    | _ => False
    end.


(** A call that posts anything posts [blocks]. *)
Definition posts_only (blocks : list KnownBlock) : forall R, Req R -> Prop :=
  fun R q =>
    match q with
    | chat_postMessage _ _ _ posted _ => posted = Some blocks
    | _ => True
    end.

(** ** Scripted services

    Remote sides that answer by the request alone, for the worked
    examples. *)

Module Script.
Record t : Type := mk {
  on_list : option string -> Res ConversationsList.t;
  on_history : Res MessagesResponse.t;
  on_replies : string -> Res MessagesResponse.t;
  on_delete : string -> Res unit;
  on_post : Res unit;
  on_getIssue : Res Issue.t;
  on_hasWriteAccess : Res bool;
  on_addAssignee : Res unit;
  on_getCurrentRepoMilestone : Res (option Milestone);
  on_setMilestone : Res unit;
  on_listReviews : Res (option ReviewsResponse.t);
  on_listReviewRequests : Res (option ReviewRequestsResponse.t)
}.

Definition env (s : t) : Env :=
  fun _ R q =>
    match q in Req R return Res R with
    | conversations_list _ _ cursor _ => on_list s cursor
    | conversations_history _ _ _ => on_history s
    | conversations_replies _ _ ts => on_replies s ts
    | chat_delete _ _ ts _ => on_delete s ts
    | chat_postMessage _ _ _ _ _ => on_post s
    | issue_getIssue => on_getIssue s
    | issue_hasWriteAccess _ => on_hasWriteAccess s
    | issue_addAssignee _ => on_addAssignee s
    | issue_getCurrentRepoMilestone => on_getCurrentRepoMilestone s
    | issue_setMilestone _ => on_setMilestone s
    | pulls_listReviews _ _ _ => on_listReviews s
    | pulls_listReviewRequests _ _ _ => on_listReviewRequests s
    end.

Definition with_list (f : option string -> Res ConversationsList.t) (s : t) : t :=
  mk f (on_history s) (on_replies s) (on_delete s) (on_post s) (on_getIssue s)
    (on_hasWriteAccess s) (on_addAssignee s) (on_getCurrentRepoMilestone s)
    (on_setMilestone s) (on_listReviews s) (on_listReviewRequests s).

Definition with_history (r : Res MessagesResponse.t) (s : t) : t :=
  mk (on_list s) r (on_replies s) (on_delete s) (on_post s) (on_getIssue s)
    (on_hasWriteAccess s) (on_addAssignee s) (on_getCurrentRepoMilestone s)
    (on_setMilestone s) (on_listReviews s) (on_listReviewRequests s).

Definition with_replies (f : string -> Res MessagesResponse.t) (s : t) : t :=
  mk (on_list s) (on_history s) f (on_delete s) (on_post s) (on_getIssue s)
    (on_hasWriteAccess s) (on_addAssignee s) (on_getCurrentRepoMilestone s)
    (on_setMilestone s) (on_listReviews s) (on_listReviewRequests s).

Definition with_delete (f : string -> Res unit) (s : t) : t :=
  mk (on_list s) (on_history s) (on_replies s) f (on_post s) (on_getIssue s)
    (on_hasWriteAccess s) (on_addAssignee s) (on_getCurrentRepoMilestone s)
    (on_setMilestone s) (on_listReviews s) (on_listReviewRequests s).

Definition with_listReviews (r : Res (option ReviewsResponse.t)) (s : t) : t :=
  mk (on_list s) (on_history s) (on_replies s) (on_delete s) (on_post s)
    (on_getIssue s) (on_hasWriteAccess s) (on_addAssignee s)
    (on_getCurrentRepoMilestone s) (on_setMilestone s) r (on_listReviewRequests s).
End Script.

Module Example.
Definition page1 : ConversationsList.t :=
  {| ConversationsList.channels :=
       [Channel.mk "C1" "general" true; Channel.mk "C2" "random" false];
     ConversationsList.response_metadata :=
       Some (ResponseMetadata.mk (Some "page-2")) |}.

Definition page2 : ConversationsList.t :=
  {| ConversationsList.channels := [Channel.mk "C3" "codereview" true];
     ConversationsList.response_metadata := Some (ResponseMetadata.mk (Some EmptyString)) |}.

Definition message (subtype : option string) (text : string)
    (reply_count : option Z) (ts : string) : SlackMessage.t :=
  SlackMessage.mk subtype text reply_count ts None.

Definition prUrl : string := "https://github.com/o/r/pull/7".

Definition announcement : SlackMessage.t :=
  message None "New PR https://github.com/o/r/pull/7" (Some 2%Z) "20.0".
Definition reply1 : SlackMessage.t := message None "on it" None "20.1".
Definition reply2 : SlackMessage.t := message None "done" None "20.2".
Definition chatter : SlackMessage.t := message None "lunch?" None "19.0".

(** Twenty messages, one of which is the announcement of the PR. *)
Definition history : list SlackMessage.t := repeat chatter 19 ++ [announcement].

(** Two pages of channels, the history above, and every call answered. *)
Definition script : Script.t :=
  {| Script.on_list := fun cursor =>
       match cursor with
       | None => Resolved page1
       | Some _ => Resolved page2
       end;
     Script.on_history := Resolved (MessagesResponse.mk true (Some history));
     Script.on_replies := fun _ =>
       Resolved (MessagesResponse.mk true (Some [announcement; reply1; reply2]));
     Script.on_delete := fun _ => Resolved tt;
     Script.on_post := Resolved tt;
     Script.on_getIssue := Resolved (Issue.mk (User.mk "alice") None None);
     Script.on_hasWriteAccess := Resolved true;
     Script.on_addAssignee := Resolved tt;
     Script.on_getCurrentRepoMilestone := Resolved (Some 5%Z);
     Script.on_setMilestone := Resolved tt;
     Script.on_listReviews :=
       Resolved (Some (ReviewsResponse.mk (Some [Review.mk "bob"])));
     Script.on_listReviewRequests :=
       Resolved (Some (ReviewRequestsResponse.mk
                         (Some (ReviewRequests.mk (Some []))))) |}.

Definition rate_limited : Js.Error := Js.mkError "ratelimited".

(** The second page of channels cannot be fetched. *)
Definition script_page_error : Script.t :=
  Script.with_list
    (fun cursor =>
       match cursor with
       | None => Resolved page1
       | Some _ => Rejected rate_limited
       end)
    script.

(** The first reply cannot be deleted by the bot. *)
Definition cant_delete : Js.Error := Js.mkError "cant_delete_message".

Definition script_refusal : Script.t :=
  Script.with_delete
    (fun ts => if String.eqb ts "20.1" then Rejected cant_delete else Resolved tt)
    script.

(** A deleted message that still has a reply. *)
Definition tombstone : SlackMessage.t :=
  message (Some "tombstone") "This message was deleted." (Some 1%Z) "18.0".
Definition orphan : SlackMessage.t := message None "thanks" None "18.1".

Definition script_tombstone : Script.t :=
  Script.with_history (Resolved (MessagesResponse.mk true (Some [tombstone; chatter])))
    (Script.with_replies
       (fun _ => Resolved (MessagesResponse.mk true (Some [tombstone; orphan])))
       script).

(** The thread of the announcement cannot be fetched. *)
Definition thread_not_found : Js.Error := Js.mkError "thread_not_found".

Definition script_thread_error : Script.t :=
  Script.with_replies (fun _ => Rejected thread_not_found) script.

Definition bot : WebClient.t := WebClient.mk "xoxb".

Definition deleter : CodeReviewChatDeleter.t :=
  CodeReviewChatDeleter.new "xoxb" None "codereview" prUrl.
(** A PR of [alice] in [o/r], and the publisher for it. *)
Definition pull : PR.t :=
  {| PR.number := 7; PR.body := EmptyString; PR.additions := 5; PR.deletions := 0;
     PR.changed_files := 1; PR.url := prUrl; PR.owner := "alice";
     PR.draft := false; PR.title := "`fix: crash`" |}.

Definition publisher : CodeReviewChat.t :=
  CodeReviewChat.mk
    (Options.mk "xoxb" "codereview" (Payload.mk "o" "r" "o/r" None pull)).

Definition alice : Issue.t := Issue.mk (User.mk "alice") None None.

(** Nobody but the author has reviewed, and nobody is asked to. *)
Definition script_unreviewed : Script.t :=
  Script.with_listReviews
    (Resolved (Some (ReviewsResponse.mk (Some [Review.mk "alice"]))))
    script.

(** A PR served over plain http. *)
Definition plain_url : string := "http://ghe.example/o/r/pull/7".

Definition plain_pull : PR.t :=
  {| PR.number := 7; PR.body := EmptyString; PR.additions := 5; PR.deletions := 0;
     PR.changed_files := 1; PR.url := plain_url; PR.owner := "alice";
     PR.draft := false; PR.title := "fix: crash" |}.

Definition plain_publisher : CodeReviewChat.t :=
  CodeReviewChat.mk
    (Options.mk "xoxb" "codereview" (Payload.mk "o" "r" "o/r" None plain_pull)).

(** The locale of the examples groups no digits. *)
Definition toLocaleString (n : Z) : string := Js.number_to_string n.

(** The first task that is not over moves, twelve times: each task in
    turn, to its end. *)
Definition in_turn : Schedule := repeat (0, true) 12.
End Example.

(** ** What a trace shows of the channel listing *)

(** The page names a next cursor: the loop of [listAllMemberships] goes
    on after it. *)
Definition names_next (page : ConversationsList.t) : bool :=
  Js.truthy_opt_string (ConversationsList.next_cursor (Some page)).

(** The pages that the [conversations.list] calls of a trace resolved to,
    in order. *)
Definition listed_page (ev : Event) : option ConversationsList.t :=
  match ev with
  | Call q r =>
      match q in Req R return Res R -> option ConversationsList.t with
      | conversations_list _ _ _ _ => fun r =>
          match r with
          | Resolved page => Some page
          | Rejected _ => None
          end
      | _ => fun _ => None
      end r
  | Logged _ => None
  end.

Definition listed (tr : Trace) : list ConversationsList.t :=
  flat_map (fun ev => match listed_page ev with Some page => [page] | None => [] end) tr.

(** The calls of [listAllMemberships] for the client [web]. *)
Definition lists_channels (web : WebClient.t) : forall R, Req R -> Prop :=
  fun R q =>
    match q with
    | conversations_list w types _ limit =>
        w = web /\ types = "public_channel,private_channel" /\ limit = 100%Z
    | _ => False
    end.

(** ** What a trace shows of a pass of the reconciler *)

(** The calls a pass makes for the channel [channel]: the listing, the
    history and the threads are read by the bot's client; a deletion is
    made by the elevated client as the user when there is one, by the bot's
    client otherwise. *)
Definition by_the_deleter (this : CodeReviewChatDeleter.t) (channel : string) :
    forall R, Req R -> Prop :=
  fun R q =>
    let bot := WebClient.mk (Chatter.slackToken (CodeReviewChatDeleter.super this)) in
    match q with
    | conversations_list web types _ limit =>
        web = bot /\ types = "public_channel,private_channel" /\ limit = 100%Z
    | conversations_history web chan limit =>
        web = bot /\ chan = channel /\ limit = 20%Z
    | conversations_replies web chan _ => web = bot /\ chan = channel
    | chat_delete web chan _ as_user =>
        chan = channel
        /\ match CodeReviewChatDeleter.elevatedClient this with
           | Some elevated => web = elevated /\ as_user = true
           | None => web = bot /\ as_user = false
           end
    | _ => False
    end.

(** A call that asks for a page of channels. *)
Definition is_list {R} (q : Req R) : bool :=
  match q with
  | conversations_list _ _ _ _ => true
  | _ => false
  end.

(** The calls of a pass once it has its channel: no page of channels is
    asked for any more. *)
Definition in_the_channel (this : CodeReviewChatDeleter.t) (channel : string) :
    forall R, Req R -> Prop :=
  fun R q => by_the_deleter this channel _ q /\ is_list q = false.

(** The lines a trace shows as logged, in order. *)
Definition logged (tr : Trace) : list string :=
  flat_map (fun ev => match ev with Logged msg => [msg] | Call _ _ => [] end) tr.

(** An answer to a thread fetch that resolves but cannot be used: it is
    not [ok], or it has no messages. *)
Definition unusable (r : Res MessagesResponse.t) : bool :=
  match r with
  | Resolved resp =>
      match MessagesResponse.ok resp, MessagesResponse.messages resp with
      | true, Some _ => false
      | _, _ => true
      end
  | Rejected _ => false
  end.

(** A call that deletes. *)
Definition only_delete : forall R, Req R -> Prop := fun R q => is_delete q = true.

(** ** What a function can return *)

(** Every value [p] can ever return satisfies [Q]. *)
Fixpoint returns_only {A} (Q : A -> Prop) (p : Prog A) : Prop :=
  match p with
  | Ret a => Q a
  | Throw _ | Diverge => True
  | Log _ k => returns_only Q k
  | Await _ k => forall r, returns_only Q (k r)
  | AwaitBoth _ _ k => forall r, returns_only Q (k r)
  end.

(** ** What a trace shows of a run of the publisher *)

(** The two calls [run] makes before it starts any task. *)
Definition intake : forall R, Req R -> Prop :=
  fun R q =>
    match q with
    | issue_getIssue | issue_hasWriteAccess _ => True
    | _ => False
    end.

(** The calls a run of the publisher makes, with what it hands to each. *)
Definition by_the_publisher (toLocaleString : Z -> string) (this : CodeReviewChat.t) :
    forall R, Req R -> Prop :=
  fun R q =>
    let payload := Options.payload (CodeReviewChat.options this) in
    let bot := WebClient.mk (Options.slackToken (CodeReviewChat.options this)) in
    match q with
    | conversations_list web types _ limit =>
        web = bot /\ types = "public_channel,private_channel" /\ limit = 100%Z
    | chat_postMessage web text _ posted link_names =>
        web = bot
        /\ text = ("New Pull Request from " ++ PR.owner (CodeReviewChat.pr this))%string
        /\ posted = Some (CodeReviewChat.blocks toLocaleString this)
        /\ link_names = true
    | pulls_listReviews owner repo pull_number
    | pulls_listReviewRequests owner repo pull_number =>
        owner = Payload.owner payload /\ repo = Payload.repo payload
        /\ pull_number = PR.number (Payload.pr payload)
    | issue_getIssue | issue_hasWriteAccess _ | issue_addAssignee _
    | issue_getCurrentRepoMilestone | issue_setMilestone _ => True
    | _ => False
    end.

(** A call that posts nothing. *)
Definition not_post : forall R, Req R -> Prop := fun R q => is_post q = false.

(** [addAssignee] was called, and [setMilestone] was. *)
Definition assigns_someone (ev : Event) : bool :=
  match ev with
  | Call (issue_addAssignee _) _ => true
  | _ => false
  end.

Definition sets_a_milestone (ev : Event) : bool :=
  match ev with
  | Call (issue_setMilestone _) _ => true
  | _ => false
  end.

(** ** Further scripted services *)

Module Scenario.
(** Every page of channels names a next page. *)
Definition endless : Script.t :=
  Script.with_list (fun _ => Resolved Example.page1) Example.script.

(** The history of the channel cannot be read. *)
Definition script_no_history : Script.t :=
  Script.with_history (Resolved (MessagesResponse.mk false None)) Example.script.

(** A history without anything about the PR. *)
Definition script_quiet : Script.t :=
  Script.with_history
    (Resolved (MessagesResponse.mk true (Some [Example.chatter; Example.chatter])))
    Example.script.

(** A reconciler that was given no PR URL. *)
Definition deleter_without_url : CodeReviewChatDeleter.t :=
  CodeReviewChatDeleter.new "xoxb" None "codereview" EmptyString.

(** The announcement of another PR, whose number starts with the same
    digit. *)
Definition announcement71 : SlackMessage.t :=
  Example.message None "New PR https://github.com/o/r/pull/71" None "21.0".

(** The message the publisher of the examples posts, as a history would
    hold it: its text is the text that was posted. *)
Definition posted : SlackMessage.t :=
  Example.message None "New Pull Request from alice" None "22.0".

(** A message that is in the history, with a subtype, and also in the
    thread of the announcement. *)
Definition broadcast : SlackMessage.t :=
  Example.message (Some "thread_broadcast") "on it" None "20.1".

Definition script_broadcast : Script.t :=
  Script.with_replies
    (fun _ =>
       Resolved (MessagesResponse.mk true
                   (Some [Example.announcement; broadcast; Example.reply2])))
    Example.script.

(** The thread of the announcement resolves without [ok]. *)
Definition script_thread_not_ok : Script.t :=
  Script.with_replies (fun _ => Resolved (MessagesResponse.mk false None))
    Example.script.

(** A draft, and its publisher. *)
Definition draft_pull : PR.t :=
  {| PR.number := 7; PR.body := EmptyString; PR.additions := 5; PR.deletions := 0;
     PR.changed_files := 1; PR.url := Example.prUrl; PR.owner := "alice";
     PR.draft := true; PR.title := "fix: crash" |}.

Definition draft_publisher : CodeReviewChat.t :=
  CodeReviewChat.mk
    (Options.mk "xoxb" "codereview" (Payload.mk "o" "r" "o/r" None draft_pull)).

(** A PR that has an assignee and a milestone already. *)
Definition triaged : Issue.t := Issue.mk (User.mk "alice") (Some "bob") (Some 4%Z).

Definition script_triaged : Script.t :=
  Script.mk (Script.on_list Example.script) (Script.on_history Example.script)
    (Script.on_replies Example.script) (Script.on_delete Example.script)
    (Script.on_post Example.script) (Resolved triaged)
    (Script.on_hasWriteAccess Example.script) (Script.on_addAssignee Example.script)
    (Script.on_getCurrentRepoMilestone Example.script)
    (Script.on_setMilestone Example.script) (Script.on_listReviews Example.script)
    (Script.on_listReviewRequests Example.script).
End Scenario.

(** * Proofs *)

(** ** The interpreter *)

Lemma exec_bind {A B} env (p : Prog A) (f : A -> Prog B) tr :
  exec env (bind p f) tr =
  match exec env p tr with
  | (Returned a, tr1) => exec env (f a) tr1
  | (Thrown e, tr1) => (Thrown e, tr1)
  | (Unfinished, tr1) => (Unfinished, tr1)
  end.
Proof.
  revert tr; induction p as [a|e| |msg k IH|R q k IH|R1 R2 q1 q2 k IH];
    intros tr; simpl; auto.
Qed.

Lemma exec_try_catch {A} env (p : Prog A) (h : Js.Error -> Prog A) tr :
  exec env (try_catch p h) tr =
  match exec env p tr with
  | (Thrown e, tr1) => exec env (h e) tr1
  | other => other
  end.
Proof.
  revert tr; induction p as [a|e| |msg k IH|R q k IH|R1 R2 q1 q2 k IH];
    intros tr; simpl; auto.
Qed.

Lemma exec_await {R} env (q : Req R) tr :
  exec env (await q) tr =
  (match env tr _ q with Resolved v => Returned v | Rejected e => Thrown e end,
   tr ++ [Call q (env tr _ q)]).
Proof. unfold await; simpl. destruct (env tr R q); reflexivity. Qed.

(** A run only adds to the history. *)
Lemma exec_extends {A} env (p : Prog A) tr :
  exists new, snd (exec env p tr) = tr ++ new.
Proof.
  revert tr; induction p as [a|e| |msg k IH|R q k IH|R1 R2 q1 q2 k IH];
    intros tr; simpl.
  1-3: exists []; now rewrite app_nil_r.
  - destruct (IH (tr ++ [Logged msg])) as [new E]. rewrite E, <- app_assoc. eauto.
  - destruct (IH (env tr _ q) (tr ++ [Call q (env tr _ q)])) as [new E].
    rewrite E, <- app_assoc. eauto.
  - match goal with |- exists _, snd (exec _ (k ?r) ?t) = _ =>
      destruct (IH r t) as [new E] end.
    rewrite E, <- !app_assoc. eauto.
Qed.

(** ** Channel listing *)

Lemma pages_iteration env web fuel groups channels tr :
  exec env (listAllMemberships_pages (S fuel) web groups channels) tr =
  match env tr _ (list_call web (ConversationsList.next_cursor groups)) with
  | Resolved g =>
      let tr1 := tr ++ [Call (list_call web (ConversationsList.next_cursor groups))
                          (Resolved g)] in
      if Js.truthy_opt_string (ConversationsList.next_cursor (Some g))
      then exec env (listAllMemberships_pages fuel web (Some g)
                       (channels ++ ConversationsList.channels g)) tr1
      else (Returned (channels ++ ConversationsList.channels g), tr1)
  | Rejected err =>
      (Returned channels,
       tr ++ [Call (list_call web (ConversationsList.next_cursor groups))
                (Rejected err);
              Logged ("Error listing channels: " ++ Js.error_to_string err)])
  end.
Proof.
  cbn [listAllMemberships_pages]. rewrite exec_bind, exec_try_catch, exec_bind, exec_await.
  fold (list_call web (ConversationsList.next_cursor groups)).
  destruct (env tr _ (list_call web (ConversationsList.next_cursor groups))) as [g|err];
    cbn -[Js.truthy_opt_string ConversationsList.next_cursor listAllMemberships_pages].
  - destruct (Js.truthy_opt_string (ConversationsList.next_cursor (Some g)));
      reflexivity.
  - now rewrite <- app_assoc.
Qed.

Lemma pages_served env web pages :
  forall fuel groups channels tr,
    serves_pages env tr web (ConversationsList.next_cursor groups) pages ->
    List.length pages <= fuel ->
    exec env (listAllMemberships_pages fuel web groups channels) tr =
    (Returned (channels ++ flat_map ConversationsList.channels pages),
     tr ++ page_events web (ConversationsList.next_cursor groups) pages).
Proof.
  induction pages as [|page rest IH]; intros fuel groups channels tr Hs Hf.
  - destruct Hs.
  - destruct fuel as [|fuel]; [simpl in Hf; lia|].
    destruct Hs as [Hpage Hrest]. rewrite pages_iteration, Hpage. cbv zeta.
    destruct rest as [|page' rest].
    + rewrite Hrest. simpl. now rewrite app_nil_r.
    + destruct Hrest as [Hc Hrest]. rewrite Hc.
      rewrite (IH fuel (Some page)); [|exact Hrest|simpl in *; lia].
      cbn [flat_map page_events]. now rewrite <- !app_assoc.
Qed.

Lemma listAllMemberships_served env web pages fuel tr :
  serves_pages env tr web None pages ->
  List.length pages <= fuel ->
  exec env (listAllMemberships fuel web) tr =
  (Returned (member_channels pages), tr ++ page_events web None pages).
Proof.
  intros Hs Hf. unfold listAllMemberships. rewrite exec_bind.
  rewrite (pages_served env web pages fuel None [] tr Hs Hf). reflexivity.
Qed.

Lemma member_channels_spec pages c :
  In c (member_channels pages) <->
  exists page, In page pages /\ In c (ConversationsList.channels page)
               /\ Channel.is_member c = true.
Proof.
  unfold member_channels. rewrite filter_In, in_flat_map. split.
  - intros [[page [Hp Hc]] Hm]. eauto.
  - intros [page [Hp [Hc Hm]]]. eauto.
Qed.

(** C2.  When the service answers the listing with a sequence of pages that
    ends with an empty cursor, [listAllMemberships] returns (given fuel for
    that many pages) the [is_member] entries of all the pages, each as many
    times as the pages hold it, and nothing else; it asks for each page
    once. *)
Theorem listAllMemberships_returns_member_union env web pages fuel tr :
  serves_pages env tr web None pages ->
  List.length pages <= fuel ->
  exec env (listAllMemberships fuel web) tr =
  (Returned (filter Channel.is_member (flat_map ConversationsList.channels pages)),
   tr ++ page_events web None pages)
  /\ forall c,
       In c (filter Channel.is_member (flat_map ConversationsList.channels pages)) <->
       exists page, In page pages /\ In c (ConversationsList.channels page)
                    /\ Channel.is_member c = true.
Proof.
  intros Hs Hf. split.
  - exact (listAllMemberships_served env web pages fuel tr Hs Hf).
  - intros c. apply member_channels_spec.
Qed.

Lemma listAllMemberships_returns_member_union_witness :
  serves_pages (Script.env Example.script) [] (WebClient.mk "xoxb") None
    [Example.page1; Example.page2]
  /\ 2 <= 2
  /\ exec (Script.env Example.script) (listAllMemberships 2 (WebClient.mk "xoxb")) [] =
     (Returned [Channel.mk "C1" "general" true; Channel.mk "C3" "codereview" true],
      [Call (list_call (WebClient.mk "xoxb") None) (Resolved Example.page1);
       Call (list_call (WebClient.mk "xoxb") (Some "page-2"))
         (Resolved Example.page2)]).
Proof.
  assert (Hs : serves_pages (Script.env Example.script) [] (WebClient.mk "xoxb") None
                 [Example.page1; Example.page2])
    by (simpl; repeat split; reflexivity).
  assert (Hf : 2 <= 2) by lia.
  exact (conj Hs (conj Hf
    (proj1 (listAllMemberships_returns_member_union _ _ _ _ _ Hs Hf)))).
Defined.

Lemma pages_then_failure env web err pages :
  forall fuel groups channels tr,
    serves_pages_then_fails env tr web (ConversationsList.next_cursor groups) pages err ->
    List.length pages < fuel ->
    exec env (listAllMemberships_pages fuel web groups channels) tr =
    (Returned (channels ++ flat_map ConversationsList.channels pages),
     tr ++ page_events web (ConversationsList.next_cursor groups) pages
        ++ [Call (list_call web
                    (cursor_after (ConversationsList.next_cursor groups) pages))
              (Rejected err);
            Logged ("Error listing channels: " ++ Js.error_to_string err)]).
Proof.
  induction pages as [|page rest IH]; intros fuel groups channels tr Hs Hf;
    (destruct fuel as [|fuel]; [simpl in Hf; lia|]); rewrite pages_iteration.
  - simpl in Hs. rewrite Hs. simpl. now rewrite app_nil_r.
  - destruct Hs as [Hpage [Hc Hrest]]. rewrite Hpage. cbv zeta. rewrite Hc.
    rewrite (IH fuel (Some page)); [|exact Hrest|simpl in *; lia].
    cbn [flat_map page_events cursor_after]. now rewrite <- !app_assoc.
Qed.

Lemma getChat_after_listing env this fuel tr members tr' :
  exec env (listAllMemberships fuel (WebClient.mk (Chatter.slackToken this))) tr =
  (Returned members, tr') ->
  exec env (Chatter.getChat this fuel) tr =
  (match Chatter.codereviewChannel this members with
   | Some c => Returned (WebClient.mk (Chatter.slackToken this), Channel.id c)
   | None =>
       Thrown (Js.mkError ("Slack channel not found: "
                           ++ Chatter.notificationChannel this))
   end, tr').
Proof.
  intros E. unfold Chatter.getChat. rewrite exec_bind, E.
  destruct (Chatter.codereviewChannel this members); reflexivity.
Qed.

Lemma codereviewChannel_none this members :
  Chatter.codereviewChannel this members = None <->
  Chatter.notificationChannel this = EmptyString
  \/ forall c, In c members -> Channel.name c <> Chatter.notificationChannel this.
Proof.
  unfold Chatter.codereviewChannel.
  destruct (Chatter.notificationChannel this) as [|a name] eqn:En; simpl.
  - split; auto.
  - split.
    + intros Hf. right. intros c Hc Heq.
      apply (find_none _ _ Hf) in Hc. rewrite Heq, String.eqb_refl in Hc.
      discriminate.
    + intros [H|H]; [discriminate|].
      destruct (find _ members) as [c|] eqn:Ef; [|reflexivity].
      apply find_some in Ef. destruct Ef as [Hc He].
      apply String.eqb_eq in He. now apply H in Hc.
Qed.

(** C6.  When the listing answers some pages and then fails,
    [listAllMemberships] asks for no further page and does not ask again for
    the failed one, logs, and returns the member channels of the pages it
    got, without throwing.  Slack gives every channel a name: when the
    configured name is not empty, or each of these channels has a name,
    [getChat] returns the first of them that has the configured name, and
    throws [Slack channel not found] exactly when none of them has it. *)
Theorem getChat_after_page_error env this pages err fuel tr :
  let web := WebClient.mk (Chatter.slackToken this) in
  let members :=
    filter Channel.is_member (flat_map ConversationsList.channels pages) in
  let tr' :=
    tr ++ page_events web None pages
       ++ [Call (list_call web (cursor_after None pages)) (Rejected err);
           Logged ("Error listing channels: " ++ Js.error_to_string err)] in
  serves_pages_then_fails env tr web None pages err ->
  List.length pages < fuel ->
  Chatter.notificationChannel this <> EmptyString
  \/ (forall c, In c members -> Channel.name c <> EmptyString) ->
  exec env (listAllMemberships fuel web) tr = (Returned members, tr')
  /\ (forall c,
        find (fun m => String.eqb (Channel.name m) (Chatter.notificationChannel this))
          members = Some c ->
        exec env (Chatter.getChat this fuel) tr = (Returned (web, Channel.id c), tr'))
  /\ ((exists e tr'', exec env (Chatter.getChat this fuel) tr = (Thrown e, tr'')) <->
      forall c, In c members -> Channel.name c <> Chatter.notificationChannel this)
  /\ forall e tr'',
       exec env (Chatter.getChat this fuel) tr = (Thrown e, tr'') ->
       e = Js.mkError ("Slack channel not found: " ++ Chatter.notificationChannel this)
       /\ tr'' = tr'.
Proof.
  intros web members tr' Hs Hf Hnamed.
  assert (El : exec env (listAllMemberships fuel web) tr = (Returned members, tr')).
  { unfold listAllMemberships. rewrite exec_bind.
    rewrite (pages_then_failure env web err pages fuel None [] tr Hs Hf).
    reflexivity. }
  pose proof (getChat_after_listing env this fuel tr members tr' El) as Eg.
  pose proof (codereviewChannel_none this members) as Hnone.
  split; [exact El|]. split; [|split].
  - intros c Hfind. rewrite Eg.
    assert (Hn : Chatter.notificationChannel this <> EmptyString).
    { destruct Hnamed as [H|H]; [exact H|]. intros Hempty.
      destruct (find_some _ _ Hfind) as [Hc He].
      apply String.eqb_eq in He. apply (H c Hc). congruence. }
    unfold Chatter.codereviewChannel.
    destruct (Chatter.notificationChannel this); [congruence|]. simpl.
    now rewrite Hfind.
  - rewrite Eg. destruct (Chatter.codereviewChannel this members) as [c|] eqn:Ec.
    + split.
      * intros [e [tr'' H]]. discriminate.
      * intros H. assert (Hx : Some c = None) by (apply Hnone; now right).
        discriminate.
    + split; [|eauto]. intros _.
      destruct (proj1 Hnone eq_refl) as [Hempty|Hno]; [|exact Hno].
      destruct Hnamed as [H|H]; [contradiction|].
      intros c Hc. rewrite Hempty. now apply H.
  - intros e tr'' H. rewrite Eg in H.
    destruct (Chatter.codereviewChannel this members); inversion H; auto.
Qed.

Lemma getChat_after_page_error_witness :
  let this := Chatter.mk "xoxb" "codereview" in
  let members := [Channel.mk "C1" "general" true] in
  let tr' :=
    [Call (list_call (WebClient.mk "xoxb") None) (Resolved Example.page1);
     Call (list_call (WebClient.mk "xoxb") (Some "page-2"))
       (Rejected Example.rate_limited);
     Logged "Error listing channels: Error: ratelimited"] in
  serves_pages_then_fails (Script.env Example.script_page_error) []
    (WebClient.mk "xoxb") None [Example.page1] Example.rate_limited
  /\ 1 < 2
  /\ (Chatter.notificationChannel this <> EmptyString
      \/ forall c, In c members -> Channel.name c <> EmptyString)
  /\ exec (Script.env Example.script_page_error)
       (listAllMemberships 2 (WebClient.mk "xoxb")) [] = (Returned members, tr')
  /\ (forall c, In c members -> Channel.name c <> Chatter.notificationChannel this)
  /\ exec (Script.env Example.script_page_error) (Chatter.getChat this 2) []
     = (Thrown (Js.mkError "Slack channel not found: codereview"), tr').
Proof.
  cbv zeta.
  assert (Hs : serves_pages_then_fails (Script.env Example.script_page_error) []
                 (WebClient.mk "xoxb") None [Example.page1] Example.rate_limited)
    by (simpl; repeat split; reflexivity).
  assert (Hf : 1 < 2) by lia.
  assert (Hnamed :
            Chatter.notificationChannel (Chatter.mk "xoxb" "codereview") <> EmptyString
            \/ forall c,
                 In c (filter Channel.is_member
                         (flat_map ConversationsList.channels [Example.page1])) ->
                 Channel.name c <> EmptyString)
    by (right; intros c [<-|[]]; discriminate).
  destruct (getChat_after_page_error (Script.env Example.script_page_error)
              (Chatter.mk "xoxb" "codereview") [Example.page1] Example.rate_limited 2 []
              Hs Hf Hnamed) as [El [_ [Hiff Hthrown]]].
  assert (Hno : forall c,
             In c (filter Channel.is_member
                     (flat_map ConversationsList.channels [Example.page1])) ->
             Channel.name c <> "codereview"%string)
    by (intros c [<-|[]]; discriminate).
  split; [exact Hs|]. split; [exact Hf|]. split; [exact Hnamed|].
  split; [exact El|]. split; [exact Hno|].
  destruct (proj2 Hiff Hno) as [e [tr'' E]].
  destruct (Hthrown e tr'' E) as [-> ->]. exact E.
Defined.

(** ** Strings *)

Lemma startsWith_spec p s :
  Js.startsWith p s = true <-> exists rest, s = (p ++ rest)%string.
Proof.
  revert s; induction p as [|a p IH]; intros s; simpl.
  - split; eauto.
  - destruct s as [|b s]; simpl.
    + split; [discriminate|]. intros [rest H]. discriminate.
    + rewrite andb_true_iff, Ascii.eqb_eq, IH. split.
      * intros [-> [rest ->]]. eauto.
      * intros [rest H]. inversion H. eauto.
Qed.

Lemma indexOf_unfold p s :
  Js.indexOf p s =
  if Js.startsWith p s then Some 0
  else match s with
       | EmptyString => None
       | String _ s' => option_map S (Js.indexOf p s')
       end.
Proof. destruct s; reflexivity. Qed.

Lemma indexOf_spec p s :
  (exists n, Js.indexOf p s = Some n) <->
  exists pre post, s = (pre ++ p ++ post)%string.
Proof.
  split.
  - induction s as [|c s IH]; rewrite indexOf_unfold; intros [n Hn].
    + destruct (Js.startsWith p EmptyString) eqn:E; [|discriminate].
      apply startsWith_spec in E. destruct E as [rest E].
      exists EmptyString, rest. exact E.
    + destruct (Js.startsWith p (String c s)) eqn:E.
      * apply startsWith_spec in E. destruct E as [rest E].
        exists EmptyString, rest. exact E.
      * destruct (Js.indexOf p s) as [m|]; [|discriminate].
        destruct IH as [pre [post ->]]; eauto.
        exists (String c pre), post. reflexivity.
  - intros [pre [post ->]]. induction pre as [|c pre IH]; rewrite indexOf_unfold.
    + assert (E : Js.startsWith p (p ++ post) = true)
        by (apply startsWith_spec; eauto).
      simpl. rewrite E. eauto.
    + destruct (Js.startsWith p (String c pre ++ p ++ post)); eauto.
      destruct IH as [n E]. simpl. rewrite E. simpl. eauto.
Qed.

(** [includes] is the substring test. *)
Lemma includes_spec s p :
  Js.includes s p = true <-> exists pre post, s = (pre ++ p ++ post)%string.
Proof.
  rewrite <- indexOf_spec. unfold Js.includes.
  destruct (Js.indexOf p s) as [n|]; split; eauto; try discriminate.
  intros [n H]. discriminate.
Qed.

(** ** Classification of the history *)

Lemma truthy_opt_string_spec o :
  Js.truthy_opt_string o = true <-> exists s, o = Some s /\ s <> EmptyString.
Proof.
  destruct o as [[|a s]|]; simpl; split; try discriminate.
  - intros [s [H Hs]]. inversion H. now subst.
  - intros _. eexists; split; [reflexivity|discriminate].
  - trivial.
  - intros [s [H _]]. discriminate.
Qed.

Lemma has_white_check_mark reactions :
  existsb (fun reaction => String.eqb (SlackReaction.name reaction) "white_check_mark")
    reactions = true <->
  exists reaction,
    In reaction reactions /\ SlackReaction.name reaction = "white_check_mark"%string.
Proof.
  rewrite existsb_exists. split; intros [r [Hin H]]; exists r; split; auto;
    now apply String.eqb_eq.
Qed.

Lemma isMessageToDelete_spec this message :
  CodeReviewChatDeleter.isMessageToDelete this message = true <->
  (exists s, SlackMessage.subtype message = Some s /\ s <> EmptyString)
  \/ (exists pre post,
        SlackMessage.text message
        = (pre ++ CodeReviewChatDeleter.prUrl this ++ post)%string)
  \/ (exists elevated reactions reaction,
        CodeReviewChatDeleter.elevatedClient this = Some elevated
        /\ SlackMessage.reactions message = Some reactions
        /\ In reaction reactions
        /\ SlackReaction.name reaction = "white_check_mark"%string).
Proof.
  unfold CodeReviewChatDeleter.isMessageToDelete.
  rewrite <- truthy_opt_string_spec, <- includes_spec.
  destruct (Js.truthy_opt_string (SlackMessage.subtype message)); [tauto|].
  destruct (CodeReviewChatDeleter.elevatedClient this) as [elevated|];
    destruct (SlackMessage.reactions message) as [reactions|].
  - rewrite orb_true_iff, has_white_check_mark. split.
    + intros [H|[r [Hin Hr]]]; [tauto|]. right; right.
      exists elevated, reactions, r. auto.
    + intros [H|[H|[e [rs [r [He [Hrs [Hin Hr]]]]]]]]; [discriminate|tauto|].
      inversion Hrs; subst. eauto.
  - split; [tauto|].
    intros [H|[H|[e [rs [r [He [Hrs _]]]]]]]; [discriminate|tauto|discriminate].
  - split; [tauto|].
    intros [H|[H|[e [rs [r [He _]]]]]]; [discriminate|tauto|discriminate].
  - split; [tauto|].
    intros [H|[H|[e [rs [r [He _]]]]]]; [discriminate|tauto|discriminate].
Qed.

(** C1.  A message of the fetched history is queued for deletion exactly
    when its subtype is a non-empty string, or its text contains the PR's
    URL, or an elevated client is set and one of its reactions is named
    [white_check_mark]; the elevated client is set exactly when the
    constructor is given a non-empty elevated token; and without an
    elevated client a message with no subtype and no URL match is not
    queued, whatever its reactions. *)
Theorem queued_iff_subtype_url_or_checked this messages message :
  (In message (filter (CodeReviewChatDeleter.isMessageToDelete this) messages) <->
   In message messages
   /\ ((exists s, SlackMessage.subtype message = Some s /\ s <> EmptyString)
       \/ (exists pre post,
             SlackMessage.text message
             = (pre ++ CodeReviewChatDeleter.prUrl this ++ post)%string)
       \/ (exists elevated reactions reaction,
             CodeReviewChatDeleter.elevatedClient this = Some elevated
             /\ SlackMessage.reactions message = Some reactions
             /\ In reaction reactions
             /\ SlackReaction.name reaction = "white_check_mark"%string)))
  /\ (forall slackToken token channel url,
        CodeReviewChatDeleter.elevatedClient
          (CodeReviewChatDeleter.new slackToken token channel url) <> None <->
        exists tok, token = Some tok /\ tok <> EmptyString)
  /\ (CodeReviewChatDeleter.elevatedClient this = None ->
      Js.truthy_opt_string (SlackMessage.subtype message) = false ->
      ~ (exists pre post,
           SlackMessage.text message
           = (pre ++ CodeReviewChatDeleter.prUrl this ++ post)%string) ->
      ~ In message (filter (CodeReviewChatDeleter.isMessageToDelete this) messages)).
Proof.
  split; [|split].
  - rewrite filter_In, isMessageToDelete_spec. reflexivity.
  - intros slackToken token channel url. simpl.
    rewrite <- truthy_opt_string_spec.
    destruct token as [[|a tok]|]; simpl; split; congruence.
  - intros He Hs Hu Hin. apply filter_In in Hin. destruct Hin as [_ Hq].
    apply isMessageToDelete_spec in Hq.
    destruct Hq as [H|[H|[e [rs [r [H _]]]]]].
    + apply truthy_opt_string_spec in H. congruence.
    + auto.
    + congruence.
Qed.

Lemma queued_iff_subtype_url_or_checked_witness :
  let this := CodeReviewChatDeleter.new "xoxb" None "codereview" Example.prUrl in
  let checked :=
    SlackMessage.mk None "lunch?" None "19.0"
      (Some [SlackReaction.mk "white_check_mark" 1 ["U1"]]) in
  CodeReviewChatDeleter.elevatedClient this = None
  /\ Js.truthy_opt_string (SlackMessage.subtype checked) = false
  /\ ~ In checked
         (filter (CodeReviewChatDeleter.isMessageToDelete this)
            [checked; Example.announcement]).
Proof.
  cbv zeta. split; [reflexivity|]. split; [reflexivity|].
  apply (queued_iff_subtype_url_or_checked
           (CodeReviewChatDeleter.new "xoxb" None "codereview" Example.prUrl)).
  - reflexivity.
  - reflexivity.
  - intros H. apply includes_spec in H. vm_compute in H. discriminate.
Defined.

Lemma exec_from_extended {A} env (p : Prog A) tr pre out new :
  exec env p (tr ++ pre) = (out, tr ++ new) ->
  exists new', new = pre ++ new' /\ exec env p (tr ++ pre) = (out, (tr ++ pre) ++ new').
Proof.
  intros E. destruct (exec_extends env p (tr ++ pre)) as [new' En].
  rewrite E in En. simpl in En. rewrite <- app_assoc in En.
  apply app_inv_head in En. exists new'. split; [exact En|].
  rewrite E, En. now rewrite app_assoc.
Qed.

Lemma exec_nothing_new {X} (tr new : list X) : tr = tr ++ new -> new = [].
Proof.
  intros H. rewrite <- (app_nil_r tr) in H at 1. apply app_inv_head in H. auto.
Qed.

(** ** What the calls of a program are *)

Lemma calls_only_bind P {A B} (p : Prog A) (f : A -> Prog B) :
  calls_only P p -> (forall a, calls_only P (f a)) -> calls_only P (bind p f).
Proof.
  intros Hp Hf.
  induction p as [a|e| |msg k IH|R q k IH|R1 R2 q1 q2 k IH]; simpl in *; auto.
  - destruct Hp; auto.
  - destruct Hp as [H1 [H2 Hk]]; auto.
Qed.

Lemma calls_only_try_catch P {A} (p : Prog A) (h : Js.Error -> Prog A) :
  calls_only P p -> (forall e, calls_only P (h e)) -> calls_only P (try_catch p h).
Proof.
  intros Hp Hh.
  induction p as [a|e| |msg k IH|R q k IH|R1 R2 q1 q2 k IH]; simpl in *; auto.
  - destruct Hp; auto.
  - destruct Hp as [H1 [H2 Hk]]; auto.
Qed.

Lemma calls_only_await (P : forall R, Req R -> Prop) {R} (q : Req R) :
  P _ q -> calls_only P (await q).
Proof. intros H. split; [exact H|]. intros [v|e]; exact I. Qed.

Lemma exec_calls_only P {A} env (p : Prog A) :
  calls_only P p ->
  forall tr out new,
    exec env p tr = (out, tr ++ new) -> Forall (call_satisfies P) new.
Proof.
  induction p as [a|e| |msg k IH|R q k IH|R1 R2 q1 q2 k IH]; simpl;
    intros Hp tr out new E.
  1-3: inversion E as [[Ho Ht]]; apply exec_nothing_new in Ht; subst; constructor.
  - apply (exec_from_extended env k tr [Logged msg]) in E.
    destruct E as [new' [-> E]]. constructor; [exact I|]. exact (IH Hp _ _ _ E).
  - destruct Hp as [Hq Hk].
    apply (exec_from_extended env _ tr [Call q (env tr _ q)]) in E.
    destruct E as [new' [-> E]]. constructor; [exact Hq|]. exact (IH _ (Hk _) _ _ _ E).
  - destruct Hp as [Hq1 [Hq2 Hk]]. rewrite <- app_assoc in E.
    apply exec_from_extended in E. destruct E as [new' [-> E]].
    constructor; [exact Hq1|]. constructor; [exact Hq2|].
    exact (IH _ (Hk _) _ _ _ E).
Qed.

(** ** Queueing: the reply threads *)

Lemma reply_fetches_app a b :
  reply_fetches (a ++ b) = reply_fetches a ++ reply_fetches b.
Proof. apply flat_map_app. Qed.

Lemma delete_calls_app a b : delete_calls (a ++ b) = delete_calls a ++ delete_calls b.
Proof. apply flat_map_app. Qed.

Lemma fetchReplies_iteration env client channel message rest replies tr :
  exec env (CodeReviewChatDeleter.fetchReplies client channel (message :: rest) replies)
    tr =
  if Js.truthy_opt_number (SlackMessage.reply_count message) then
    let q := conversations_replies client channel (SlackMessage.ts message) in
    match env tr _ q with
    | Resolved resp =>
        match MessagesResponse.ok resp, MessagesResponse.messages resp with
        | true, Some thread =>
            exec env (CodeReviewChatDeleter.fetchReplies client channel rest
                        (replies ++ tl thread))
              (tr ++ [Call q (Resolved resp)])
        | _, _ =>
            exec env (CodeReviewChatDeleter.fetchReplies client channel rest replies)
              (tr ++ [Call q (Resolved resp); Logged "Error getting messages replies"])
        end
    | Rejected e => (Thrown e, tr ++ [Call q (Rejected e)])
    end
  else exec env (CodeReviewChatDeleter.fetchReplies client channel rest replies) tr.
Proof.
  cbn [CodeReviewChatDeleter.fetchReplies].
  destruct (Js.truthy_opt_number (SlackMessage.reply_count message)); [|reflexivity].
  rewrite exec_bind, exec_await. cbv zeta.
  destruct (env tr _ (conversations_replies client channel (SlackMessage.ts message)))
    as [resp|e]; [|reflexivity].
  destruct (MessagesResponse.ok resp), (MessagesResponse.messages resp);
    try reflexivity; rewrite exec_bind; simpl; now rewrite <- app_assoc.
Qed.

(** When the first loop gets to its end, it has asked once for the thread
    of each queued message with a truthy [reply_count], in order, and
    [replies] has grown by the replies of each thread it got. *)
Lemma fetchReplies_returned env client channel messagesToDelete :
  forall replies tr set new,
    exec env (CodeReviewChatDeleter.fetchReplies client channel messagesToDelete replies)
      tr = (Returned set, tr ++ new) ->
    set = replies ++ flat_map (fun f => replies_of (snd f)) (reply_fetches new)
    /\ map fst (reply_fetches new)
       = map (fun m => (client, channel, SlackMessage.ts m))
           (with_replies messagesToDelete).
Proof.
  induction messagesToDelete as [|message rest IH]; intros replies tr set new E.
  - simpl in E. inversion E as [[Hs Ht]]. apply exec_nothing_new in Ht. subst.
    simpl. now rewrite app_nil_r.
  - rewrite fetchReplies_iteration in E. unfold with_replies. cbn [filter].
    fold (with_replies rest).
    destruct (Js.truthy_opt_number (SlackMessage.reply_count message));
      [|exact (IH _ _ _ _ E)].
    cbv zeta in E.
    destruct (env tr _ (conversations_replies client channel (SlackMessage.ts message)))
      as [resp|e] eqn:Er; [|discriminate].
    destruct (MessagesResponse.ok resp) eqn:Eok,
             (MessagesResponse.messages resp) as [thread|] eqn:Em;
      apply exec_from_extended in E; destruct E as [new' [-> E]];
      apply IH in E; destruct E as [-> Hreq];
      rewrite reply_fetches_app; cbn -[replies_of];
      (split; [|now rewrite Hreq]);
      cbn [replies_of snd]; rewrite ?Eok, ?Em;
      now rewrite <- ?app_assoc.
Qed.

Lemma fetchReplies_calls client channel messagesToDelete replies :
  calls_only not_delete
    (CodeReviewChatDeleter.fetchReplies client channel messagesToDelete replies).
Proof.
  revert replies; induction messagesToDelete as [|message rest IH]; intros replies;
    cbn [CodeReviewChatDeleter.fetchReplies]; [exact I|].
  destruct (Js.truthy_opt_number (SlackMessage.reply_count message)); [|apply IH].
  apply calls_only_bind; [now apply calls_only_await|].
  intros resp.
  destruct (MessagesResponse.ok resp), (MessagesResponse.messages resp); try apply IH;
    (apply calls_only_bind; [exact I|intros; apply IH]).
Qed.

(** ** Deleting *)

Lemma delete_loop env this client channel messagesToDelete :
  forall tr,
    let loop :=
      for_of messagesToDelete (fun message =>
        if CodeReviewChatDeleter.isTombstone message then Ret tt
        else await (CodeReviewChatDeleter.deleteCall this client channel message)) in
    exec env loop tr
    = (Returned tt, tr ++ map (deleted this client channel) (live messagesToDelete))
    \/ exists done message rest e,
         live messagesToDelete = done ++ message :: rest
         /\ exec env loop tr
            = (Thrown e,
               tr ++ map (deleted this client channel) done
                  ++ [delete_refused this client channel message e]).
Proof.
  induction messagesToDelete as [|message rest IH]; intros tr; cbv zeta.
  - left. simpl. now rewrite app_nil_r.
  - cbn [for_of live filter]. fold (live rest). rewrite exec_bind.
    destruct (CodeReviewChatDeleter.isTombstone message); cbn [negb exec].
    + apply IH.
    + rewrite exec_await.
      destruct (env tr _ (CodeReviewChatDeleter.deleteCall this client channel message))
        as [[]|e] eqn:Er.
      * specialize (IH (tr ++ [Call (CodeReviewChatDeleter.deleteCall this client
                                       channel message) (Resolved tt)])).
        cbv zeta in IH. destruct IH as [IH|[done [m [rest' [e [Hl IH]]]]]].
        -- left. rewrite IH. cbn [map]. now rewrite <- app_assoc.
        -- right. exists (message :: done), m, rest', e. rewrite Hl. split; [easy|].
           rewrite IH. cbn [map]. now rewrite <- !app_assoc.
      * right. exists [], message, (live rest), e. split; reflexivity.
Qed.

(** The second loop inside its [try]/[catch] always returns: either every
    message that is no tombstone was deleted, or the deletions stopped at
    the first refusal, which was logged. *)
Lemma deleteMessages_spec env this client channel messagesToDelete tr :
  exec env (CodeReviewChatDeleter.deleteMessages this client channel messagesToDelete) tr
  = (Returned tt, tr ++ map (deleted this client channel) (live messagesToDelete))
  \/ exists done message rest e,
       live messagesToDelete = done ++ message :: rest
       /\ exec env
            (CodeReviewChatDeleter.deleteMessages this client channel messagesToDelete) tr
          = (Returned tt,
             tr ++ map (deleted this client channel) done
                ++ [delete_refused this client channel message e;
                    Logged "error deleting message, probably posted by some human"]).
Proof.
  unfold CodeReviewChatDeleter.deleteMessages. rewrite exec_try_catch.
  destruct (delete_loop env this client channel messagesToDelete tr)
    as [E|[done [m [rest [e [Hl E]]]]]]; cbv zeta in E; rewrite E.
  - now left.
  - right. exists done, m, rest, e. split; [exact Hl|]. simpl.
    now rewrite <- !app_assoc.
Qed.

Lemma delete_calls_deleted this client channel messages :
  delete_calls (map (deleted this client channel) messages)
  = map (CodeReviewChatDeleter.deleteCall this client channel) messages.
Proof.
  induction messages as [|m rest IH]; [reflexivity|].
  cbn [map]. unfold delete_calls in *. cbn [flat_map]. rewrite IH.
  unfold deleted, CodeReviewChatDeleter.deleteCall.
  destruct (CodeReviewChatDeleter.elevatedClient this); reflexivity.
Qed.

Lemma no_rejection_in_deleted this client channel messages :
  existsb rejected (map (deleted this client channel) messages) = false.
Proof. induction messages; simpl; auto. Qed.

Lemma deleteCall_is_delete this client channel message :
  is_delete (CodeReviewChatDeleter.deleteCall this client channel message) = true.
Proof.
  unfold CodeReviewChatDeleter.deleteCall.
  destruct (CodeReviewChatDeleter.elevatedClient this); reflexivity.
Qed.

Lemma listAllMemberships_pages_calls (P : forall R, Req R -> Prop) web :
  (forall cursor, P _ (list_call web cursor)) ->
  forall fuel groups channels,
    calls_only P (listAllMemberships_pages fuel web groups channels).
Proof.
  intros HP. induction fuel as [|fuel IH]; intros groups channels; [exact I|].
  cbn [listAllMemberships_pages].
  apply calls_only_bind.
  - apply calls_only_try_catch.
    + apply calls_only_bind; [apply calls_only_await, HP|]. intros g. exact I.
    + intros e. exact I.
  - intros [groups' channels'].
    destruct (Js.truthy_opt_string (ConversationsList.next_cursor groups'));
      [apply IH|exact I].
Qed.

Lemma getChat_calls (P : forall R, Req R -> Prop) this fuel :
  (forall cursor, P _ (list_call (WebClient.mk (Chatter.slackToken this)) cursor)) ->
  calls_only P (Chatter.getChat this fuel).
Proof.
  intros HP. unfold Chatter.getChat, listAllMemberships.
  apply calls_only_bind.
  - apply calls_only_bind; [now apply listAllMemberships_pages_calls|].
    intros; exact I.
  - intros members. destruct (Chatter.codereviewChannel this members); exact I.
Qed.

Lemma queueMessages_calls this client channel messages :
  calls_only not_delete (CodeReviewChatDeleter.queueMessages this client channel messages).
Proof.
  unfold CodeReviewChatDeleter.queueMessages.
  apply calls_only_bind; [apply fetchReplies_calls|]. intros; exact I.
Qed.

Lemma no_rejected_delete new :
  Forall (call_satisfies not_delete) new -> existsb rejected_delete new = false.
Proof.
  induction new as [|ev new IH]; [reflexivity|]. simpl.
  intros H. inversion H as [|ev' new' Hev Hnew]; subst.
  rewrite (IH Hnew), orb_false_r.
  unfold call_satisfies, not_delete in Hev.
  destruct ev as [R q [v|e]|msg]; [| |reflexivity];
    destruct q; simpl in *; congruence.
Qed.

Lemma exec_no_rejected_delete {A} env (p : Prog A) tr out new :
  calls_only not_delete p ->
  exec env p tr = (out, tr ++ new) -> existsb rejected_delete new = false.
Proof.
  intros Hp E. apply no_rejected_delete.
  exact (exec_calls_only not_delete env p Hp tr out new E).
Qed.

(** An equation [exec env p tr = (out, tr ++ new)], from what [exec]
    returns. *)
Lemma exec_new {A} env (p : Prog A) tr :
  exists out new, exec env p tr = (out, tr ++ new).
Proof.
  destruct (exec_extends env p tr) as [new E].
  destruct (exec env p tr) as [out tr'] eqn:Ep. simpl in E. subst. eauto.
Qed.

Lemma deleteMessages_refusal env this client channel messagesToDelete tr out new :
  exec env (CodeReviewChatDeleter.deleteMessages this client channel messagesToDelete) tr
  = (out, tr ++ new) ->
  existsb rejected new = true ->
  out = Returned tt
  /\ exists done message rest e,
       live messagesToDelete = done ++ message :: rest
       /\ new = map (deleted this client channel) done
                ++ [delete_refused this client channel message e;
                    Logged "error deleting message, probably posted by some human"].
Proof.
  intros E Hr.
  destruct (deleteMessages_spec env this client channel messagesToDelete tr)
    as [E'|[done [m [rest [e [Hl E']]]]]]; rewrite E in E'; inversion E' as [[Ho Ht]];
    apply app_inv_head in Ht; subst new.
  - now rewrite no_rejection_in_deleted in Hr.
  - split; [reflexivity|]. exists done, m, rest, e. auto.
Qed.

Lemma rejected_delete_is_rejected new :
  existsb rejected_delete new = true -> existsb rejected new = true.
Proof.
  rewrite !existsb_exists. intros [ev [Hin H]]. exists ev. split; [exact Hin|].
  destruct ev as [R q [v|e]|msg]; [| |discriminate];
    destruct q; simpl in *; congruence.
Qed.

(** A run that ended in one of its first phases made no delete call. *)
Ltac ended_before_deleting E Hr :=
  inversion E as [[Ho Ht]]; rewrite <- ?app_assoc in Ht; apply app_inv_head in Ht;
  subst; rewrite ?existsb_app in Hr; simpl in Hr;
  repeat match goal with
         | H : existsb rejected_delete _ = false |- _ => rewrite H in Hr; clear H
         end;
  discriminate.

(** C7.  When a delete call is rejected, the loop stops there: the
    deletions made before it stand (nothing follows them but the refused
    call and one logged line), the messages after it are not tried, and
    neither [deleteMessages] nor [run] throws. *)
Theorem delete_refusal_stops_the_pass env this :
  (forall client channel messagesToDelete tr out new,
     exec env (CodeReviewChatDeleter.deleteMessages this client channel messagesToDelete)
       tr = (out, tr ++ new) ->
     existsb rejected new = true ->
     out = Returned tt
     /\ exists done message rest e,
          live messagesToDelete = done ++ message :: rest
          /\ new = map (deleted this client channel) done
                   ++ [delete_refused this client channel message e;
                       Logged "error deleting message, probably posted by some human"])
  /\ (forall fuel tr out new,
        exec env (CodeReviewChatDeleter.run this fuel) tr = (out, tr ++ new) ->
        existsb rejected_delete new = true ->
        out = Returned tt
        /\ exists before (q : Req unit) e,
             new = before
                   ++ [Call q (Rejected e);
                       Logged "error deleting message, probably posted by some human"]
             /\ is_delete q = true
             /\ existsb rejected_delete before = false).
Proof.
  split; [intros; eapply deleteMessages_refusal; eauto|].
  intros fuel tr out new E Hr.
  unfold CodeReviewChatDeleter.run in E. rewrite exec_bind in E.
  destruct (exec_new env (Chatter.getChat (CodeReviewChatDeleter.super this) fuel) tr)
    as [out1 [new1 E1]].
  assert (H1 : existsb rejected_delete new1 = false).
  { eapply exec_no_rejected_delete; [|exact E1].
    apply getChat_calls. reflexivity. }
  rewrite E1 in E.
  destruct out1 as [[client channel]|e1|]; [|ended_before_deleting E Hr ..].
  rewrite exec_bind, exec_await in E.
  destruct (env (tr ++ new1) _ (conversations_history client channel 20))
    as [response|e2]; [|ended_before_deleting E Hr].
  destruct (MessagesResponse.ok response), (MessagesResponse.messages response)
    as [messages|]; try (simpl in E; ended_before_deleting E Hr).
  rewrite exec_bind in E.
  match type of E with context [exec env ?p ?t] =>
    destruct (exec_new env p t) as [out3 [new3 E3]] end.
  assert (H3 : existsb rejected_delete new3 = false).
  { eapply exec_no_rejected_delete; [|exact E3]. apply queueMessages_calls. }
  rewrite E3 in E.
  destruct out3 as [set|e3|]; [|ended_before_deleting E Hr ..].
  destruct (List.length set =? 0)%nat; [simpl in E; ended_before_deleting E Hr|].
  match type of E with exec env ?p ?t = _ =>
    destruct (exec_new env p t) as [out4 [new4 E4]] end.
  rewrite E4 in E. inversion E as [[Ho Ht]]. rewrite <- !app_assoc in Ht.
  apply app_inv_head in Ht. subst new. rewrite !existsb_app in Hr. simpl in Hr.
  rewrite H1, H3 in Hr. simpl in Hr.
  destruct (deleteMessages_refusal env this client channel set _ _ _ E4
              (rejected_delete_is_rejected _ Hr))
    as [-> [done [m [rest [e [Hl ->]]]]]].
  split; [now rewrite <- Ho|].
  exists (new1 ++ [Call (conversations_history client channel 20) (Resolved response)]
               ++ new3 ++ map (deleted this client channel) done),
    (CodeReviewChatDeleter.deleteCall this client channel m), e.
  split; [unfold delete_refused; now rewrite <- !app_assoc|].
  split; [apply deleteCall_is_delete|].
  rewrite !existsb_app. simpl. rewrite H1, H3. simpl.
  clear. induction done as [|d done IH]; [reflexivity|]. simpl. rewrite IH.
  unfold CodeReviewChatDeleter.deleteCall.
  destruct (CodeReviewChatDeleter.elevatedClient this); reflexivity.
Qed.

Lemma delete_refusal_stops_the_pass_witness :
  let env := Script.env Example.script_refusal in
  let queue := [Example.announcement; Example.reply1; Example.reply2] in
  let new :=
    [deleted Example.deleter Example.bot "C3" Example.announcement;
     delete_refused Example.deleter Example.bot "C3" Example.reply1 Example.cant_delete;
     Logged "error deleting message, probably posted by some human"] in
  exec env (CodeReviewChatDeleter.deleteMessages Example.deleter Example.bot "C3" queue) []
  = (Returned tt, [] ++ new)
  /\ existsb rejected new = true
  /\ (Returned tt = Returned tt
      /\ exists done message rest e,
           live queue = done ++ message :: rest
           /\ new = map (deleted Example.deleter Example.bot "C3") done
                    ++ [delete_refused Example.deleter Example.bot "C3" message e;
                        Logged "error deleting message, probably posted by some human"]).
Proof.
  cbv zeta.
  assert (E : exec (Script.env Example.script_refusal)
                (CodeReviewChatDeleter.deleteMessages Example.deleter Example.bot "C3"
                   [Example.announcement; Example.reply1; Example.reply2]) []
              = (Returned tt,
                 [] ++ [deleted Example.deleter Example.bot "C3" Example.announcement;
                        delete_refused Example.deleter Example.bot "C3" Example.reply1
                          Example.cant_delete;
                        Logged "error deleting message, probably posted by some human"]))
    by reflexivity.
  assert (Hr : existsb rejected
                 [deleted Example.deleter Example.bot "C3" Example.announcement;
                  delete_refused Example.deleter Example.bot "C3" Example.reply1
                    Example.cant_delete;
                  Logged "error deleting message, probably posted by some human"]
               = true) by reflexivity.
  exact (conj E (conj Hr
    (proj1 (delete_refusal_stops_the_pass _ _) _ _ _ _ _ _ E Hr))).
Defined.

(** ** The queue and the pass *)

Lemma queueMessages_returned env this client channel messages tr set new :
  exec env (CodeReviewChatDeleter.queueMessages this client channel messages) tr
  = (Returned set, tr ++ new) ->
  let queued := filter (CodeReviewChatDeleter.isMessageToDelete this) messages in
  set = queued ++ flat_map (fun f => replies_of (snd f)) (reply_fetches new)
  /\ map fst (reply_fetches new)
     = map (fun m => (client, channel, SlackMessage.ts m)) (with_replies queued).
Proof.
  intros E queued. unfold CodeReviewChatDeleter.queueMessages in E.
  cbv zeta in E. rewrite exec_bind in E. fold queued in E.
  destruct (exec_new env (CodeReviewChatDeleter.fetchReplies client channel queued []) tr)
    as [out [new' E']].
  rewrite E' in E. destruct out as [replies|e|]; try discriminate.
  simpl in E. inversion E as [[Hs Ht]]. apply app_inv_head in Ht. subst new'.
  apply fetchReplies_returned in E'. destruct E' as [-> Hq]. auto.
Qed.

Lemma fetched_replies_queued (fetches : list (WebClient.t * string * string
                                               * Res MessagesResponse.t))
    web channel ts resp thread :
  In (web, channel, ts, Resolved resp) fetches ->
  MessagesResponse.ok resp = true ->
  MessagesResponse.messages resp = Some thread ->
  incl (tl thread) (flat_map (fun f => replies_of (snd f)) fetches).
Proof.
  intros Hin Hok Hm reply Hr. apply in_flat_map.
  exists (web, channel, ts, Resolved resp). split; [exact Hin|].
  simpl. now rewrite Hok, Hm.
Qed.

Lemma tombstone_is_queued this message :
  CodeReviewChatDeleter.isTombstone message = true ->
  CodeReviewChatDeleter.isMessageToDelete this message = true.
Proof.
  unfold CodeReviewChatDeleter.isTombstone, CodeReviewChatDeleter.isMessageToDelete.
  destruct (SlackMessage.subtype message) as [s|]; [|discriminate].
  intros H. apply String.eqb_eq in H. subst. reflexivity.
Qed.

(** C4.  The delete calls of a pass are, in order, those of an initial
    segment of the queued messages that are no tombstones, so no tombstone
    is passed to a delete call; and a tombstone of the history is queued,
    its thread is asked for when its [reply_count] is truthy, and the
    replies of the thread fetched for it are in the queue that is handed to
    the deletion. *)
Theorem tombstones_skipped_replies_kept env this client channel :
  (forall messagesToDelete tr out new,
     exec env (CodeReviewChatDeleter.deleteMessages this client channel messagesToDelete)
       tr = (out, tr ++ new) ->
     exists attempted rest,
       filter (fun m => negb (CodeReviewChatDeleter.isTombstone m)) messagesToDelete
       = attempted ++ rest
       /\ delete_calls new
          = map (CodeReviewChatDeleter.deleteCall this client channel) attempted
       /\ forall m, In m attempted ->
                    In m messagesToDelete
                    /\ CodeReviewChatDeleter.isTombstone m = false)
  /\ (forall messages tr queue new,
        exec env (CodeReviewChatDeleter.queueMessages this client channel messages) tr
        = (Returned queue, tr ++ new) ->
        forall m,
          In m messages ->
          CodeReviewChatDeleter.isTombstone m = true ->
          In m queue
          /\ (Js.truthy_opt_number (SlackMessage.reply_count m) = true ->
              exists r, In (client, channel, SlackMessage.ts m, r) (reply_fetches new))
          /\ forall thread,
               In (client, channel, SlackMessage.ts m,
                   Resolved (MessagesResponse.mk true (Some thread)))
                 (reply_fetches new) ->
               incl (tl thread) queue).
Proof.
  split.
  - intros msgs tr out new E.
    assert (Hlive : forall l rest m,
               live msgs = l ++ rest -> In m l ->
               In m msgs /\ CodeReviewChatDeleter.isTombstone m = false).
    { intros l rest m Hl Hin.
      assert (Hm : In m (live msgs)) by (rewrite Hl; apply in_or_app; auto).
      apply filter_In in Hm. destruct Hm as [Hm Ht]. split; [exact Hm|].
      now apply negb_true_iff in Ht. }
    destruct (deleteMessages_spec env this client channel msgs tr)
      as [E'|[done [m [rest [e [Hl E']]]]]]; rewrite E in E';
      inversion E' as [[Ho Ht]]; apply app_inv_head in Ht; subst new.
    + exists (live msgs), []. rewrite app_nil_r. split; [reflexivity|].
      split; [apply delete_calls_deleted|].
      intros m Hm. apply (Hlive (live msgs) [] m); [now rewrite app_nil_r|exact Hm].
    + exists (done ++ [m]), rest. rewrite <- app_assoc. split; [exact Hl|].
      split.
      * rewrite delete_calls_app, delete_calls_deleted, map_app. f_equal.
        unfold delete_refused, CodeReviewChatDeleter.deleteCall.
        destruct (CodeReviewChatDeleter.elevatedClient this); reflexivity.
      * intros m' Hm'. apply (Hlive (done ++ [m]) rest m'); [|exact Hm'].
        now rewrite <- app_assoc.
  - intros messages tr queue new E m Hm Ht.
    apply queueMessages_returned in E. cbv zeta in E. destruct E as [-> Hq].
    assert (Hqueued : In m (filter (CodeReviewChatDeleter.isMessageToDelete this) messages))
      by (apply filter_In; split; [exact Hm|now apply tombstone_is_queued]).
    split; [apply in_or_app; now left|]. split.
    + intros Hc.
      assert (Hin : In (client, channel, SlackMessage.ts m)
                      (map fst (reply_fetches new))).
      { rewrite Hq. apply in_map_iff. exists m. split; [reflexivity|].
        apply filter_In. auto. }
      apply in_map_iff in Hin. destruct Hin as [[k r] [Hk Hin]].
      simpl in Hk. subst k. eauto.
    + intros thread Hin reply Hr. apply in_or_app. right.
      eapply fetched_replies_queued; eauto; reflexivity.
Qed.

Lemma tombstones_skipped_replies_kept_witness :
  let env := Script.env Example.script_tombstone in
  let new :=
    [Call (conversations_replies Example.bot "C3" "18.0")
       (Resolved (MessagesResponse.mk true (Some [Example.tombstone; Example.orphan])))] in
  exec env
    (CodeReviewChatDeleter.queueMessages Example.deleter Example.bot "C3"
       [Example.tombstone; Example.chatter]) []
  = (Returned [Example.tombstone; Example.orphan], [] ++ new)
  /\ In Example.tombstone [Example.tombstone; Example.chatter]
  /\ CodeReviewChatDeleter.isTombstone Example.tombstone = true
  /\ In Example.tombstone [Example.tombstone; Example.orphan]
  /\ incl (tl [Example.tombstone; Example.orphan]) [Example.tombstone; Example.orphan]
  /\ delete_calls
       (snd (exec env
               (CodeReviewChatDeleter.deleteMessages Example.deleter Example.bot "C3"
                  [Example.tombstone; Example.orphan]) []))
     = [chat_delete Example.bot "C3" "18.1" false].
Proof.
  cbv zeta.
  assert (E : exec (Script.env Example.script_tombstone)
                (CodeReviewChatDeleter.queueMessages Example.deleter Example.bot "C3"
                   [Example.tombstone; Example.chatter]) []
              = (Returned [Example.tombstone; Example.orphan],
                 [] ++ [Call (conversations_replies Example.bot "C3" "18.0")
                          (Resolved (MessagesResponse.mk true
                                       (Some [Example.tombstone; Example.orphan])))]))
    by reflexivity.
  assert (Hin : In Example.tombstone [Example.tombstone; Example.chatter])
    by (simpl; auto).
  assert (Ht : CodeReviewChatDeleter.isTombstone Example.tombstone = true)
    by reflexivity.
  destruct (proj2 (tombstones_skipped_replies_kept
                     (Script.env Example.script_tombstone) Example.deleter
                     Example.bot "C3") _ _ _ _ E _ Hin Ht) as [Hq [_ Hreplies]].
  repeat split; auto.
  apply Hreplies. simpl. auto.
Defined.

Lemma run_after_history env this fuel tr client channel tr1 messages :
  exec env (Chatter.getChat (CodeReviewChatDeleter.super this) fuel) tr
  = (Returned (client, channel), tr1) ->
  env tr1 _ (conversations_history client channel 20)
  = Resolved (MessagesResponse.mk true (Some messages)) ->
  exec env (CodeReviewChatDeleter.run this fuel) tr =
  match exec env (CodeReviewChatDeleter.queueMessages this client channel messages)
          (tr1 ++ [Call (conversations_history client channel 20)
                     (Resolved (MessagesResponse.mk true (Some messages)))]) with
  | (Returned queue, tr2) =>
      if (List.length queue =? 0)%nat
      then (Returned tt, tr2 ++ [Logged "no message found, exiting"])
      else exec env (CodeReviewChatDeleter.deleteMessages this client channel queue) tr2
  | (Thrown e, tr2) => (Thrown e, tr2)
  | (Unfinished, tr2) => (Unfinished, tr2)
  end.
Proof.
  intros Eg Eh. unfold CodeReviewChatDeleter.run.
  rewrite exec_bind, Eg, exec_bind, exec_await, Eh. cbn [MessagesResponse.ok
    MessagesResponse.messages]. rewrite exec_bind.
  destruct (exec env (CodeReviewChatDeleter.queueMessages this client channel messages) _)
    as [[queue|e|] tr2]; try reflexivity.
  destruct (List.length queue =? 0)%nat; reflexivity.
Qed.

Lemma deleteMessages_all (env : Env) this client channel messagesToDelete :
  (forall h m,
     env h _ (CodeReviewChatDeleter.deleteCall this client channel m) = Resolved tt) ->
  forall tr,
    exec env (CodeReviewChatDeleter.deleteMessages this client channel messagesToDelete) tr
    = (Returned tt, tr ++ map (deleted this client channel) (live messagesToDelete)).
Proof.
  intros Hd tr.
  destruct (deleteMessages_spec env this client channel messagesToDelete tr)
    as [E|[done [m [rest [e [Hl E]]]]]]; [exact E|exfalso].
  unfold CodeReviewChatDeleter.deleteMessages in E. rewrite exec_try_catch in E.
  destruct (delete_loop env this client channel messagesToDelete tr)
    as [E'|[done' [m' [rest' [e' [Hl' E']]]]]]; cbv zeta in E'; rewrite E' in E.
  - inversion E as [[Ht]]. apply app_inv_head in Ht.
    apply (f_equal (existsb rejected)) in Ht.
    rewrite existsb_app, !no_rejection_in_deleted in Ht. discriminate.
  - clear E.
    assert (Hx : forall msgs tr0,
               fst (exec env
                      (for_of msgs (fun message =>
                         if CodeReviewChatDeleter.isTombstone message then Ret tt
                         else await (CodeReviewChatDeleter.deleteCall this client
                                       channel message))) tr0) = Returned tt).
    { induction msgs as [|x msgs IH]; intros tr0; [reflexivity|].
      cbn [for_of]. rewrite exec_bind.
      destruct (CodeReviewChatDeleter.isTombstone x); [apply IH|].
      rewrite exec_await, Hd. apply IH. }
    specialize (Hx messagesToDelete tr). rewrite E' in Hx. discriminate.
Qed.

Lemma url_match_is_queued this message :
  Js.includes (SlackMessage.text message) (CodeReviewChatDeleter.prUrl this) = true ->
  CodeReviewChatDeleter.isMessageToDelete this message = true.
Proof.
  intros H. apply isMessageToDelete_spec. right; left. now apply includes_spec.
Qed.

(** C5.  The first loop asks for the thread of each queued message with a
    truthy [reply_count] (a positive one is), and the queue handed to the
    deletion is the queued messages followed by every fetched thread
    without its first item.  So for a history in which exactly one message
    contains the PR's URL, none is queued for another reason, that message
    has [reply_count] 2 and a thread made of the root and two replies, none
    of them a tombstone, and every delete call is answered: exactly three
    delete calls are made, for the message and its two replies. *)
Theorem replies_queued_without_root env this :
  (forall client channel messages tr queue new,
     exec env (CodeReviewChatDeleter.queueMessages this client channel messages) tr
     = (Returned queue, tr ++ new) ->
     let queued := filter (CodeReviewChatDeleter.isMessageToDelete this) messages in
     map fst (reply_fetches new)
     = map (fun m => (client, channel, SlackMessage.ts m))
         (filter (fun m => Js.truthy_opt_number (SlackMessage.reply_count m)) queued)
     /\ queue = queued ++ flat_map (fun f => replies_of (snd f)) (reply_fetches new)
     /\ forall web chan ts thread,
          In (web, chan, ts, Resolved (MessagesResponse.mk true (Some thread)))
            (reply_fetches new) ->
          incl (tl thread) queue)
  /\ (forall fuel tr client channel tr1 messages m root r1 r2,
        exec env (Chatter.getChat (CodeReviewChatDeleter.super this) fuel) tr
        = (Returned (client, channel), tr1) ->
        env tr1 _ (conversations_history client channel 20)
        = Resolved (MessagesResponse.mk true (Some messages)) ->
        filter (fun x => Js.includes (SlackMessage.text x)
                           (CodeReviewChatDeleter.prUrl this)) messages = [m] ->
        (forall x, In x messages ->
                   CodeReviewChatDeleter.isMessageToDelete this x = true ->
                   Js.includes (SlackMessage.text x)
                     (CodeReviewChatDeleter.prUrl this) = true) ->
        SlackMessage.reply_count m = Some 2%Z ->
        (forall h,
           env h _ (conversations_replies client channel (SlackMessage.ts m))
           = Resolved (MessagesResponse.mk true (Some [root; r1; r2]))) ->
        CodeReviewChatDeleter.isTombstone m = false ->
        CodeReviewChatDeleter.isTombstone r1 = false ->
        CodeReviewChatDeleter.isTombstone r2 = false ->
        (forall h web chan ts as_user,
           env h _ (chat_delete web chan ts as_user) = Resolved tt) ->
        let new :=
          [Call (conversations_history client channel 20)
             (Resolved (MessagesResponse.mk true (Some messages)));
           Call (conversations_replies client channel (SlackMessage.ts m))
             (Resolved (MessagesResponse.mk true (Some [root; r1; r2])));
           deleted this client channel m;
           deleted this client channel r1;
           deleted this client channel r2] in
        exec env (CodeReviewChatDeleter.run this fuel) tr = (Returned tt, tr1 ++ new)
        /\ delete_calls new
           = map (CodeReviewChatDeleter.deleteCall this client channel) [m; r1; r2]).
Proof.
  split.
  - intros client channel messages tr queue new E queued.
    apply queueMessages_returned in E. cbv zeta in E. fold queued in E.
    destruct E as [-> Hq]. split; [exact Hq|]. split; [reflexivity|].
    intros web chan ts thread Hin reply Hr. apply in_or_app. right.
    eapply fetched_replies_queued; eauto; reflexivity.
  - intros fuel tr client channel tr1 messages m root r1 r2 Eg Eh Hone Honly Hc Hthread
      Hm Hr1 Hr2 Hdel new.
    assert (Hqueued : filter (CodeReviewChatDeleter.isMessageToDelete this) messages = [m]).
    { rewrite <- Hone. apply filter_ext_in. intros x Hx.
      destruct (Js.includes (SlackMessage.text x) (CodeReviewChatDeleter.prUrl this))
        eqn:Ei.
      - now apply url_match_is_queued.
      - destruct (CodeReviewChatDeleter.isMessageToDelete this x) eqn:Eq; [|reflexivity].
        rewrite (Honly x Hx Eq) in Ei. discriminate. }
    assert (Hcalls : delete_calls new
                     = map (CodeReviewChatDeleter.deleteCall this client channel)
                         [m; r1; r2]).
    { subst new. unfold deleted, CodeReviewChatDeleter.deleteCall.
      destruct (CodeReviewChatDeleter.elevatedClient this); reflexivity. }
    split; [|exact Hcalls].
    rewrite (run_after_history env this fuel tr client channel tr1 messages Eg Eh).
    unfold CodeReviewChatDeleter.queueMessages. cbv zeta. rewrite Hqueued, exec_bind.
    rewrite fetchReplies_iteration, Hc. cbn [Js.truthy_opt_number Js.truthy_number
      Z.eqb negb]. cbv zeta. rewrite Hthread.
    cbn [MessagesResponse.ok MessagesResponse.messages
         CodeReviewChatDeleter.fetchReplies exec app tl List.length Nat.eqb].
    rewrite deleteMessages_all.
    + unfold live. cbn [filter]. rewrite Hm, Hr1, Hr2. cbn [negb map].
      subst new. now rewrite <- !app_assoc.
    + intros h x. unfold CodeReviewChatDeleter.deleteCall.
      destruct (CodeReviewChatDeleter.elevatedClient this); apply Hdel.
Qed.

Lemma replies_queued_without_root_witness :
  let env := Script.env Example.script in
  let thread := [Example.announcement; Example.reply1; Example.reply2] in
  exec env (CodeReviewChatDeleter.run Example.deleter 2) []
  = (Returned tt,
     [Call (list_call Example.bot None) (Resolved Example.page1);
      Call (list_call Example.bot (Some "page-2")) (Resolved Example.page2)]
     ++ [Call (conversations_history Example.bot "C3" 20)
           (Resolved (MessagesResponse.mk true (Some Example.history)));
         Call (conversations_replies Example.bot "C3" "20.0")
           (Resolved (MessagesResponse.mk true (Some thread)));
         deleted Example.deleter Example.bot "C3" Example.announcement;
         deleted Example.deleter Example.bot "C3" Example.reply1;
         deleted Example.deleter Example.bot "C3" Example.reply2]).
Proof.
  cbv zeta.
  refine (proj1 (proj2 (replies_queued_without_root (Script.env Example.script)
                          Example.deleter)
                   2 [] Example.bot "C3" _ Example.history Example.announcement
                   Example.announcement Example.reply1 Example.reply2
                   _ _ _ _ _ _ _ _ _ _)).
  - reflexivity.
  - reflexivity.
  - reflexivity.
  - intros x Hx Hq. unfold Example.history in Hx. simpl in Hx.
    repeat (destruct Hx as [<-|Hx]; [vm_compute in Hq; try discriminate; reflexivity|]).
    destruct Hx.
  - reflexivity.
  - intros h. reflexivity.
  - reflexivity.
  - reflexivity.
  - reflexivity.
  - intros h web chan ts as_user. reflexivity.
Defined.

(** What the code does handle: a thread whose fetch resolves without [ok]
    or without messages is logged and skipped, and the loop goes on. *)
Lemma unusable_thread_is_skipped (env : Env) client channel message rest replies tr resp :
  Js.truthy_opt_number (SlackMessage.reply_count message) = true ->
  env tr _ (conversations_replies client channel (SlackMessage.ts message))
  = Resolved resp ->
  MessagesResponse.ok resp = false \/ MessagesResponse.messages resp = None ->
  exec env (CodeReviewChatDeleter.fetchReplies client channel (message :: rest) replies)
    tr
  = exec env (CodeReviewChatDeleter.fetchReplies client channel rest replies)
      (tr ++ [Call (conversations_replies client channel (SlackMessage.ts message))
                (Resolved resp);
              Logged "Error getting messages replies"]).
Proof.
  intros Hc Hr Hbad. rewrite fetchReplies_iteration, Hc. cbv zeta. rewrite Hr.
  destruct (MessagesResponse.ok resp), (MessagesResponse.messages resp);
    try reflexivity.
  destruct Hbad; discriminate.
Qed.

(** A rejected fetch is thrown out of the loop. *)
Lemma rejected_thread_is_thrown (env : Env) client channel message rest replies tr e :
  Js.truthy_opt_number (SlackMessage.reply_count message) = true ->
  env tr _ (conversations_replies client channel (SlackMessage.ts message))
  = Rejected e ->
  exec env (CodeReviewChatDeleter.fetchReplies client channel (message :: rest) replies)
    tr
  = (Thrown e,
     tr ++ [Call (conversations_replies client channel (SlackMessage.ts message))
              (Rejected e)]).
Proof.
  intros Hc Hr. rewrite fetchReplies_iteration, Hc. cbv zeta. now rewrite Hr.
Qed.

Lemma first_rejected_thread_is_thrown (env : Env) client channel m others e queued :
  forall replies tr,
    with_replies queued = m :: others ->
    env tr _ (conversations_replies client channel (SlackMessage.ts m)) = Rejected e ->
    exec env (CodeReviewChatDeleter.fetchReplies client channel queued replies) tr
    = (Thrown e,
       tr ++ [Call (conversations_replies client channel (SlackMessage.ts m))
                (Rejected e)]).
Proof.
  induction queued as [|x queued IH]; intros replies tr Hw Hr; [discriminate|].
  unfold with_replies in Hw. cbn [filter] in Hw.
  destruct (Js.truthy_opt_number (SlackMessage.reply_count x)) eqn:Ex.
  - inversion Hw; subst x. now apply rejected_thread_is_thrown.
  - rewrite fetchReplies_iteration, Ex. now apply IH.
Qed.

(** C8 fails on the code.  When the first thread that a pass asks for is
    rejected, the run ends there with that error: the failure is not
    logged, the pass does not go on, and nothing is deleted. *)
Theorem rejected_thread_fetch_is_fatal (env : Env) this fuel tr client channel tr1
    messages m others e :
  exec env (Chatter.getChat (CodeReviewChatDeleter.super this) fuel) tr
  = (Returned (client, channel), tr1) ->
  env tr1 _ (conversations_history client channel 20)
  = Resolved (MessagesResponse.mk true (Some messages)) ->
  filter (fun x => Js.truthy_opt_number (SlackMessage.reply_count x))
    (filter (CodeReviewChatDeleter.isMessageToDelete this) messages) = m :: others ->
  env (tr1 ++ [Call (conversations_history client channel 20)
                 (Resolved (MessagesResponse.mk true (Some messages)))]) _
    (conversations_replies client channel (SlackMessage.ts m)) = Rejected e ->
  exec env (CodeReviewChatDeleter.run this fuel) tr
  = (Thrown e,
     tr1 ++ [Call (conversations_history client channel 20)
               (Resolved (MessagesResponse.mk true (Some messages)));
             Call (conversations_replies client channel (SlackMessage.ts m))
               (Rejected e)]).
Proof.
  intros Eg Eh Hw Hr.
  rewrite (run_after_history env this fuel tr client channel tr1 messages Eg Eh).
  unfold CodeReviewChatDeleter.queueMessages. cbv zeta. rewrite exec_bind.
  rewrite (first_rejected_thread_is_thrown env client channel m others e _ [] _ Hw Hr).
  now rewrite <- app_assoc.
Qed.

Lemma rejected_thread_fetch_is_fatal_witness :
  exec (Script.env Example.script_thread_error)
    (CodeReviewChatDeleter.run Example.deleter 2) []
  = (Thrown Example.thread_not_found,
     [Call (list_call Example.bot None) (Resolved Example.page1);
      Call (list_call Example.bot (Some "page-2")) (Resolved Example.page2)]
     ++ [Call (conversations_history Example.bot "C3" 20)
           (Resolved (MessagesResponse.mk true (Some Example.history)));
         Call (conversations_replies Example.bot "C3" "20.0")
           (Rejected Example.thread_not_found)]).
Proof.
  refine (rejected_thread_fetch_is_fatal (Script.env Example.script_thread_error)
            Example.deleter 2 [] Example.bot "C3" _ Example.history
            Example.announcement [] Example.thread_not_found _ _ _ _);
    reflexivity.
Defined.

(** ** Tasks running together *)

Lemma step_moves {A} env left (p : Prog A) tr :
  settled p = false ->
  exists ev,
    moves p ev (fst (step env left p tr)) /\ snd (step env left p tr) = tr ++ [ev].
Proof.
  destruct p as [a|e| |msg k|R q k|R1 R2 q1 q2 k]; simpl; try discriminate; intros _.
  - exists (Logged msg). auto.
  - exists (Call q (env tr _ q)). eauto.
  - destruct left; simpl; eexists; split; try reflexivity; [left|right]; eauto.
Qed.

Lemma pending_spec tasks :
  forall k i,
    In i (pending tasks k) ->
    exists p, nth_error tasks (i - k) = Some p /\ settled p = false /\ k <= i.
Proof.
  induction tasks as [|p rest IH]; intros k i H; simpl in H; [destruct H|].
  destruct (settled p) eqn:Es.
  - apply IH in H. destruct H as [p' [Hn [Hs Hk]]]. exists p'.
    replace (i - k) with (S (i - S k)) by lia. auto with arith.
  - destruct H as [<-|H].
    + exists p. rewrite Nat.sub_diag. auto.
    + apply IH in H. destruct H as [p' [Hn [Hs Hk]]]. exists p'.
      replace (i - k) with (S (i - S k)) by lia. auto with arith.
Qed.

Lemma turn_spec env choice tasks tr :
  (pending tasks 0 = [] /\ turn env choice tasks tr = (tasks, tr))
  \/ exists i p p' ev,
       nth_error tasks i = Some p /\ settled p = false /\ moves p ev p'
       /\ turn env choice tasks tr = (replace_nth i p' tasks, tr ++ [ev]).
Proof.
  unfold turn. destruct (pending tasks 0) as [|i0 more] eqn:Ep; [now left|right].
  set (i := nth (fst choice mod List.length (i0 :: more)) (i0 :: more) i0).
  assert (Hi : In i (pending tasks 0)).
  { rewrite Ep. apply nth_In. apply Nat.mod_upper_bound. discriminate. }
  apply pending_spec in Hi. destruct Hi as [p [Hn [Hs _]]].
  rewrite Nat.sub_0_r in Hn. rewrite Hn.
  destruct (step_moves env (snd choice) p tr Hs) as [ev [Hm Ht]].
  destruct (step env (snd choice) p tr) as [p' tr'] eqn:Est. simpl in Hm, Ht.
  exists i, p, p', ev. subst tr'. auto.
Qed.

Lemma Merge_snoc_left {X} (a b all : list X) x :
  Merge a b all -> Merge (a ++ [x]) b (all ++ [x]).
Proof.
  induction 1; simpl; try (constructor; assumption).
  apply Merge_left, Merge_nil.
Qed.

Lemma Merge_snoc_right {X} (a b all : list X) x :
  Merge a b all -> Merge a (b ++ [x]) (all ++ [x]).
Proof.
  induction 1; simpl; try (constructor; assumption).
  apply Merge_right, Merge_nil.
Qed.

Lemma Merge_existsb {X} (f : X -> bool) a b all :
  Merge a b all -> existsb f all = existsb f a || existsb f b.
Proof.
  induction 1 as [|x a b all H IH|x a b all H IH]; simpl; [reflexivity| |];
    rewrite IH; destruct (f x), (existsb f a), (existsb f b); reflexivity.
Qed.

Lemma runs_to_snoc {A} (h : Trace) :
  forall (p p1 p2 : Prog A) ev,
    runs_to p h p1 -> moves p1 ev p2 -> runs_to p (h ++ [ev]) p2.
Proof.
  induction h as [|e h IH]; intros p p1 p2 ev Hr Hm; simpl in *.
  - subst p1. eauto.
  - destruct Hr as [p' [Hm' Hr]]. eauto.
Qed.

Lemma interleaved_refl tasks : interleaved tasks [] tasks.
Proof.
  induction tasks as [|p rest IH]; [constructor|].
  apply (interleaved_cons p [] p rest [] rest []); [reflexivity|exact IH|constructor].
Qed.

Lemma interleaved_move tasks0 new tasks :
  interleaved tasks0 new tasks ->
  forall i p ev p',
    nth_error tasks i = Some p -> moves p ev p' ->
    interleaved tasks0 (new ++ [ev]) (replace_nth i p' tasks).
Proof.
  induction 1 as [|p0 h p1 ps hs ps' all Hr Hi IH Hm]; intros i p ev p' Hn Hmv.
  - destruct i; discriminate.
  - destruct i as [|i]; simpl in *.
    + inversion Hn; subst p1.
      apply (interleaved_cons p0 (h ++ [ev]) p' ps hs ps' (all ++ [ev]));
        [eapply runs_to_snoc; eauto|exact Hi|now apply Merge_snoc_left].
    + apply (interleaved_cons p0 h p1 ps (hs ++ [ev]) (replace_nth i p' ps')
               (all ++ [ev]));
        [exact Hr|eapply IH; eauto|now apply Merge_snoc_right].
Qed.

(** Whatever the schedule, the trace of the tasks is made of the events of
    each task, in the order of that task. *)
Lemma run_tasks_interleaved env sched :
  forall tasks0 tr0 new0 tasks,
    interleaved tasks0 new0 tasks ->
    exists new,
      snd (run_tasks env sched tasks (tr0 ++ new0)) = tr0 ++ new
      /\ interleaved tasks0 new (fst (run_tasks env sched tasks (tr0 ++ new0))).
Proof.
  induction sched as [|choice sched IH]; intros tasks0 tr0 new0 tasks Hi; simpl.
  - eauto.
  - destruct (turn_spec env choice tasks (tr0 ++ new0))
      as [[_ E]|[i [p [p' [ev [Hn [_ [Hm E]]]]]]]]; rewrite E.
    + apply IH, Hi.
    + rewrite <- app_assoc. apply IH. eapply interleaved_move; eauto.
Qed.

Lemma run_tasks_spec env sched tasks tr tasks' new :
  run_tasks env sched tasks tr = (tasks', tr ++ new) ->
  interleaved tasks new tasks'.
Proof.
  intros E.
  destruct (run_tasks_interleaved env sched tasks tr [] tasks (interleaved_refl tasks))
    as [new' [Ht Hi]].
  rewrite app_nil_r, E in Ht, Hi. simpl in Ht, Hi.
  apply app_inv_head in Ht. now subst.
Qed.

(** ** Tasks come to an end *)













(** ** The tasks of the publisher, one at a time *)

Lemma moves_calls_only P {A} (p p' : Prog A) ev :
  calls_only P p -> moves p ev p' -> call_satisfies P ev /\ calls_only P p'.
Proof.
  destruct p as [a|e| |msg k|R q k|R1 R2 q1 q2 k]; simpl; try easy.
  - intros H [-> ->]. split; [exact I|exact H].
  - intros [Hq Hk] [r [-> ->]]. split; [exact Hq|apply Hk].
  - intros [Hq1 [Hq2 Hk]] [[r [-> ->]]|[r [-> ->]]]; simpl; auto.
Qed.

Lemma runs_calls_only P {A} (h : Trace) :
  forall (p p' : Prog A),
    calls_only P p -> runs_to p h p' -> Forall (call_satisfies P) h.
Proof.
  induction h as [|ev h IH]; intros p p' Hp Hr; [constructor|].
  destruct Hr as [p1 [Hm Hr]].
  destruct (moves_calls_only P p p1 ev Hp Hm) as [Hev Hp1].
  constructor; [exact Hev|]. exact (IH _ _ Hp1 Hr).
Qed.

Lemma settled_runs {A} (p p' : Prog A) h :
  settled p = true -> runs_to p h p' -> h = [] /\ p' = p.
Proof.
  intros Hs Hr. destruct h as [|ev h]; [auto|].
  destruct Hr as [p1 [Hm _]]. destruct p; simpl in *; easy.
Qed.



Lemma milestoneTask_calls data :
  calls_only from_milestoneTask (CodeReviewChat.milestoneTask data).
Proof.
  unfold CodeReviewChat.milestoneTask.
  apply calls_only_bind; [apply calls_only_await; exact I|].
  intros [m|]; destruct (Issue.milestone data); try exact I.
  apply calls_only_await. exact I.
Qed.

Lemma postMessage_calls (P : forall R, Req R -> Prop) this fuel message blocks :
  (forall web cursor, P _ (list_call web cursor)) ->
  (forall web channel, P _ (chat_postMessage web message channel blocks true)) ->
  calls_only P (CodeReviewChat.postMessage this fuel message blocks).
Proof.
  intros Hl Hp. unfold CodeReviewChat.postMessage.
  apply calls_only_bind; [apply getChat_calls; intros; apply Hl|].
  intros [client channel]. apply calls_only_await, Hp.
Qed.

Lemma reviewTask_calls (P : forall R, Req R -> Prop) toLocaleString this fuel author :
  (forall owner repo number, P _ (pulls_listReviews owner repo number)) ->
  (forall owner repo number, P _ (pulls_listReviewRequests owner repo number)) ->
  (forall web cursor, P _ (list_call web cursor)) ->
  (forall web message channel,
     P _ (chat_postMessage web message channel
            (Some (CodeReviewChat.blocks toLocaleString this)) true)) ->
  calls_only P (CodeReviewChat.reviewTask toLocaleString this fuel author).
Proof.
  intros Hr Hq Hl Hp. unfold CodeReviewChat.reviewTask, await_all2. cbv zeta.
  cbn [bind calls_only]. split; [apply Hr|]. split; [apply Hq|].
  intros [[reviews requests]|e]; cbn [settle bind]; [|exact I].
  destruct (CodeReviewChat.hasExisting reviews requests author); [exact I|].
  apply calls_only_bind; [exact I|]. intros _.
  apply postMessage_calls; intros; auto.
Qed.








Lemma interleaved_cons_inv p ps all tasks' :
  interleaved (p :: ps) all tasks' ->
  exists h p' hs ps',
    tasks' = p' :: ps' /\ runs_to p h p' /\ interleaved ps hs ps' /\ Merge h hs all.
Proof. intros H. inversion H; subst. eauto 10. Qed.

Lemma interleaved_nil_inv all tasks' :
  interleaved [] all tasks' -> all = [] /\ tasks' = [].
Proof. intros H. inversion H; subst. auto. Qed.

Lemma Merge_nil_inv {X} (a all : list X) : Merge a [] all -> all = a.
Proof.
  intros H. remember [] as b eqn:Eb. induction H; subst; try discriminate; auto.
  f_equal. auto.
Qed.


(** ** The tasks of the publisher come to an end *)





(** ** The publisher *)

Lemma run_starts_tasks (env : Env) toLocaleString this fuel tr data :
  PR.draft (CodeReviewChat.pr this) = false ->
  env tr _ issue_getIssue = Resolved data ->
  env (tr ++ [Call issue_getIssue (Resolved data)]) _
    (issue_hasWriteAccess (Issue.author data)) = Resolved true ->
  exec env (CodeReviewChat.run toLocaleString this fuel) tr
  = (Returned
       ((if Js.truthy_opt_string (Issue.assignee data) then []
         else [CodeReviewChat.assignTask (Issue.author data)])
        ++ [CodeReviewChat.milestoneTask data;
            CodeReviewChat.reviewTask toLocaleString this fuel (Issue.author data)]),
     tr ++ [Call issue_getIssue (Resolved data);
            Call (issue_hasWriteAccess (Issue.author data)) (Resolved true)]).
Proof.
  intros Hd Hi Hw. unfold CodeReviewChat.run. rewrite Hd.
  rewrite exec_bind, exec_await, Hi. cbv zeta.
  rewrite exec_bind, exec_await, Hw. cbv zeta.
  destruct (Js.truthy_opt_string (Issue.assignee data)); cbn [negb app exec];
    f_equal; now rewrite <- app_assoc.
Qed.




(** ** The announcement *)

Lemma replace_unfold p r s :
  Js.replace p r s =
  if Js.startsWith p s then (r ++ Js.skip (String.length p) s)%string
  else match s with
       | EmptyString => EmptyString
       | String c s' => String c (Js.replace p r s')
       end.
Proof. destruct s; reflexivity. Qed.

Lemma skip_prefix p rest : Js.skip (String.length p) (p ++ rest) = rest.
Proof. induction p as [|a p IH]; [now destruct rest|exact IH]. Qed.

(** A pattern at the head is replaced there. *)
Lemma replace_prefix p r rest :
  Js.replace p r (p ++ rest) = (r ++ rest)%string.
Proof.
  rewrite replace_unfold.
  assert (E : Js.startsWith p (p ++ rest) = true) by (apply startsWith_spec; eauto).
  now rewrite E, skip_prefix.
Qed.

(** Without the pattern, nothing is replaced. *)
Lemma replace_absent p r s : Js.includes s p = false -> Js.replace p r s = s.
Proof.
  unfold Js.includes. induction s as [|c s IH]; rewrite indexOf_unfold, replace_unfold.
  - destruct (Js.startsWith p EmptyString); [discriminate|reflexivity].
  - destruct (Js.startsWith p (String c s)); [discriminate|].
    destruct (Js.indexOf p s); [discriminate|]. intros _. now rewrite IH.
Qed.

(** The first occurrence of the pattern is the one replaced. *)
Lemma replace_first p r post :
  forall pre,
    Js.indexOf p (pre ++ p ++ post) = Some (String.length pre) ->
    Js.replace p r (pre ++ p ++ post) = (pre ++ r ++ post)%string.
Proof.
  induction pre as [|c pre IH]; intros Hi.
  - exact (replace_prefix p r post).
  - change (String c pre ++ p ++ post)%string
      with (String c (pre ++ p ++ post)) in *.
    rewrite indexOf_unfold in Hi. rewrite replace_unfold.
    destruct (Js.startsWith p (String c (pre ++ p ++ post))); [discriminate|].
    destruct (Js.indexOf p (pre ++ p ++ post)) as [n|] eqn:En; [|discriminate].
    simpl in Hi. inversion Hi; subst n. simpl. now rewrite IH.
Qed.

Lemma Merge_Forall {X} (P : X -> Prop) a b all :
  Merge a b all -> Forall P a -> Forall P b -> Forall P all.
Proof.
  induction 1 as [|x a b all H IH|x a b all H IH]; intros Ha Hb; [constructor| |].
  - inversion Ha; subst. constructor; auto.
  - inversion Hb; subst. constructor; auto.
Qed.

Lemma interleaved_calls_only P tasks new tasks' :
  interleaved tasks new tasks' ->
  Forall (calls_only P) tasks -> Forall (call_satisfies P) new.
Proof.
  induction 1 as [|p h p' ps hs ps' all Hr Hi IH Hm]; intros Hp; [constructor|].
  inversion Hp; subst.
  eapply Merge_Forall; [exact Hm| |auto].
  eapply runs_calls_only; eauto.
Qed.

(** Whatever [run] starts posts nothing but the blocks it composes. *)
Lemma run_starts_posting_blocks env toLocaleString this fuel tr tasks tr1 :
  exec env (CodeReviewChat.run toLocaleString this fuel) tr = (Returned tasks, tr1) ->
  Forall (calls_only (posts_only (CodeReviewChat.blocks toLocaleString this))) tasks.
Proof.
  unfold CodeReviewChat.run.
  destruct (PR.draft (CodeReviewChat.pr this)).
  - simpl. intros E. inversion E. constructor.
  - rewrite exec_bind, exec_await.
    destruct (env tr _ issue_getIssue) as [data|e]; [|discriminate].
    cbv zeta. rewrite exec_bind, exec_await.
    destruct (env _ _ (issue_hasWriteAccess (Issue.author data))) as [[|]|e];
      [| |discriminate]; cbn [negb].
    + intros E.
      assert (Ht : tasks
                   = (if negb (Js.truthy_opt_string (Issue.assignee data))
                      then [] ++ [CodeReviewChat.assignTask (Issue.author data)]
                      else [])
                     ++ [CodeReviewChat.milestoneTask data]
                     ++ [CodeReviewChat.reviewTask toLocaleString this fuel
                           (Issue.author data)]).
      { simpl in E. inversion E. now rewrite <- app_assoc. }
      subst tasks. apply Forall_app. split.
      * destruct (negb _); repeat constructor. intros [v|e]; exact I.
      * constructor.
        -- unfold CodeReviewChat.milestoneTask.
           apply calls_only_bind; [apply calls_only_await; exact I|].
           intros [m|]; destruct (Issue.milestone data); try exact I.
           apply calls_only_await. exact I.
        -- constructor; [|constructor].
           apply reviewTask_calls; intros; try exact I. reflexivity.
    + simpl. intros E. inversion E. constructor.
Qed.

Lemma posted_only_blocks blocks ev :
  call_satisfies (posts_only blocks) ev -> posts ev = true ->
  posted_blocks ev = Some (Some blocks).
Proof.
  destruct ev as [R q r|msg]; [|discriminate].
  destruct q; simpl; try discriminate. now intros ->.
Qed.

Lemma run_posts_nothing_itself toLocaleString this fuel blocks :
  calls_only (posts_only blocks) (CodeReviewChat.run toLocaleString this fuel).
Proof.
  unfold CodeReviewChat.run. destruct (PR.draft (CodeReviewChat.pr this)).
  - apply calls_only_bind; [exact I|intros; exact I].
  - apply calls_only_bind; [apply calls_only_await; exact I|]. intros data. cbv zeta.
    apply calls_only_bind; [apply calls_only_await; exact I|]. intros [|]; cbn [negb].
    + exact I.
    + apply calls_only_bind; [exact I|intros; exact I].
Qed.

(** C9, as the code has it.  Every message posted in a run of the publisher
    carries a header and two buttons.  The second button links to the PR's
    URL.  The first links to that URL with its first [https://] replaced
    by [https://insiders.vscode.dev/]: for a URL that starts with
    [https://] this puts the editor's host right after the scheme and keeps
    all the rest, the original host included; a URL that has no [https://]
    is used as it is. *)
Theorem announcement_buttons env toLocaleString this fuel sched tr tasks before tasks'
    new :
  exec env (CodeReviewChat.run toLocaleString this fuel) tr
  = (Returned tasks, tr ++ before) ->
  run_tasks env sched tasks (tr ++ before) = (tasks', (tr ++ before) ++ new) ->
  forall ev,
    In ev (before ++ new) -> posts ev = true ->
    exists header first second,
      posted_blocks ev = Some (Some [SectionBlock header; ActionsBlock [first; second]])
      /\ Button.url second = PR.url (CodeReviewChat.pr this)
      /\ (forall rest,
            PR.url (CodeReviewChat.pr this) = ("https://" ++ rest)%string ->
            Button.url first = ("https://insiders.vscode.dev/" ++ rest)%string)
      /\ (forall pre post,
            PR.url (CodeReviewChat.pr this) = (pre ++ "https://" ++ post)%string ->
            Js.indexOf "https://" (PR.url (CodeReviewChat.pr this))
            = Some (String.length pre) ->
            Button.url first = (pre ++ "https://insiders.vscode.dev/" ++ post)%string)
      /\ (Js.includes (PR.url (CodeReviewChat.pr this)) "https://" = false ->
          Button.url first = PR.url (CodeReviewChat.pr this)).
Proof.
  intros E Er ev Hin Hp.
  assert (Hall : Forall (call_satisfies
                           (posts_only (CodeReviewChat.blocks toLocaleString this)))
                   (before ++ new)).
  { apply Forall_app. split.
    - exact (exec_calls_only _ env _ (run_posts_nothing_itself _ _ _ _) _ _ _ E).
    - apply run_starts_posting_blocks in E. apply run_tasks_spec in Er.
      exact (interleaved_calls_only _ _ _ _ Er E). }
  rewrite Forall_forall in Hall. specialize (Hall ev Hin).
  apply posted_only_blocks in Hall; [|exact Hp].
  unfold CodeReviewChat.blocks in Hall.
  eexists. eexists. eexists. split; [exact Hall|].
  cbn [Button.url]. unfold CodeReviewChat.githubUrl, CodeReviewChat.vscodeDevUrl.
  split; [reflexivity|]. split; [|split].
  - intros rest ->. apply replace_prefix.
  - intros pre post Hu Hi. rewrite Hu in *. now apply replace_first.
  - apply replace_absent.
Qed.

Lemma announcement_buttons_witness :
  let env := Script.env Example.script_unreviewed in
  let post :=
    Call (chat_postMessage Example.bot "New Pull Request from alice" "C3"
            (Some (CodeReviewChat.blocks Example.toLocaleString Example.publisher)) true)
      (Resolved tt) in
  exists tasks before tasks' new first second,
    exec env (CodeReviewChat.run Example.toLocaleString Example.publisher 2) []
    = (Returned tasks, [] ++ before)
    /\ run_tasks env Example.in_turn tasks ([] ++ before)
       = (tasks', ([] ++ before) ++ new)
    /\ In post (before ++ new)
    /\ posts post = true
    /\ (exists header,
          posted_blocks post
          = Some (Some [SectionBlock header; ActionsBlock [first; second]]))
    /\ Button.url second = "https://github.com/o/r/pull/7"%string
    /\ Button.url first = "https://insiders.vscode.dev/github.com/o/r/pull/7"%string.
Proof.
  cbv zeta.
  eexists. eexists. eexists. eexists.
  match goal with |- exists first second, ?E1 /\ ?E2 /\ ?I /\ _ =>
    assert (H1 : E1) by (vm_compute; reflexivity);
    assert (H2 : E2) by (vm_compute; reflexivity);
    assert (H3 : I) by (vm_compute; tauto)
  end.
  destruct (announcement_buttons _ _ _ _ _ _ _ _ _ _ H1 H2 _ H3 eq_refl)
    as [header [first [second [Hb [Hsecond [Hfirst _]]]]]].
  exists first, second.
  split; [exact H1|]. split; [exact H2|]. split; [exact H3|].
  split; [reflexivity|]. split; [eauto|]. split; [exact Hsecond|].
  exact (Hfirst "github.com/o/r/pull/7"%string eq_refl).
Defined.

(** C9 as stated fails: for a PR whose URL does not use [https://], the
    first button of the posted message links to the PR's URL itself, and
    the editor's host is nowhere in it. *)
Lemma plain_http_url_is_kept :
  let env := Script.env Example.script_unreviewed in
  exists tasks before tasks' new ev header first second,
    exec env (CodeReviewChat.run Example.toLocaleString Example.plain_publisher 2) []
    = (Returned tasks, [] ++ before)
    /\ run_tasks env Example.in_turn tasks ([] ++ before)
       = (tasks', ([] ++ before) ++ new)
    /\ In ev (before ++ new)
    /\ posted_blocks ev = Some (Some [SectionBlock header; ActionsBlock [first; second]])
    /\ Button.url first = PR.url (CodeReviewChat.pr Example.plain_publisher)
    /\ Button.url first = "http://ghe.example/o/r/pull/7"%string
    /\ Js.includes (Button.url first) "insiders.vscode.dev" = false.
Proof.
  cbv zeta.
  eexists. eexists. eexists. eexists.
  exists (Call (chat_postMessage Example.bot "New Pull Request from alice" "C3"
                  (Some (CodeReviewChat.blocks Example.toLocaleString
                           Example.plain_publisher)) true)
            (Resolved tt)).
  eexists. eexists. eexists.
  split; [vm_compute; reflexivity|].
  split; [vm_compute; reflexivity|].
  split; [vm_compute; tauto|].
  split; [reflexivity|].
  split; [reflexivity|]. split; reflexivity.
Qed.

(** ** The diff summary *)

Lemma append_assoc (a b c : string) : ((a ++ b) ++ c = a ++ b ++ c)%string.
Proof. induction a as [|x a IH]; simpl; [reflexivity|now rewrite IH]. Qed.

Lemma append_empty (a : string) : (a ++ EmptyString)%string = a.
Proof. induction a as [|x a IH]; simpl; [reflexivity|now rewrite IH]. Qed.

(** C10.  The summary says ["<n> file"] for one changed file or fewer, so
    ["0 file"] for none, and ["<n> files"] only for more than one; it is
    the end of the diff summary that the header of the message quotes. *)
Theorem changed_files_word toLocaleString this :
  let n := PR.changed_files (CodeReviewChat.pr this) in
  ((n <= 1)%Z ->
   CodeReviewChat.changedFilesMessage this = (Js.number_to_string n ++ " file")%string)
  /\ ((1 < n)%Z ->
      CodeReviewChat.changedFilesMessage this
      = (Js.number_to_string n ++ " files")%string)
  /\ (n = 0%Z -> CodeReviewChat.changedFilesMessage this = "0 file"%string)
  /\ CodeReviewChat.diffMessage toLocaleString this
     = ("+" ++ toLocaleString (PR.additions (CodeReviewChat.pr this))
        ++ " -" ++ toLocaleString (PR.deletions (CodeReviewChat.pr this))
        ++ ", " ++ CodeReviewChat.changedFilesMessage this)%string
  /\ exists buttons,
       CodeReviewChat.blocks toLocaleString this
       = [SectionBlock
            {| TextObject.type := "mrkdwn";
               TextObject.emoji := None;
               TextObject.text :=
                 (CodeReviewChat.cleanTitle this ++ " by "
                  ++ PR.owner (CodeReviewChat.pr this)
                  ++ CodeReviewChat.repoMessage this
                  ++ ": `" ++ CodeReviewChat.diffMessage toLocaleString this
                  ++ "`")%string |};
          buttons].
Proof.
  intros n. unfold CodeReviewChat.changedFilesMessage. fold n.
  split; [|split; [|split; [|split]]].
  - intros H. destruct (Z.gtb_spec n 1) as [Hgt|Hle]; [lia|]. apply append_empty.
  - intros H. destruct (Z.gtb_spec n 1) as [Hgt|Hle]; [|lia]. apply append_assoc.
  - intros ->. reflexivity.
  - reflexivity.
  - eexists. reflexivity.
Qed.

Lemma changed_files_word_witness :
  let this := Example.publisher in
  (PR.changed_files (CodeReviewChat.pr this) <= 1)%Z
  /\ CodeReviewChat.changedFilesMessage this = "1 file"%string
  /\ CodeReviewChat.diffMessage Example.toLocaleString this = "+5 -0, 1 file"%string.
Proof.
  cbv zeta.
  assert (H : (PR.changed_files (CodeReviewChat.pr Example.publisher) <= 1)%Z)
    by (vm_compute; discriminate).
  split; [exact H|].
  split; [|reflexivity].
  exact (proj1 (changed_files_word Example.toLocaleString Example.publisher) H).
Defined.

(** * Further properties *)

(** ** The listing, whatever the service answers *)

Lemma listed_app a b : listed (a ++ b) = listed a ++ listed b.
Proof. apply flat_map_app. Qed.

Lemma listed_page_events web pages :
  forall cursor, listed (page_events web cursor pages) = pages.
Proof.
  induction pages as [|page rest IH]; intros cursor; [reflexivity|].
  cbn [page_events]. change (listed (?ev :: ?l)) with (listed [ev] ++ listed l).
  rewrite IH. reflexivity.
Qed.

(** The loop, from any state: the pages it fetches all name a next cursor,
    until one does not, or one cannot be fetched, or the fuel is out. *)
Lemma pages_outcomes env web fuel :
  forall groups channels tr,
    exists pages,
      forallb names_next pages = true
      /\ List.length pages <= fuel
      /\ ((exists final,
             names_next final = false
             /\ exec env (listAllMemberships_pages fuel web groups channels) tr
                = (Returned (channels
                             ++ flat_map ConversationsList.channels (pages ++ [final])),
                   tr ++ page_events web (ConversationsList.next_cursor groups)
                           (pages ++ [final])))
          \/ (exists err,
                exec env (listAllMemberships_pages fuel web groups channels) tr
                = (Returned (channels ++ flat_map ConversationsList.channels pages),
                   tr ++ page_events web (ConversationsList.next_cursor groups) pages
                      ++ [Call (list_call web
                                  (cursor_after (ConversationsList.next_cursor groups)
                                     pages))
                            (Rejected err);
                          Logged ("Error listing channels: "
                                  ++ Js.error_to_string err)]))
          \/ (List.length pages = fuel
              /\ exec env (listAllMemberships_pages fuel web groups channels) tr
                 = (Unfinished,
                    tr ++ page_events web (ConversationsList.next_cursor groups) pages))).
Proof.
  induction fuel as [|fuel IH]; intros groups channels tr.
  - exists []. split; [reflexivity|]. split; [simpl; lia|]. right; right.
    split; [reflexivity|]. simpl. now rewrite app_nil_r.
  - destruct (env tr _ (list_call web (ConversationsList.next_cursor groups)))
      as [g|err] eqn:Eg.
    + destruct (names_next g) eqn:En.
      * destruct (IH (Some g) (channels ++ ConversationsList.channels g)
                    (tr ++ [Call (list_call web (ConversationsList.next_cursor groups))
                              (Resolved g)]))
          as [pages [Hn [Hl H]]].
        exists (g :: pages). split; [simpl; now rewrite En|].
        split; [simpl; lia|].
        unfold names_next in En.
        destruct H as [[final [Hf E]]|[[err E]|[Hlen E]]].
        -- left. exists final. split; [exact Hf|].
           rewrite pages_iteration, Eg. cbv zeta. rewrite En, E.
           cbn [app flat_map page_events]. now rewrite <- !app_assoc.
        -- right; left. exists err.
           rewrite pages_iteration, Eg. cbv zeta. rewrite En, E.
           cbn [app flat_map page_events cursor_after]. now rewrite <- !app_assoc.
        -- right; right. split; [simpl; lia|].
           rewrite pages_iteration, Eg. cbv zeta. rewrite En, E.
           cbn [app flat_map page_events]. now rewrite <- !app_assoc.
      * exists []. split; [reflexivity|]. split; [simpl; lia|].
        left. exists g. split; [exact En|].
        rewrite pages_iteration, Eg. cbv zeta. unfold names_next in En. rewrite En.
        cbn [app flat_map page_events]. now rewrite !app_nil_r.
    + exists []. split; [reflexivity|]. split; [simpl; lia|].
      right; left. exists err. rewrite pages_iteration, Eg.
      cbn [app flat_map page_events cursor_after]. now rewrite app_nil_r.
Qed.

(** X1.  Whatever the service answers, [listAllMemberships] does not throw.
    It asks for the first page without a cursor and for each further page
    with the cursor the page before named, and it ends in one of three
    ways: a page names no next cursor, and the member channels of all the
    pages fetched are returned; or a page cannot be fetched, which is asked
    once and logged, and the member channels of the pages fetched before
    are returned; or every page names a next one for as long as the fuel
    lasts. *)
Theorem listAllMemberships_ends_in_three_ways env fuel web tr :
  exists pages,
    forallb names_next pages = true
    /\ List.length pages <= fuel
    /\ ((exists final,
           names_next final = false
           /\ exec env (listAllMemberships fuel web) tr
              = (Returned (filter Channel.is_member
                             (flat_map ConversationsList.channels (pages ++ [final]))),
                 tr ++ page_events web None (pages ++ [final])))
        \/ (exists err,
              exec env (listAllMemberships fuel web) tr
              = (Returned (filter Channel.is_member
                             (flat_map ConversationsList.channels pages)),
                 tr ++ page_events web None pages
                    ++ [Call (list_call web (cursor_after None pages)) (Rejected err);
                        Logged ("Error listing channels: " ++ Js.error_to_string err)]))
        \/ (List.length pages = fuel
            /\ exec env (listAllMemberships fuel web) tr
               = (Unfinished, tr ++ page_events web None pages))).
Proof.
  destruct (pages_outcomes env web fuel None [] tr) as [pages [Hn [Hl H]]].
  exists pages. split; [exact Hn|]. split; [exact Hl|].
  unfold listAllMemberships. rewrite exec_bind.
  destruct H as [[final [Hf E]]|[[err E]|[Hlen E]]]; rewrite E.
  - left. exists final. split; [exact Hf|reflexivity].
  - right; left. exists err. reflexivity.
  - right; right. split; [exact Hlen|reflexivity].
Qed.

(** X2.  The loop has no cap on the number of pages: against a service
    whose every page names a next cursor it asks for one more page for as
    long as it is given fuel, and never returns. *)
Theorem listAllMemberships_has_no_page_cap (env : Env) web :
  (forall h cursor,
     exists page,
       env h _ (list_call web cursor) = Resolved page /\ names_next page = true) ->
  forall fuel tr,
    exists pages,
      List.length pages = fuel
      /\ exec env (listAllMemberships fuel web) tr
         = (Unfinished, tr ++ page_events web None pages).
Proof.
  intros Hserve fuel tr.
  assert (H : forall fuel groups channels tr,
             exists pages,
               List.length pages = fuel
               /\ exec env (listAllMemberships_pages fuel web groups channels) tr
                  = (Unfinished,
                     tr ++ page_events web (ConversationsList.next_cursor groups) pages)).
  { clear fuel tr. induction fuel as [|fuel IH]; intros groups channels tr.
    - exists []. split; [reflexivity|]. simpl. now rewrite app_nil_r.
    - destruct (Hserve tr (ConversationsList.next_cursor groups)) as [page [Ep Hn]].
      destruct (IH (Some page) (channels ++ ConversationsList.channels page)
                  (tr ++ [Call (list_call web (ConversationsList.next_cursor groups))
                            (Resolved page)]))
        as [pages [Hl E]].
      exists (page :: pages). split; [simpl; now rewrite Hl|].
      rewrite pages_iteration, Ep. cbv zeta. unfold names_next in Hn. rewrite Hn, E.
      cbn [page_events]. now rewrite <- app_assoc. }
  destruct (H fuel None [] tr) as [pages [Hl E]].
  exists pages. split; [exact Hl|].
  unfold listAllMemberships. now rewrite exec_bind, E.
Qed.

Lemma listAllMemberships_has_no_page_cap_witness :
  exists pages,
    List.length pages = 3
    /\ exec (Script.env Scenario.endless) (listAllMemberships 3 Example.bot) []
       = (Unfinished, [] ++ page_events Example.bot None pages).
Proof.
  apply (listAllMemberships_has_no_page_cap (Script.env Scenario.endless) Example.bot).
  intros h cursor. exists Example.page1. split; reflexivity.
Defined.

(** ** The channel of [getChat], whatever the service answers *)

Lemma find_first {X} (f : X -> bool) l x :
  find f l = Some x ->
  exists before after,
    l = before ++ x :: after /\ f x = true /\ forall y, In y before -> f y = false.
Proof.
  induction l as [|a l IH]; [discriminate|]. simpl.
  destruct (f a) eqn:Ea.
  - intros E. inversion E; subst a. exists [], l. repeat split; auto.
    intros y [].
  - intros E. destruct (IH E) as [before [after [-> [Hx Hb]]]].
    exists (a :: before), after. repeat split; auto.
    intros y [<-|Hy]; auto.
Qed.

Lemma codereviewChannel_some this members c :
  Chatter.codereviewChannel this members = Some c ->
  Chatter.notificationChannel this <> EmptyString
  /\ exists before after,
       members = before ++ c :: after
       /\ Channel.name c = Chatter.notificationChannel this
       /\ forall b, In b before -> Channel.name b <> Chatter.notificationChannel this.
Proof.
  unfold Chatter.codereviewChannel.
  destruct (Chatter.notificationChannel this) as [|a name] eqn:En; [discriminate|].
  cbn [Js.truthy_string]. intros E. split; [discriminate|].
  destruct (find_first _ _ _ E) as [before [after [-> [Hc Hb]]]].
  exists before, after. split; [reflexivity|].
  split; [now apply String.eqb_eq|].
  intros b Hin. apply String.eqb_neq. now apply Hb.
Qed.

Lemma getChat_outcomes env this fuel tr out new :
  exec env (Chatter.getChat this fuel) tr = (out, tr ++ new) ->
  Forall (call_satisfies (lists_channels (WebClient.mk (Chatter.slackToken this)))) new
  /\ match out with
     | Returned (client, channel) =>
         client = WebClient.mk (Chatter.slackToken this)
         /\ exists c,
              Chatter.codereviewChannel this (member_channels (listed new)) = Some c
              /\ channel = Channel.id c
     | Thrown e =>
         e = Js.mkError ("Slack channel not found: " ++ Chatter.notificationChannel this)
         /\ Chatter.codereviewChannel this (member_channels (listed new)) = None
     | Unfinished =>
         List.length (listed new) = fuel /\ forallb names_next (listed new) = true
     end.
Proof.
  intros E. split.
  - apply (exec_calls_only _ env (Chatter.getChat this fuel)) with (tr := tr) (out := out);
      [|exact E].
    apply getChat_calls. intros cursor. simpl. auto.
  - unfold Chatter.getChat, listAllMemberships in E. rewrite !exec_bind in E.
    destruct (pages_outcomes env (WebClient.mk (Chatter.slackToken this)) fuel None [] tr)
      as [pages [Hn [Hl [[final [Hf Ep]]|[[err Ep]|[Hlen Ep]]]]]];
      rewrite Ep in E; cbn [exec app] in E.
    + fold (member_channels (pages ++ [final])) in E.
      destruct (Chatter.codereviewChannel this (member_channels (pages ++ [final])))
        as [c|] eqn:Ec; inversion E as [[Ho Ht]]; apply app_inv_head in Ht; subst new;
        rewrite listed_page_events, Ec; eauto.
    + fold (member_channels pages) in E.
      assert (Hlisted : forall l,
                 l = page_events (WebClient.mk (Chatter.slackToken this)) None pages
                     ++ [Call (list_call (WebClient.mk (Chatter.slackToken this))
                                 (cursor_after None pages)) (Rejected err);
                         Logged ("Error listing channels: " ++ Js.error_to_string err)] ->
                 listed l = pages).
      { intros l ->. rewrite listed_app, listed_page_events. apply app_nil_r. }
      destruct (Chatter.codereviewChannel this (member_channels pages))
        as [c|] eqn:Ec; inversion E as [[Ho Ht]]; apply app_inv_head in Ht;
        symmetry in Ht; rewrite (Hlisted _ Ht), Ec; eauto.
    + inversion E as [[Ho Ht]]. apply app_inv_head in Ht. subst new.
      rewrite listed_page_events. auto.
Qed.

(** X3.  Whatever the service answers, [getChat] asks for nothing but
    pages of channels, with the client built from the Slack token, and what
    it gives is read off the pages that were fetched: it returns that
    client and the id of the first member channel of those pages that bears
    the configured name, which is not empty; it throws only "Slack channel
    not found", and only when the configured name is empty or no member
    channel of those pages bears it. *)
Theorem getChat_reads_the_channel_off_the_listing env this fuel tr out new :
  exec env (Chatter.getChat this fuel) tr = (out, tr ++ new) ->
  let web := WebClient.mk (Chatter.slackToken this) in
  let members :=
    filter Channel.is_member (flat_map ConversationsList.channels (listed new)) in
  Forall (call_satisfies (lists_channels web)) new
  /\ (forall client channel,
        out = Returned (client, channel) ->
        client = web
        /\ Chatter.notificationChannel this <> EmptyString
        /\ exists before c after,
             members = before ++ c :: after
             /\ (forall b, In b before ->
                           Channel.name b <> Chatter.notificationChannel this)
             /\ Channel.name c = Chatter.notificationChannel this
             /\ Channel.is_member c = true
             /\ channel = Channel.id c)
  /\ (forall e,
        out = Thrown e ->
        e = Js.mkError ("Slack channel not found: " ++ Chatter.notificationChannel this)
        /\ (Chatter.notificationChannel this = EmptyString
            \/ forall c, In c members ->
                         Channel.name c <> Chatter.notificationChannel this)).
Proof.
  intros E web members.
  destruct (getChat_outcomes env this fuel tr out new E) as [Hcalls Hout].
  split; [exact Hcalls|]. split.
  - intros client channel ->. destruct Hout as [-> [c [Hc ->]]].
    split; [reflexivity|].
    destruct (codereviewChannel_some _ _ _ Hc) as [Hne [before [after [Hm [Hname Hb]]]]].
    split; [exact Hne|]. exists before, c, after.
    split; [exact Hm|]. split; [exact Hb|]. split; [exact Hname|].
    split; [|reflexivity].
    assert (Hin : In c (member_channels (listed new)))
      by (rewrite Hm; apply in_or_app; right; left; reflexivity).
    unfold member_channels in Hin. apply filter_In in Hin. tauto.
  - intros e ->. destruct Hout as [-> Hc]. split; [reflexivity|].
    now apply codereviewChannel_none.
Qed.

Lemma getChat_reads_the_channel_off_the_listing_witness :
  let this := Chatter.mk "xoxb" "codereview" in
  let new :=
    [Call (list_call Example.bot None) (Resolved Example.page1);
     Call (list_call Example.bot (Some "page-2")) (Resolved Example.page2)] in
  exec (Script.env Example.script) (Chatter.getChat this 2) []
  = (Returned (Example.bot, "C3"), [] ++ new)
  /\ Forall (call_satisfies (lists_channels Example.bot)) new
  /\ exists before c after,
       filter Channel.is_member (flat_map ConversationsList.channels (listed new))
       = before ++ c :: after
       /\ Channel.name c = "codereview"
       /\ "C3" = Channel.id c.
Proof.
  cbv zeta.
  assert (E : exec (Script.env Example.script)
                (Chatter.getChat (Chatter.mk "xoxb" "codereview") 2) []
              = (Returned (Example.bot, "C3"),
                 [] ++ [Call (list_call Example.bot None) (Resolved Example.page1);
                        Call (list_call Example.bot (Some "page-2"))
                          (Resolved Example.page2)]))
    by reflexivity.
  destruct (getChat_reads_the_channel_off_the_listing _ _ _ _ _ _ E)
    as [Hcalls [Hret _]].
  split; [exact E|]. split; [exact Hcalls|].
  destruct (Hret _ _ eq_refl) as [_ [_ [before [c [after [Hm [_ [Hname [_ Hid]]]]]]]]].
  exists before, c, after. auto.
Defined.

(** ** The URL test of the reconciler *)

Lemma includes_empty s : Js.includes s EmptyString = true.
Proof. unfold Js.includes. now rewrite indexOf_unfold. Qed.

(** X4.  The URL test has no guard for an empty URL: every string contains
    the empty string, so a reconciler built with an empty PR URL queues
    every message of the history it reads. *)
Theorem empty_url_queues_every_message this messages :
  CodeReviewChatDeleter.prUrl this = EmptyString ->
  filter (CodeReviewChatDeleter.isMessageToDelete this) messages = messages.
Proof.
  intros Hu. induction messages as [|m messages IH]; [reflexivity|].
  cbn [filter]. rewrite IH.
  rewrite (url_match_is_queued this m); [reflexivity|].
  rewrite Hu. apply includes_empty.
Qed.

Lemma empty_url_queues_every_message_witness :
  CodeReviewChatDeleter.prUrl Scenario.deleter_without_url = EmptyString
  /\ filter (CodeReviewChatDeleter.isMessageToDelete Scenario.deleter_without_url)
       Example.history
     = Example.history.
Proof.
  assert (H : CodeReviewChatDeleter.prUrl Scenario.deleter_without_url = EmptyString)
    by reflexivity.
  exact (conj H (empty_url_queues_every_message _ Example.history H)).
Defined.

(** X5.  The URL test looks for the URL anywhere in the text and does not
    look at what follows it: a message that mentions a longer URL which
    starts with the PR's URL (that of pull 71, for pull 7) is queued as
    well. *)
Theorem longer_url_is_queued_too this message suffix :
  Js.includes (SlackMessage.text message)
    (CodeReviewChatDeleter.prUrl this ++ suffix) = true ->
  CodeReviewChatDeleter.isMessageToDelete this message = true.
Proof.
  intros H. apply url_match_is_queued.
  apply includes_spec in H. destruct H as [pre [post H]].
  apply includes_spec. exists pre, (suffix ++ post)%string.
  now rewrite H, append_assoc.
Qed.

Lemma longer_url_is_queued_too_witness :
  Js.includes (SlackMessage.text Scenario.announcement71)
    (CodeReviewChatDeleter.prUrl Example.deleter ++ "1") = true
  /\ CodeReviewChatDeleter.isMessageToDelete Example.deleter Scenario.announcement71
     = true.
Proof.
  assert (H : Js.includes (SlackMessage.text Scenario.announcement71)
                (CodeReviewChatDeleter.prUrl Example.deleter ++ "1") = true)
    by reflexivity.
  exact (conj H (longer_url_is_queued_too _ _ _ H)).
Defined.

Lemma includes_trans s p c :
  Js.includes s p = true -> Js.includes p c = true -> Js.includes s c = true.
Proof.
  rewrite !includes_spec. intros [pre [post ->]] [pre' [post' ->]].
  exists (pre ++ pre')%string, (post' ++ post)%string.
  now rewrite !append_assoc.
Qed.

Lemma includes_char_append c a b :
  Js.includes (a ++ b) (String c EmptyString)
  = Js.includes a (String c EmptyString) || Js.includes b (String c EmptyString).
Proof.
  unfold Js.includes. induction a as [|x a IH]; [reflexivity|].
  change (String x a ++ b)%string with (String x (a ++ b)).
  rewrite (indexOf_unfold _ (String x (a ++ b))), (indexOf_unfold _ (String x a)).
  cbn [Js.startsWith]. destruct (Ascii.eqb c x); cbn [andb]; [reflexivity|].
  destruct (Js.indexOf (String c EmptyString) (a ++ b)),
    (Js.indexOf (String c EmptyString) a); simpl in *; auto.
Qed.

(** X6.  The reconciler's URL test does not recognise the text the
    publisher posts.  That text is "New Pull Request from <owner>"; as soon
    as the URL holds a slash and the owner's name holds none, it does not
    contain the URL.  So a message of the history that carries this text is
    queued only for a subtype, or for a check mark when there is an elevated
    client. *)
Theorem posted_text_does_not_match_the_url publisher this message :
  SlackMessage.text message
  = ("New Pull Request from " ++ PR.owner (CodeReviewChat.pr publisher))%string ->
  Js.includes (CodeReviewChatDeleter.prUrl this) "/" = true ->
  Js.includes (PR.owner (CodeReviewChat.pr publisher)) "/" = false ->
  Js.includes (SlackMessage.text message) (CodeReviewChatDeleter.prUrl this) = false
  /\ (CodeReviewChatDeleter.isMessageToDelete this message = true <->
      (exists s, SlackMessage.subtype message = Some s /\ s <> EmptyString)
      \/ (exists elevated reactions reaction,
            CodeReviewChatDeleter.elevatedClient this = Some elevated
            /\ SlackMessage.reactions message = Some reactions
            /\ In reaction reactions
            /\ SlackReaction.name reaction = "white_check_mark"%string)).
Proof.
  intros Ht Hu Ho.
  assert (Hno : Js.includes (SlackMessage.text message)
                  (CodeReviewChatDeleter.prUrl this) = false).
  { destruct (Js.includes (SlackMessage.text message)
                (CodeReviewChatDeleter.prUrl this)) eqn:Ei; [exfalso|reflexivity].
    pose proof (includes_trans _ _ _ Ei Hu) as Hs.
    rewrite Ht, includes_char_append, Ho in Hs. discriminate. }
  split; [exact Hno|].
  rewrite isMessageToDelete_spec. split.
  - intros [H|[H|H]]; [now left| |now right].
    apply includes_spec in H. rewrite H in Hno. discriminate.
  - intros [H|H]; [now left|now right; right].
Qed.

Lemma posted_text_does_not_match_the_url_witness :
  SlackMessage.text Scenario.posted
  = ("New Pull Request from " ++ PR.owner (CodeReviewChat.pr Example.publisher))%string
  /\ Js.includes (CodeReviewChatDeleter.prUrl Example.deleter) "/" = true
  /\ Js.includes (PR.owner (CodeReviewChat.pr Example.publisher)) "/" = false
  /\ Js.includes (SlackMessage.text Scenario.posted)
       (CodeReviewChatDeleter.prUrl Example.deleter) = false
  /\ CodeReviewChatDeleter.isMessageToDelete Example.deleter Scenario.posted = false.
Proof.
  match goal with |- ?A /\ ?B /\ ?C /\ _ =>
    assert (Ha : A) by reflexivity;
    assert (Hb : B) by reflexivity;
    assert (Hc : C) by reflexivity
  end.
  split; [exact Ha|]. split; [exact Hb|]. split; [exact Hc|].
  split; [|reflexivity].
  exact (proj1 (posted_text_does_not_match_the_url Example.publisher Example.deleter
                  Scenario.posted Ha Hb Hc)).
Defined.

(** ** A pass of the reconciler, phase by phase *)

(** X7.  A history that cannot be used ends the pass: when the call is
    rejected the run throws that error, and when it resolves without [ok]
    or without messages the run throws "Error getting channel history"; in
    both cases the history call is the last thing the run does. *)
Theorem unusable_history_ends_the_run (env : Env) this fuel tr client channel tr1 :
  exec env (Chatter.getChat (CodeReviewChatDeleter.super this) fuel) tr
  = (Returned (client, channel), tr1) ->
  let history := conversations_history client channel 20 in
  (forall e,
     env tr1 _ history = Rejected e ->
     exec env (CodeReviewChatDeleter.run this fuel) tr
     = (Thrown e, tr1 ++ [Call history (Rejected e)]))
  /\ (forall response,
        env tr1 _ history = Resolved response ->
        MessagesResponse.ok response = false
        \/ MessagesResponse.messages response = None ->
        exec env (CodeReviewChatDeleter.run this fuel) tr
        = (Thrown (Js.mkError "Error getting channel history"),
           tr1 ++ [Call history (Resolved response)])).
Proof.
  intros Eg history. split.
  - intros e Eh. unfold CodeReviewChatDeleter.run.
    rewrite exec_bind, Eg, exec_bind, exec_await. fold history. now rewrite Eh.
  - intros response Eh Hbad. unfold CodeReviewChatDeleter.run.
    rewrite exec_bind, Eg, exec_bind, exec_await. fold history. rewrite Eh.
    destruct (MessagesResponse.ok response), (MessagesResponse.messages response);
      try reflexivity.
    destruct Hbad; discriminate.
Qed.

Lemma unusable_history_ends_the_run_witness :
  let history := conversations_history Example.bot "C3" 20 in
  let tr1 :=
    [Call (list_call Example.bot None) (Resolved Example.page1);
     Call (list_call Example.bot (Some "page-2")) (Resolved Example.page2)] in
  exec (Script.env Scenario.script_no_history)
    (Chatter.getChat (CodeReviewChatDeleter.super Example.deleter) 2) []
  = (Returned (Example.bot, "C3"), tr1)
  /\ exec (Script.env Scenario.script_no_history)
       (CodeReviewChatDeleter.run Example.deleter 2) []
     = (Thrown (Js.mkError "Error getting channel history"),
        tr1 ++ [Call history (Resolved (MessagesResponse.mk false None))]).
Proof.
  cbv zeta.
  assert (Eg : exec (Script.env Scenario.script_no_history)
                 (Chatter.getChat (CodeReviewChatDeleter.super Example.deleter) 2) []
               = (Returned (Example.bot, "C3"),
                  [Call (list_call Example.bot None) (Resolved Example.page1);
                   Call (list_call Example.bot (Some "page-2"))
                     (Resolved Example.page2)]))
    by reflexivity.
  split; [exact Eg|].
  apply (proj2 (unusable_history_ends_the_run _ _ _ _ _ _ _ Eg)
           (MessagesResponse.mk false None)); [reflexivity|].
  left. reflexivity.
Defined.

(** X8.  When no message of the history is queued (none has a subtype, none
    mentions the URL, none is check-marked for an elevated client; an empty
    history is such a one), the pass asks for no thread and deletes
    nothing: it logs "no message found, exiting" and returns. *)
Theorem nothing_queued_nothing_deleted (env : Env) this fuel tr client channel tr1
    messages :
  exec env (Chatter.getChat (CodeReviewChatDeleter.super this) fuel) tr
  = (Returned (client, channel), tr1) ->
  env tr1 _ (conversations_history client channel 20)
  = Resolved (MessagesResponse.mk true (Some messages)) ->
  (forall m, In m messages -> CodeReviewChatDeleter.isMessageToDelete this m = false) ->
  exec env (CodeReviewChatDeleter.run this fuel) tr
  = (Returned tt,
     tr1 ++ [Call (conversations_history client channel 20)
               (Resolved (MessagesResponse.mk true (Some messages)));
             Logged "no message found, exiting"]).
Proof.
  intros Eg Eh Hnone.
  rewrite (run_after_history env this fuel tr client channel tr1 messages Eg Eh).
  assert (Hf : filter (CodeReviewChatDeleter.isMessageToDelete this) messages = []).
  { clear Eh. induction messages as [|m messages IH]; [reflexivity|].
    cbn [filter]. rewrite (Hnone m); [|now left]. apply IH.
    intros x Hx. apply Hnone. now right. }
  unfold CodeReviewChatDeleter.queueMessages. cbv zeta. rewrite Hf.
  cbn [CodeReviewChatDeleter.fetchReplies bind exec app List.length Nat.eqb].
  now rewrite <- app_assoc.
Qed.

Lemma nothing_queued_nothing_deleted_witness :
  let messages := [Example.chatter; Example.chatter] in
  exec (Script.env Scenario.script_quiet) (CodeReviewChatDeleter.run Example.deleter 2) []
  = (Returned tt,
     [Call (list_call Example.bot None) (Resolved Example.page1);
      Call (list_call Example.bot (Some "page-2")) (Resolved Example.page2)]
     ++ [Call (conversations_history Example.bot "C3" 20)
           (Resolved (MessagesResponse.mk true (Some messages)));
         Logged "no message found, exiting"]).
Proof.
  cbv zeta.
  apply (nothing_queued_nothing_deleted (Script.env Scenario.script_quiet)
           Example.deleter 2 [] Example.bot "C3").
  - reflexivity.
  - reflexivity.
  - intros m [<-|[<-|[]]]; reflexivity.
Defined.

Lemma fetchReplies_calls_only (P : forall R, Req R -> Prop) client channel :
  (forall ts, P _ (conversations_replies client channel ts)) ->
  forall messagesToDelete replies,
    calls_only P (CodeReviewChatDeleter.fetchReplies client channel messagesToDelete replies).
Proof.
  intros HP. induction messagesToDelete as [|m rest IH]; intros replies; [exact I|].
  cbn [CodeReviewChatDeleter.fetchReplies].
  destruct (Js.truthy_opt_number (SlackMessage.reply_count m)); [|apply IH].
  apply calls_only_bind; [apply calls_only_await, HP|].
  intros resp.
  destruct (MessagesResponse.ok resp), (MessagesResponse.messages resp);
    try apply IH; (apply calls_only_bind; [exact I|intros; apply IH]).
Qed.

Lemma deleteMessages_calls_only (P : forall R, Req R -> Prop) this client channel :
  (forall m, P _ (CodeReviewChatDeleter.deleteCall this client channel m)) ->
  forall messagesToDelete,
    calls_only P (CodeReviewChatDeleter.deleteMessages this client channel messagesToDelete).
Proof.
  intros HP messagesToDelete. unfold CodeReviewChatDeleter.deleteMessages.
  apply calls_only_try_catch; [|intros; exact I].
  induction messagesToDelete as [|m rest IH]; [exact I|].
  cbn [for_of]. apply calls_only_bind; [|intros; exact IH].
  destruct (CodeReviewChatDeleter.isTombstone m); [exact I|].
  apply calls_only_await, HP.
Qed.

Lemma no_delete_calls new :
  Forall (call_satisfies not_delete) new -> delete_calls new = [].
Proof.
  induction 1 as [|ev new Hev Hnew IH]; [reflexivity|].
  unfold delete_calls in *. cbn [flat_map]. rewrite IH, app_nil_r.
  destruct ev as [R q r|msg]; [|reflexivity].
  unfold call_satisfies, not_delete in Hev. destruct q; try reflexivity.
  discriminate.
Qed.

Lemma no_reply_fetches new :
  Forall (call_satisfies only_delete) new -> reply_fetches new = [].
Proof.
  induction 1 as [|ev new Hev Hnew IH]; [reflexivity|].
  unfold reply_fetches in *. cbn [flat_map]. rewrite IH, app_nil_r.
  destruct ev as [R q r|msg]; [|reflexivity].
  unfold call_satisfies, only_delete in Hev. destruct q; try discriminate.
  reflexivity.
Qed.

(** A pass either ends before its deletion loop, or goes through its
    three phases. *)
Lemma run_phases env this fuel tr out new :
  exec env (CodeReviewChatDeleter.run this fuel) tr = (out, tr ++ new) ->
  Forall (call_satisfies not_delete) new
  \/ exists client channel new1 messages new3 queue new4,
       let history :=
         Call (conversations_history client channel 20)
           (Resolved (MessagesResponse.mk true (Some messages))) in
       exec env (Chatter.getChat (CodeReviewChatDeleter.super this) fuel) tr
       = (Returned (client, channel), tr ++ new1)
       /\ exec env (CodeReviewChatDeleter.queueMessages this client channel messages)
            ((tr ++ new1) ++ [history])
          = (Returned queue, ((tr ++ new1) ++ [history]) ++ new3)
       /\ exec env (CodeReviewChatDeleter.deleteMessages this client channel queue)
            (((tr ++ new1) ++ [history]) ++ new3)
          = (out, (((tr ++ new1) ++ [history]) ++ new3) ++ new4)
       /\ new = new1 ++ [history] ++ new3 ++ new4.
Proof.
  intros E. unfold CodeReviewChatDeleter.run in E. rewrite exec_bind in E.
  destruct (exec_new env (Chatter.getChat (CodeReviewChatDeleter.super this) fuel) tr)
    as [out1 [new1 E1]].
  assert (H1 : Forall (call_satisfies not_delete) new1).
  { apply (exec_calls_only _ env _ (getChat_calls not_delete _ fuel
             (fun cursor => eq_refl)) _ _ _ E1). }
  rewrite E1 in E.
  destruct out1 as [[client channel]|e1|];
    [|left; inversion E as [[Ho Ht]]; apply app_inv_head in Ht; now subst new ..].
  rewrite exec_bind, exec_await in E.
  destruct (env (tr ++ new1) _ (conversations_history client channel 20))
    as [[ok messages]|e2].
  2:{ left. inversion E as [[Ho Ht]]. rewrite <- app_assoc in Ht.
      apply app_inv_head in Ht. subst new. apply Forall_app. split; [exact H1|].
      repeat constructor. }
  assert (Hh : Forall (call_satisfies not_delete)
                 (new1 ++ [Call (conversations_history client channel 20)
                             (Resolved (MessagesResponse.mk ok messages))])).
  { apply Forall_app. split; [exact H1|]. repeat constructor. }
  destruct ok, messages as [messages|]; cbn [MessagesResponse.ok MessagesResponse.messages]
    in E;
    try (left; simpl in E; inversion E as [[Ho Ht]]; rewrite <- app_assoc in Ht;
         apply app_inv_head in Ht; now subst new).
  rewrite exec_bind in E.
  match type of E with context [exec env ?p ?t] =>
    destruct (exec_new env p t) as [out3 [new3 E3]] end.
  assert (H3 : Forall (call_satisfies not_delete) new3).
  { exact (exec_calls_only _ env _ (queueMessages_calls _ _ _ _) _ _ _ E3). }
  rewrite E3 in E.
  destruct out3 as [queue|e3|];
    [|left; inversion E as [[Ho Ht]]; rewrite <- !app_assoc in Ht;
      apply app_inv_head in Ht; subst new; rewrite app_assoc;
      apply Forall_app; split; [exact Hh|exact H3] ..].
  destruct (List.length queue =? 0)%nat.
  - left. simpl in E. inversion E as [[Ho Ht]]. rewrite <- !app_assoc in Ht.
    apply app_inv_head in Ht. subst new. rewrite !app_assoc.
    apply Forall_app. split; [|repeat constructor].
    apply Forall_app. split; [exact Hh|exact H3].
  - right.
    match type of E with exec env ?p ?t = _ =>
      destruct (exec_new env p t) as [out4 [new4 E4]] end.
    exists client, channel, new1, messages, new3, queue, new4. cbv zeta.
    rewrite E4 in E. inversion E as [[Ho Ht]]. rewrite <- !app_assoc in Ht.
    apply app_inv_head in Ht. subst new.
    split; [exact E1|]. split; [exact E3|]. split; [now rewrite E4, Ho|].
    reflexivity.
Qed.

(** X9.  A pass reads first and deletes last: in what it does, everything
    up to some point makes no delete call (the listing, the history, every
    thread), and everything after that point is a delete call or the line
    logged for a refusal.  A run that does not return normally has deleted
    nothing. *)
Theorem deletions_come_last env this fuel tr out new :
  exec env (CodeReviewChatDeleter.run this fuel) tr = (out, tr ++ new) ->
  exists reads deletes,
    new = reads ++ deletes
    /\ delete_calls reads = []
    /\ reply_fetches deletes = []
    /\ Forall (call_satisfies only_delete) deletes
    /\ (out <> Returned tt -> deletes = []).
Proof.
  intros E.
  destruct (run_phases env this fuel tr out new E)
    as [Hn|[client [channel [new1 [messages [new3 [queue [new4 H]]]]]]]].
  - exists new, []. rewrite app_nil_r. split; [reflexivity|].
    split; [now apply no_delete_calls|]. split; [reflexivity|].
    split; [constructor|reflexivity].
  - cbv zeta in H. destruct H as [E1 [E3 [E4 ->]]].
    exists (new1 ++ [Call (conversations_history client channel 20)
                       (Resolved (MessagesResponse.mk true (Some messages)))] ++ new3),
      new4.
    split; [now rewrite <- !app_assoc|].
    assert (Hd : Forall (call_satisfies only_delete) new4).
    { apply (exec_calls_only _ env _
               (deleteMessages_calls_only only_delete this client channel
                  (deleteCall_is_delete this client channel) queue) _ _ _ E4). }
    split; [|split; [|split; [exact Hd|]]].
    + apply no_delete_calls. apply Forall_app. split.
      * apply (exec_calls_only _ env _ (getChat_calls not_delete _ fuel
                 (fun cursor => eq_refl)) _ _ _ E1).
      * apply Forall_app. split; [repeat constructor|].
        exact (exec_calls_only _ env _ (queueMessages_calls _ _ _ _) _ _ _ E3).
    + now apply no_reply_fetches.
    + intros Hout. exfalso. apply Hout.
      destruct (deleteMessages_spec env this client channel queue
                  (((tr ++ new1)
                    ++ [Call (conversations_history client channel 20)
                          (Resolved (MessagesResponse.mk true (Some messages)))])
                   ++ new3))
        as [E'|[done [m [rest [e [_ E']]]]]]; rewrite E4 in E'; now inversion E'.
Qed.

Lemma deletions_come_last_witness :
  let thread := [Example.announcement; Example.reply1; Example.reply2] in
  let new :=
    [Call (list_call Example.bot None) (Resolved Example.page1);
     Call (list_call Example.bot (Some "page-2")) (Resolved Example.page2);
     Call (conversations_history Example.bot "C3" 20)
       (Resolved (MessagesResponse.mk true (Some Example.history)));
     Call (conversations_replies Example.bot "C3" "20.0")
       (Resolved (MessagesResponse.mk true (Some thread)));
     deleted Example.deleter Example.bot "C3" Example.announcement;
     deleted Example.deleter Example.bot "C3" Example.reply1;
     deleted Example.deleter Example.bot "C3" Example.reply2] in
  exec (Script.env Example.script) (CodeReviewChatDeleter.run Example.deleter 2) []
  = (Returned tt, [] ++ new)
  /\ exists reads deletes,
       new = reads ++ deletes
       /\ delete_calls reads = []
       /\ reply_fetches deletes = [].
Proof.
  cbv zeta.
  match goal with |- ?E /\ _ => assert (H : E) by reflexivity end.
  split; [exact H|].
  destruct (deletions_come_last _ _ _ _ _ _ H) as [reads [deletes [Hn [Hr [Hd _]]]]].
  exists reads, deletes. auto.
Defined.

(** What a pass does once it has its channel. *)
Lemma pass_in_channel_calls this channel :
  let bot := WebClient.mk (Chatter.slackToken (CodeReviewChatDeleter.super this)) in
  calls_only (in_the_channel this channel)
    (response <- await (conversations_history bot channel 20) ;;
     match MessagesResponse.ok response, MessagesResponse.messages response with
     | true, Some messages =>
         messagesToDelete <-
           CodeReviewChatDeleter.queueMessages this bot channel messages ;;
         if (List.length messagesToDelete =? 0)%nat
         then safeLog "no message found, exiting"
         else CodeReviewChatDeleter.deleteMessages this bot channel messagesToDelete
     | _, _ => Throw (Js.mkError "Error getting channel history")
     end).
Proof.
  intros bot. unfold in_the_channel.
  apply calls_only_bind; [apply calls_only_await; simpl; auto|].
  intros response.
  destruct (MessagesResponse.ok response), (MessagesResponse.messages response);
    try exact I.
  apply calls_only_bind.
  - unfold CodeReviewChatDeleter.queueMessages.
    apply calls_only_bind; [|intros; exact I].
    apply fetchReplies_calls_only. intros ts. simpl. auto.
  - intros queue. destruct (List.length queue =? 0)%nat; [exact I|].
    apply deleteMessages_calls_only. intros m.
    unfold CodeReviewChatDeleter.deleteCall, by_the_deleter.
    destruct (CodeReviewChatDeleter.elevatedClient this); simpl; auto.
Qed.

Lemma no_listing (P : forall R, Req R -> Prop) new :
  (forall R (q : Req R), P _ q -> is_list q = false) ->
  Forall (call_satisfies P) new -> listed new = [].
Proof.
  intros HP. induction 1 as [|ev new Hev Hnew IH]; [reflexivity|].
  unfold listed in *. cbn [flat_map]. rewrite IH, app_nil_r.
  destruct ev as [R q r|msg]; [|reflexivity].
  specialize (HP _ q Hev). destruct q; try reflexivity. discriminate.
Qed.

(** X10.  Every call of a pass is a Slack call for one channel: pages of
    channels (100 a page, public and private), the last 20 messages of the
    channel and threads of it are asked for with the bot's client, whether
    or not there is an elevated client; every deletion is made in that
    channel, with the elevated client as the user when there is one and
    with the bot's client, not as a user, otherwise.  Unless the pass did
    nothing but list channels, that channel is the first member channel
    bearing the configured name in the pages it fetched. *)
Theorem pass_calls_are_for_one_channel env this fuel tr out new :
  exec env (CodeReviewChatDeleter.run this fuel) tr = (out, tr ++ new) ->
  let bot := WebClient.mk (Chatter.slackToken (CodeReviewChatDeleter.super this)) in
  let name := Chatter.notificationChannel (CodeReviewChatDeleter.super this) in
  exists channel,
    Forall (call_satisfies (by_the_deleter this channel)) new
    /\ (Forall (call_satisfies (lists_channels bot)) new
        \/ exists before c after,
             filter Channel.is_member
               (flat_map ConversationsList.channels (listed new))
             = before ++ c :: after
             /\ (forall b, In b before -> Channel.name b <> name)
             /\ Channel.name c = name
             /\ channel = Channel.id c).
Proof.
  intros E bot name. unfold CodeReviewChatDeleter.run in E. rewrite exec_bind in E.
  destruct (exec_new env (Chatter.getChat (CodeReviewChatDeleter.super this) fuel) tr)
    as [out1 [new1 E1]].
  assert (H1 : forall channel, Forall (call_satisfies (by_the_deleter this channel)) new1).
  { intros channel.
    apply (exec_calls_only _ env _
             (getChat_calls (by_the_deleter this channel) _ fuel
                (fun cursor => conj eq_refl (conj eq_refl eq_refl))) _ _ _ E1). }
  destruct (getChat_outcomes _ _ _ _ _ _ E1) as [Hlist Hout].
  rewrite E1 in E.
  destruct out1 as [[client channel]|e1|];
    [|exists EmptyString; inversion E as [[Ho Ht]]; apply app_inv_head in Ht;
      subst new; split; [apply H1|left; exact Hlist] ..].
  destruct Hout as [-> [c [Hc ->]]].
  destruct (exec_from_extended env _ tr new1 out new E) as [new2 [-> E2]].
  pose proof (exec_calls_only _ env _ (pass_in_channel_calls this (Channel.id c))
                _ _ _ E2) as H2.
  exists (Channel.id c). split.
  - apply Forall_app. split; [apply H1|].
    eapply Forall_impl; [|exact H2].
    intros [R q r|msg] H; [exact (proj1 H)|exact I].
  - right.
    destruct (codereviewChannel_some _ _ _ Hc) as [_ [before [after [Hm [Hname Hb]]]]].
    exists before, c, after.
    rewrite listed_app, (no_listing _ new2 (fun R q H => proj2 H) H2), app_nil_r.
    auto.
Qed.

Lemma pass_calls_are_for_one_channel_witness :
  exists out new,
    exec (Script.env Example.script) (CodeReviewChatDeleter.run Example.deleter 2) []
    = (out, [] ++ new)
    /\ Forall (call_satisfies (by_the_deleter Example.deleter "C3")) new.
Proof.
  eexists. eexists.
  match goal with |- ?E /\ _ => assert (H : E) by (vm_compute; reflexivity) end.
  split; [exact H|].
  destruct (pass_calls_are_for_one_channel _ _ _ _ _ _ H) as [channel [Hall _]].
  inversion Hall as [|ev rest Hev Hrest]; subst.
  inversion Hrest as [|ev2 rest2 Hev2 Hrest2]; subst.
  inversion Hrest2 as [|ev3 rest3 Hev3 Hrest3]; subst.
  destruct Hev3 as [_ [<- _]]. exact Hall.
Defined.

(** X11.  When no delete call of the loop is refused, every queued message
    that is no tombstone is deleted, once for each time it is queued and in
    the order of the queue; nothing is logged and the loop returns. *)
Theorem unrefused_deletion_is_complete env this client channel messagesToDelete tr out
    new :
  exec env (CodeReviewChatDeleter.deleteMessages this client channel messagesToDelete) tr
  = (out, tr ++ new) ->
  existsb rejected new = false ->
  out = Returned tt
  /\ new
     = map (fun m =>
              Call (CodeReviewChatDeleter.deleteCall this client channel m) (Resolved tt))
         (filter (fun m => negb (CodeReviewChatDeleter.isTombstone m)) messagesToDelete).
Proof.
  intros E Hr.
  destruct (deleteMessages_spec env this client channel messagesToDelete tr)
    as [E'|[done [m [rest [e [Hl E']]]]]]; rewrite E in E'; inversion E' as [[Ho Ht]];
    apply app_inv_head in Ht; subst new.
  - split; reflexivity.
  - rewrite existsb_app in Hr. simpl in Hr. rewrite orb_true_r in Hr. discriminate.
Qed.

Lemma unrefused_deletion_is_complete_witness :
  let queue := [Example.tombstone; Example.orphan] in
  let new := [Call (chat_delete Example.bot "C3" "18.1" false) (Resolved tt)] in
  exec (Script.env Example.script)
    (CodeReviewChatDeleter.deleteMessages Example.deleter Example.bot "C3" queue) []
  = (Returned tt, [] ++ new)
  /\ existsb rejected new = false
  /\ new
     = map (fun m =>
              Call (CodeReviewChatDeleter.deleteCall Example.deleter Example.bot "C3" m)
                (Resolved tt))
         (filter (fun m => negb (CodeReviewChatDeleter.isTombstone m)) queue).
Proof.
  cbv zeta.
  match goal with |- ?E /\ ?R /\ _ =>
    assert (H : E) by reflexivity; assert (Hr : R) by reflexivity end.
  exact (conj H (conj Hr (proj2 (unrefused_deletion_is_complete _ _ _ _ _ _ _ _ H Hr)))).
Defined.

Lemma deleteMessages_attempts env this client channel queue tr out new :
  exec env (CodeReviewChatDeleter.deleteMessages this client channel queue) tr
  = (out, tr ++ new) ->
  exists attempted rest,
    live queue = attempted ++ rest
    /\ delete_calls new
       = map (CodeReviewChatDeleter.deleteCall this client channel) attempted.
Proof.
  intros E.
  destruct (deleteMessages_spec env this client channel queue tr)
    as [E'|[done [m [rest [e [Hl E']]]]]]; rewrite E in E'; inversion E' as [[Ho Ht]];
    apply app_inv_head in Ht; subst new.
  - exists (live queue), []. rewrite app_nil_r. split; [reflexivity|].
    apply delete_calls_deleted.
  - exists (done ++ [m]), rest. split; [now rewrite <- app_assoc|].
    rewrite delete_calls_app, delete_calls_deleted, map_app. f_equal.
    unfold delete_refused, CodeReviewChatDeleter.deleteCall.
    destruct (CodeReviewChatDeleter.elevatedClient this); reflexivity.
Qed.

(** X13.  A pass deletes nothing but what it queued: every delete call it
    makes is for a message that is no tombstone and that either is a
    message of the history it read and passes the filter, or comes after
    the first item in a thread it fetched for such a message. *)
Theorem only_queued_messages_are_deleted env this fuel tr out new :
  exec env (CodeReviewChatDeleter.run this fuel) tr = (out, tr ++ new) ->
  forall q,
    In q (delete_calls new) ->
    exists client channel messages m,
      In (Call (conversations_history client channel 20)
            (Resolved (MessagesResponse.mk true (Some messages)))) new
      /\ q = CodeReviewChatDeleter.deleteCall this client channel m
      /\ CodeReviewChatDeleter.isTombstone m = false
      /\ (In m (filter (CodeReviewChatDeleter.isMessageToDelete this) messages)
          \/ exists root thread,
               In root (filter (CodeReviewChatDeleter.isMessageToDelete this) messages)
               /\ In (client, channel, SlackMessage.ts root,
                      Resolved (MessagesResponse.mk true (Some thread)))
                    (reply_fetches new)
               /\ In m (tl thread)).
Proof.
  intros E q Hq.
  destruct (run_phases env this fuel tr out new E)
    as [Hn|[client [channel [new1 [messages [new3 [queue [new4 H]]]]]]]].
  - rewrite (no_delete_calls _ Hn) in Hq. destruct Hq.
  - cbv zeta in H. destruct H as [E1 [E3 [E4 ->]]].
    assert (H1 : Forall (call_satisfies not_delete) new1).
    { apply (exec_calls_only _ env _ (getChat_calls not_delete _ fuel
               (fun cursor => eq_refl)) _ _ _ E1). }
    assert (H3 : Forall (call_satisfies not_delete) new3).
    { exact (exec_calls_only _ env _ (queueMessages_calls _ _ _ _) _ _ _ E3). }
    rewrite !delete_calls_app, (no_delete_calls _ H1), (no_delete_calls _ H3) in Hq.
    cbn [app delete_calls flat_map delete_call] in Hq.
    destruct (deleteMessages_attempts _ _ _ _ _ _ _ _ E4) as [attempted [rest [Hl Hc]]].
    rewrite Hc in Hq. apply in_map_iff in Hq. destruct Hq as [m [<- Hm]].
    assert (Hlive : In m (live queue)) by (rewrite Hl; apply in_or_app; now left).
    unfold live in Hlive. apply filter_In in Hlive. destruct Hlive as [Hin Ht].
    apply negb_true_iff in Ht.
    apply queueMessages_returned in E3. cbv zeta in E3. destruct E3 as [Hqueue Hfetch].
    exists client, channel, messages, m.
    split; [apply in_or_app; right; left; reflexivity|].
    split; [reflexivity|]. split; [exact Ht|].
    rewrite Hqueue in Hin. apply in_app_or in Hin.
    destruct Hin as [Hin|Hin]; [left; exact Hin|right].
    apply in_flat_map in Hin. destruct Hin as [[[[w c] ts] r] [Hf Hr]].
    assert (Hk : In (w, c, ts) (map fst (reply_fetches new3)))
      by (apply in_map_iff; exists (w, c, ts, r); auto).
    rewrite Hfetch in Hk. apply in_map_iff in Hk. destruct Hk as [root [Hroot Hw]].
    inversion Hroot; subst w c ts.
    unfold with_replies in Hw. apply filter_In in Hw. destruct Hw as [Hw _].
    cbn [snd] in Hr. destruct r as [[ok thread]|e]; [|destruct Hr].
    unfold replies_of in Hr. cbn [MessagesResponse.ok MessagesResponse.messages] in Hr.
    destruct ok; [|destruct Hr]. destruct thread as [thread|]; [|destruct Hr].
    exists root, thread. split; [exact Hw|]. split; [|exact Hr].
    rewrite !reply_fetches_app. apply in_or_app. right. apply in_or_app. right.
    apply in_or_app. now left.
Qed.

Lemma only_queued_messages_are_deleted_witness :
  exists out new,
    exec (Script.env Example.script) (CodeReviewChatDeleter.run Example.deleter 2) []
    = (out, [] ++ new)
    /\ In (chat_delete Example.bot "C3" "20.1" false) (delete_calls new)
    /\ exists client channel messages m,
         chat_delete Example.bot "C3" "20.1" false
         = CodeReviewChatDeleter.deleteCall Example.deleter client channel m
         /\ (In m (filter (CodeReviewChatDeleter.isMessageToDelete Example.deleter)
                     messages)
             \/ exists root thread,
                  In root (filter (CodeReviewChatDeleter.isMessageToDelete Example.deleter)
                             messages)
                  /\ In m (tl thread)).
Proof.
  eexists. eexists.
  match goal with |- ?E /\ ?I /\ _ =>
    assert (H : E) by (vm_compute; reflexivity);
    assert (Hin : I) by (vm_compute; tauto)
  end.
  split; [exact H|]. split; [exact Hin|].
  destruct (only_queued_messages_are_deleted _ _ _ _ _ _ H _ Hin)
    as [client [channel [messages [m [_ [Hq [_ Hm]]]]]]].
  exists client, channel, messages, m. split; [exact Hq|].
  destruct Hm as [Hm|[root [thread [Hroot [_ Hm]]]]]; [now left|right; eauto].
Defined.

(** ** The queue *)

Lemma live_app a b : live (a ++ b) = live a ++ live b.
Proof. apply filter_app. Qed.

Lemma live_keeps m l :
  CodeReviewChatDeleter.isTombstone m = false -> live (m :: l) = m :: live l.
Proof. intros H. unfold live. cbn [filter]. now rewrite H. Qed.

(** X14.  The queue is not de-duplicated.  A message of the history that
    passes the filter and is also a reply in a thread fetched by the pass
    is queued twice; unless it is a tombstone, the deletion loop, as long as
    nothing is refused, calls for its deletion twice. *)
Theorem queue_is_not_deduplicated env this client channel messages tr queue new m
    thread :
  exec env (CodeReviewChatDeleter.queueMessages this client channel messages) tr
  = (Returned queue, tr ++ new) ->
  In m (filter (CodeReviewChatDeleter.isMessageToDelete this) messages) ->
  (exists web chan ts,
     In (web, chan, ts, Resolved (MessagesResponse.mk true (Some thread)))
       (reply_fetches new)) ->
  In m (tl thread) ->
  (exists a b c, queue = a ++ m :: b ++ m :: c)
  /\ (CodeReviewChatDeleter.isTombstone m = false ->
      forall tr' out' new',
        exec env (CodeReviewChatDeleter.deleteMessages this client channel queue) tr'
        = (out', tr' ++ new') ->
        existsb rejected new' = false ->
        exists x y z,
          delete_calls new'
          = x ++ CodeReviewChatDeleter.deleteCall this client channel m
              :: y ++ CodeReviewChatDeleter.deleteCall this client channel m :: z).
Proof.
  intros E Hq [web [chan [ts Hf]]] Hm.
  apply queueMessages_returned in E. cbv zeta in E. destruct E as [Hqueue _].
  assert (Hr : In m (flat_map (fun f => replies_of (snd f)) (reply_fetches new))).
  { apply in_flat_map. eexists. split; [exact Hf|exact Hm]. }
  apply in_split in Hq. destruct Hq as [a [b1 Hq]].
  apply in_split in Hr. destruct Hr as [b2 [c Hr]].
  assert (Hsplit : queue = a ++ m :: (b1 ++ b2) ++ m :: c).
  { rewrite Hqueue, Hq, Hr, <- !app_assoc. reflexivity. }
  split; [eauto|].
  intros Ht tr' out' new' Ed Hnr.
  destruct (deleteMessages_spec env this client channel queue tr')
    as [E'|[done [x [rest [e [Hl E']]]]]]; rewrite Ed in E'; inversion E' as [[Ho Hn]];
    apply app_inv_head in Hn; subst new'.
  - rewrite delete_calls_deleted, Hsplit.
    rewrite live_app, (live_keeps m _ Ht), live_app, (live_keeps m _ Ht).
    rewrite map_app. cbn [map]. rewrite map_app. cbn [map].
    eexists. eexists. eexists. reflexivity.
  - rewrite existsb_app in Hnr. simpl in Hnr. rewrite orb_true_r in Hnr. discriminate.
Qed.

Lemma queue_is_not_deduplicated_witness :
  let env := Script.env Scenario.script_broadcast in
  let thread := [Example.announcement; Scenario.broadcast; Example.reply2] in
  let new :=
    [Call (conversations_replies Example.bot "C3" "20.0")
       (Resolved (MessagesResponse.mk true (Some thread)))] in
  exec env
    (CodeReviewChatDeleter.queueMessages Example.deleter Example.bot "C3"
       [Example.announcement; Scenario.broadcast]) []
  = (Returned [Example.announcement; Scenario.broadcast; Scenario.broadcast;
               Example.reply2], [] ++ new)
  /\ exists a b c,
       [Example.announcement; Scenario.broadcast; Scenario.broadcast; Example.reply2]
       = a ++ Scenario.broadcast :: b ++ Scenario.broadcast :: c.
Proof.
  cbv zeta.
  match goal with |- ?E /\ _ => assert (H : E) by reflexivity end.
  split; [exact H|].
  refine (proj1 (queue_is_not_deduplicated _ _ _ _ _ _ _ _ Scenario.broadcast
                   [Example.announcement; Scenario.broadcast; Example.reply2]
                   H _ _ _)).
  - simpl. tauto.
  - exists Example.bot, "C3", "20.0". simpl. tauto.
  - simpl. tauto.
Defined.

Lemma logged_app a b : logged (a ++ b) = logged a ++ logged b.
Proof. apply flat_map_app. Qed.

(** The first loop, whatever it is answered. *)
Lemma fetchReplies_outcomes env client channel messagesToDelete :
  forall replies tr out new,
    exec env (CodeReviewChatDeleter.fetchReplies client channel messagesToDelete replies)
      tr = (out, tr ++ new) ->
    logged new
    = map (fun _ => "Error getting messages replies")
        (filter (fun f => unusable (snd f)) (reply_fetches new))
    /\ out <> Unfinished
    /\ (existsb rejected new = false <-> exists set, out = Returned set)
    /\ (forall e,
          out = Thrown e ->
          exists before ts,
            new = before ++ [Call (conversations_replies client channel ts) (Rejected e)]
            /\ existsb rejected before = false).
Proof.
  induction messagesToDelete as [|m rest IH]; intros replies tr out new E.
  - simpl in E. inversion E as [[Ho Ht]]. apply exec_nothing_new in Ht. subst new.
    split; [reflexivity|]. split; [discriminate|]. split; [|discriminate].
    split; eauto.
  - rewrite fetchReplies_iteration in E.
    destruct (Js.truthy_opt_number (SlackMessage.reply_count m)); [|exact (IH _ _ _ _ E)].
    cbv zeta in E.
    destruct (env tr _ (conversations_replies client channel (SlackMessage.ts m)))
      as [[ok msgs]|e].
    + assert (Hstep : forall pre set,
                 exec env (CodeReviewChatDeleter.fetchReplies client channel rest set)
                   (tr ++ pre) = (out, tr ++ new) ->
                 existsb rejected pre = false ->
                 logged pre
                 = map (fun _ => "Error getting messages replies")
                     (filter (fun f => unusable (snd f)) (reply_fetches pre)) ->
                 logged new
                 = map (fun _ => "Error getting messages replies")
                     (filter (fun f => unusable (snd f)) (reply_fetches new))
                 /\ out <> Unfinished
                 /\ (existsb rejected new = false <-> exists set, out = Returned set)
                 /\ (forall e,
                       out = Thrown e ->
                       exists before ts,
                         new = before
                               ++ [Call (conversations_replies client channel ts)
                                     (Rejected e)]
                         /\ existsb rejected before = false)).
      { intros pre set E' Hpre Hlog.
        destruct (exec_from_extended env _ tr pre out new E') as [new' [-> E'']].
        destruct (IH _ _ _ _ E'') as [Hl [Hu [Hr Ht]]].
        split; [|split; [exact Hu|split]].
        - rewrite logged_app, reply_fetches_app, filter_app, map_app, Hlog, Hl.
          reflexivity.
        - rewrite existsb_app, Hpre. exact Hr.
        - intros e He. destruct (Ht e He) as [before [ts [-> Hb]]].
          exists (pre ++ before), ts. rewrite app_assoc. split; [reflexivity|].
          now rewrite existsb_app, Hpre, Hb. }
      cbn [MessagesResponse.ok MessagesResponse.messages] in E.
      destruct ok, msgs as [thread|]; eapply Hstep; try exact E; reflexivity.
    + inversion E as [[Ho Ht]]. apply app_inv_head in Ht. subst new.
      split; [reflexivity|]. split; [discriminate|]. split.
      * split; [discriminate|]. intros [set Hs]. discriminate.
      * intros e' He. inversion He; subst e'.
        exists [], (SlackMessage.ts m). split; reflexivity.
Qed.

(** X15.  Building the queue fails only by a rejected thread fetch.  Whatever
    the service answers, the loop over the queued messages ends; a thread
    that resolves without [ok] or without messages is logged, once, and
    skipped; the queue is returned exactly when no fetch was rejected; and
    when the queue is not returned, the error thrown is that of a rejected
    fetch, which is the last thing done and the only rejection. *)
Theorem queue_building_fails_only_by_rejection env this client channel messages tr out
    new :
  exec env (CodeReviewChatDeleter.queueMessages this client channel messages) tr
  = (out, tr ++ new) ->
  logged new
  = map (fun _ => "Error getting messages replies")
      (filter (fun f => unusable (snd f)) (reply_fetches new))
  /\ out <> Unfinished
  /\ (existsb rejected new = false <-> exists queue, out = Returned queue)
  /\ (forall e,
        out = Thrown e ->
        exists before ts,
          new = before ++ [Call (conversations_replies client channel ts) (Rejected e)]
          /\ existsb rejected before = false).
Proof.
  intros E. unfold CodeReviewChatDeleter.queueMessages in E. cbv zeta in E.
  rewrite exec_bind in E.
  match type of E with context [exec env ?p ?t] =>
    destruct (exec_new env p t) as [out1 [new1 E1]] end.
  destruct (fetchReplies_outcomes _ _ _ _ _ _ _ _ E1) as [Hl [Hu [Hr Ht]]].
  rewrite E1 in E.
  destruct out1 as [set|e|]; inversion E as [[Ho Hn]]; apply app_inv_head in Hn;
    subst new.
  - split; [exact Hl|]. split; [discriminate|]. split; [|discriminate].
    split; [eauto|]. intros _. apply Hr. eauto.
  - split; [exact Hl|]. split; [discriminate|]. split.
    + split; [|intros [queue Hq]; discriminate].
      intros H. apply Hr in H. destruct H as [set Hs]. discriminate.
    + intros e' He. inversion He; subst e'. now apply Ht.
  - now destruct Hu.
Qed.

Lemma queue_building_fails_only_by_rejection_witness :
  let env := Script.env Scenario.script_thread_not_ok in
  let new :=
    [Call (conversations_replies Example.bot "C3" "20.0")
       (Resolved (MessagesResponse.mk false None));
     Logged "Error getting messages replies"] in
  exec env
    (CodeReviewChatDeleter.queueMessages Example.deleter Example.bot "C3"
       Example.history) []
  = (Returned [Example.announcement], [] ++ new)
  /\ logged new
     = map (fun _ => "Error getting messages replies")
         (filter (fun f => unusable (snd f)) (reply_fetches new)).
Proof.
  cbv zeta.
  match goal with |- ?E /\ _ => assert (H : E) by reflexivity end.
  exact (conj H (proj1 (queue_building_fails_only_by_rejection _ _ _ _ _ _ _ _ H))).
Defined.

(** ** What functions return, and functions in sequence *)

Lemma returns_only_bind {A B} (Q1 : A -> Prop) (Q : B -> Prop) (p : Prog A)
    (f : A -> Prog B) :
  returns_only Q1 p -> (forall a, Q1 a -> returns_only Q (f a)) ->
  returns_only Q (bind p f).
Proof.
  intros Hp Hf.
  induction p as [a|e| |msg k IH|R q k IH|R1 R2 q1 q2 k IH]; simpl in *; auto.
Qed.

Lemma calls_only_bind_returns P {A B} (Q : A -> Prop) (p : Prog A) (f : A -> Prog B) :
  calls_only P p -> returns_only Q p -> (forall a, Q a -> calls_only P (f a)) ->
  calls_only P (bind p f).
Proof.
  intros Hp Hr Hf.
  induction p as [a|e| |msg k IH|R q k IH|R1 R2 q1 q2 k IH]; simpl in *; auto.
  - destruct Hp as [Hq Hk]. split; auto.
  - destruct Hp as [Hq1 [Hq2 Hk]]. repeat split; auto.
Qed.

Lemma moves_returns_only {A} (Q : A -> Prop) (p p' : Prog A) ev :
  returns_only Q p -> moves p ev p' -> returns_only Q p'.
Proof.
  destruct p as [a|e| |msg k|R q k|R1 R2 q1 q2 k]; simpl; try easy.
  - intros H [_ ->]. exact H.
  - intros H [r [_ ->]]. apply H.
  - intros H [[r [_ ->]]|[r [_ ->]]]; simpl; intros r'; apply H.
Qed.

Lemma runs_returns_only {A} (Q : A -> Prop) (h : Trace) :
  forall (p : Prog A) a, returns_only Q p -> runs_to p h (Ret a) -> Q a.
Proof.
  induction h as [|ev h IH]; intros p a Hp Hr.
  - simpl in Hr. subst p. exact Hp.
  - destruct Hr as [p1 [Hm Hr]]. eapply IH; [|exact Hr].
    eapply moves_returns_only; eauto.
Qed.

(** A sequence runs as its first part, and once that has returned, as
    its second part. *)
Lemma runs_to_bind {A B} (h : Trace) :
  forall (p : Prog A) (f : A -> Prog B) q,
    runs_to (bind p f) h q ->
    (exists p', runs_to p h p' /\ q = bind p' f)
    \/ exists h1 h2 a,
         h = h1 ++ h2 /\ h2 <> [] /\ runs_to p h1 (Ret a) /\ runs_to (f a) h2 q.
Proof.
  induction h as [|ev h IH]; intros p f q Hr.
  - left. exists p. simpl in *. auto.
  - destruct p as [a|e| |msg k|R q0 k|R1 R2 q1 q2 k].
    + right. exists [], (ev :: h), a. repeat split; [discriminate|exact Hr].
    + destruct Hr as [p1 [[] _]].
    + destruct Hr as [p1 [[] _]].
    + destruct Hr as [p1 [[-> ->] Hr]].
      destruct (IH _ _ _ Hr) as [[p' [Hp ->]]|[h1 [h2 [a [-> [Hne [H1 H2]]]]]]].
      * left. exists p'. split; [|reflexivity]. exists k. split; [split; reflexivity|exact Hp].
      * right. exists (Logged msg :: h1), h2, a. repeat split; auto.
        exists k. split; [split; reflexivity|exact H1].
    + destruct Hr as [p1 [[r [-> ->]] Hr]].
      destruct (IH _ _ _ Hr) as [[p' [Hp ->]]|[h1 [h2 [a [-> [Hne [H1 H2]]]]]]].
      * left. exists p'. split; [|reflexivity]. exists (k r). split; [exists r; auto|exact Hp].
      * right. exists (Call q0 r :: h1), h2, a. repeat split; auto.
        exists (k r). split; [exists r; auto|exact H1].
    + destruct Hr as [p1 [[[r [-> ->]]|[r [-> ->]]] Hr]].
      * change (Await q2 (fun r2 => bind (k (left_first r r2)) f))
          with (bind (Await q2 (fun r2 => k (left_first r r2))) f) in Hr.
        destruct (IH _ _ _ Hr) as [[p' [Hp ->]]|[h1 [h2 [a [-> [Hne [H1 H2]]]]]]].
        -- left. exists p'. split; [|reflexivity].
           exists (Await q2 (fun r2 => k (left_first r r2))).
           split; [left; exists r; auto|exact Hp].
        -- right. exists (Call q1 r :: h1), h2, a. repeat split; auto.
           exists (Await q2 (fun r2 => k (left_first r r2))).
           split; [left; exists r; auto|exact H1].
      * change (Await q1 (fun r1 => bind (k (right_first r1 r)) f))
          with (bind (Await q1 (fun r1 => k (right_first r1 r))) f) in Hr.
        destruct (IH _ _ _ Hr) as [[p' [Hp ->]]|[h1 [h2 [a [-> [Hne [H1 H2]]]]]]].
        -- left. exists p'. split; [|reflexivity].
           exists (Await q1 (fun r1 => k (right_first r1 r))).
           split; [right; exists r; auto|exact Hp].
        -- right. exists (Call q2 r :: h1), h2, a. repeat split; auto.
           exists (Await q1 (fun r1 => k (right_first r1 r))).
           split; [right; exists r; auto|exact H1].
Qed.

(** Events that [f] does not keep, for calls chosen by [P]. *)
Lemma filter_none_of (P : forall R, Req R -> Prop) (f : Event -> bool) :
  (forall R (q : Req R) r, P _ q -> f (Call q r) = false) ->
  (forall msg, f (Logged msg) = false) ->
  forall h, Forall (call_satisfies P) h -> filter f h = [].
Proof.
  intros Hcall Hlog. induction 1 as [|ev h Hev Hh IH]; [reflexivity|].
  cbn [filter]. rewrite IH. destruct ev as [R q r|msg].
  - now rewrite (Hcall _ q r Hev).
  - now rewrite Hlog.
Qed.

Lemma Merge_filter {X} (f : X -> bool) a b all :
  Merge a b all -> Merge (filter f a) (filter f b) (filter f all).
Proof.
  induction 1 as [|x a b all H IH|x a b all H IH]; cbn [filter];
    [constructor| |]; destruct (f x); auto; now constructor.
Qed.

Lemma Merge_nil_l_inv {X} (b all : list X) : Merge [] b all -> all = b.
Proof.
  intros H. remember [] as a eqn:Ea. induction H; subst; try discriminate; auto.
  f_equal. auto.
Qed.

Lemma Merge_In_right {X} (a b all : list X) x : Merge a b all -> In x b -> In x all.
Proof.
  induction 1 as [|y a b all H IH|y a b all H IH]; simpl; auto.
  intros [->|Hx]; auto.
Qed.

Lemma run_tasks_nil env sched tr : run_tasks env sched [] tr = ([], tr).
Proof. induction sched as [|choice sched IH]; [reflexivity|exact IH]. Qed.

(** ** The publisher, whatever the services answer *)

(** What [run] has started when it returns. *)
Lemma run_started env toLocaleString this fuel tr tasks tr1 :
  exec env (CodeReviewChat.run toLocaleString this fuel) tr = (Returned tasks, tr1) ->
  tasks = []
  \/ exists data,
       PR.draft (CodeReviewChat.pr this) = false
       /\ tr1 = tr ++ [Call issue_getIssue (Resolved data);
                       Call (issue_hasWriteAccess (Issue.author data)) (Resolved true)]
       /\ tasks
          = (if Js.truthy_opt_string (Issue.assignee data) then []
             else [CodeReviewChat.assignTask (Issue.author data)])
            ++ [CodeReviewChat.milestoneTask data;
                CodeReviewChat.reviewTask toLocaleString this fuel (Issue.author data)].
Proof.
  unfold CodeReviewChat.run.
  destruct (PR.draft (CodeReviewChat.pr this)) eqn:Ed.
  - simpl. intros E. inversion E. now left.
  - rewrite exec_bind, exec_await.
    destruct (env tr _ issue_getIssue) as [data|e]; [|discriminate].
    cbv zeta. rewrite exec_bind, exec_await.
    destruct (env _ _ (issue_hasWriteAccess (Issue.author data))) as [[|]|e];
      [| |discriminate]; cbn [negb].
    + intros E. right. exists data. split; [reflexivity|].
      destruct (Js.truthy_opt_string (Issue.assignee data)); cbn [negb app exec] in E;
        inversion E; rewrite <- app_assoc; auto.
    + simpl. intros E. inversion E. now left.
Qed.

Lemma run_calls_only (P : forall R, Req R -> Prop) toLocaleString this fuel :
  P _ issue_getIssue -> (forall user, P _ (issue_hasWriteAccess user)) ->
  calls_only P (CodeReviewChat.run toLocaleString this fuel).
Proof.
  intros Hi Hw. unfold CodeReviewChat.run.
  destruct (PR.draft (CodeReviewChat.pr this)).
  - apply calls_only_bind; [exact I|intros; exact I].
  - apply calls_only_bind; [apply calls_only_await, Hi|]. intros data. cbv zeta.
    apply calls_only_bind; [apply calls_only_await, Hw|]. intros [|]; cbn [negb].
    + exact I.
    + apply calls_only_bind; [exact I|intros; exact I].
Qed.

(** X16.  [run] itself makes no call but [getIssue] and [hasWriteAccess].
    For a draft it makes no call at all: it logs one line and starts
    nothing.  Whatever the schedule, a task does something only for a PR
    that is no draft, after [getIssue] has resolved and [hasWriteAccess]
    has resolved to true for the author it gave. *)
Theorem tasks_need_write_access env toLocaleString this fuel tr out before :
  exec env (CodeReviewChat.run toLocaleString this fuel) tr = (out, tr ++ before) ->
  Forall (call_satisfies intake) before
  /\ (PR.draft (CodeReviewChat.pr this) = true ->
      out = Returned [] /\ before = [Logged "PR is draft, ignoring"])
  /\ forall tasks sched tasks' new,
       out = Returned tasks ->
       run_tasks env sched tasks (tr ++ before) = (tasks', (tr ++ before) ++ new) ->
       new <> [] ->
       PR.draft (CodeReviewChat.pr this) = false
       /\ exists data,
            before = [Call issue_getIssue (Resolved data);
                      Call (issue_hasWriteAccess (Issue.author data)) (Resolved true)].
Proof.
  intros E. split; [|split].
  - apply (exec_calls_only _ env _
             (run_calls_only intake toLocaleString this fuel I (fun _ => I)) _ _ _ E).
  - intros Hd. unfold CodeReviewChat.run in E. rewrite Hd in E. simpl in E.
    inversion E as [[Ho Ht]]. apply app_inv_head in Ht. now subst.
  - intros tasks sched tasks' new -> Er Hne.
    destruct (run_started _ _ _ _ _ _ _ E) as [->|[data [Hd [Ht _]]]].
    + rewrite run_tasks_nil in Er. inversion Er as [[Ho Ht]].
      rewrite <- (app_nil_r (tr ++ before)) in Ht at 1.
      apply app_inv_head in Ht. now subst new.
    + split; [exact Hd|]. exists data. now apply app_inv_head in Ht.
Qed.

Lemma tasks_need_write_access_witness :
  exec (Script.env Example.script)
    (CodeReviewChat.run Example.toLocaleString Scenario.draft_publisher 2) []
  = (Returned [], [] ++ [Logged "PR is draft, ignoring"])
  /\ Forall (call_satisfies intake) [Logged "PR is draft, ignoring"].
Proof.
  match goal with |- ?E /\ _ => assert (H : E) by reflexivity end.
  exact (conj H (proj1 (tasks_need_write_access _ _ _ _ _ _ _ H))).
Defined.

Lemma returns_only_any {A} (p : Prog A) : returns_only (fun _ => True) p.
Proof. induction p as [a|e| |msg k IH|R q k IH|R1 R2 q1 q2 k IH]; simpl; auto. Qed.

Lemma getChat_returns_its_client this fuel :
  returns_only (fun r => fst r = WebClient.mk (Chatter.slackToken this))
    (Chatter.getChat this fuel).
Proof.
  unfold Chatter.getChat. apply (returns_only_bind (fun _ => True)).
  - apply returns_only_any.
  - intros members _. destruct (Chatter.codereviewChannel this members); simpl; auto.
Qed.

Lemma postMessage_calls_by (P : forall R, Req R -> Prop) this fuel message blocks :
  (forall cursor,
     P _ (list_call (WebClient.mk (Options.slackToken (CodeReviewChat.options this)))
            cursor)) ->
  (forall channel,
     P _ (chat_postMessage
            (WebClient.mk (Options.slackToken (CodeReviewChat.options this)))
            message channel blocks true)) ->
  calls_only P (CodeReviewChat.postMessage this fuel message blocks).
Proof.
  intros Hl Hp. unfold CodeReviewChat.postMessage.
  apply (calls_only_bind_returns P
           (fun r => fst r = WebClient.mk (Options.slackToken
                                             (CodeReviewChat.options this)))).
  - apply getChat_calls. exact Hl.
  - apply (getChat_returns_its_client (CodeReviewChat.super this)).
  - intros [client channel] Hc. simpl in Hc. subst client. apply calls_only_await, Hp.
Qed.

Lemma reviewTask_by_the_publisher toLocaleString this fuel author :
  calls_only (by_the_publisher toLocaleString this)
    (CodeReviewChat.reviewTask toLocaleString this fuel author).
Proof.
  unfold CodeReviewChat.reviewTask, await_all2. cbv zeta. cbn [bind calls_only].
  split; [simpl; auto|]. split; [simpl; auto|].
  intros [[reviews requests]|e]; cbn [settle bind]; [|exact I].
  destruct (CodeReviewChat.hasExisting reviews requests author); [exact I|].
  apply calls_only_bind; [exact I|]. intros _.
  apply postMessage_calls_by; intros; simpl; auto.
Qed.

Lemma no_posts_in_listing this fuel h g :
  runs_to (Chatter.getChat this fuel) h g -> filter posts h = [].
Proof.
  intros Hg. apply (filter_none_of not_post).
  - intros R q r Hq. exact Hq.
  - reflexivity.
  - eapply runs_calls_only; [|exact Hg]. apply getChat_calls. reflexivity.
Qed.

(** [postMessage] alone: it posts at most once, as the last thing it
    does, and with the client of the Slack token. *)
Lemma postMessage_runs this fuel message blocks h p' :
  runs_to (CodeReviewChat.postMessage this fuel message blocks) h p' ->
  (filter posts h = [] /\ p' <> Ret tt)
  \/ exists pre channel r,
       h = pre ++ [Call (chat_postMessage
                           (WebClient.mk (Options.slackToken
                                            (CodeReviewChat.options this)))
                           message channel blocks true) r]
       /\ filter posts pre = []
       /\ p' = settle r.
Proof.
  unfold CodeReviewChat.postMessage. intros Hr.
  destruct (runs_to_bind _ _ _ _ Hr)
    as [[g [Hg ->]]|[h1 [h2 [[client channel] [-> [Hne [H1 H2]]]]]]].
  - left. split; [exact (no_posts_in_listing _ _ _ _ Hg)|].
    destruct g as [[c ch]|e| |msg k|R q k|R1 R2 q1 q2 k]; simpl; discriminate.
  - right.
    pose proof (runs_returns_only _ _ _ _
                  (getChat_returns_its_client (CodeReviewChat.super this) fuel) H1)
      as Hc.
    simpl in Hc. subst client.
    destruct h2 as [|ev h2]; [congruence|].
    destruct H2 as [p1 [[r [-> ->]] H2]].
    apply settled_runs in H2; [|destruct r; reflexivity]. destruct H2 as [-> ->].
    exists h1, channel, r. split; [reflexivity|]. split; [|reflexivity].
    exact (no_posts_in_listing _ _ _ _ H1).
Qed.

Lemma announce_runs this fuel message blocks h p' :
  runs_to (safeLog message ;; CodeReviewChat.postMessage this fuel message blocks) h p' ->
  (filter posts h = [] /\ p' <> Ret tt)
  \/ exists pre channel r,
       h = Logged message
           :: pre ++ [Call (chat_postMessage
                              (WebClient.mk (Options.slackToken
                                               (CodeReviewChat.options this)))
                              message channel blocks true) r]
       /\ filter posts pre = []
       /\ p' = settle r.
Proof.
  intros Hr. destruct h as [|ev h].
  - left. simpl in Hr. subst p'. split; [reflexivity|discriminate].
  - destruct Hr as [p1 [[-> ->] Hr]]. cbn [bind] in Hr.
    destruct (postMessage_runs _ _ _ _ _ _ Hr)
      as [[Hf Hne]|[pre [channel [r [-> [Hf ->]]]]]].
    + left. split; [exact Hf|exact Hne].
    + right. exists pre, channel, r. auto.
Qed.

Lemma gate_closed_by_evidence author owner repo number owner' repo' number'
    reviews requests :
  CodeReviewChat.hasExisting reviews requests author = true ->
  shows_review_by_other author
    (Call (pulls_listReviews owner repo number) (Resolved reviews))
  || shows_pending_request
       (Call (pulls_listReviewRequests owner' repo' number') (Resolved requests))
  = true.
Proof.
  unfold CodeReviewChat.hasExisting, CodeReviewChat.hasExistingReview,
    CodeReviewChat.requestedUsers. simpl.
  assert (Hreq : Js.truthy_opt_number
                   match requests with
                   | Some requests0 =>
                       match ReviewRequestsResponse.data requests0 with
                       | Some data =>
                           match ReviewRequests.users data with
                           | Some users => Some (Z.of_nat (List.length users))
                           | None => None
                           end
                       | None => None
                       end
                   | None => None
                   end = true ->
                 match requests with
                 | Some requests0 =>
                     match ReviewRequestsResponse.data requests0 with
                     | Some data =>
                         match ReviewRequests.users data with
                         | Some (_ :: _) => true
                         | _ => false
                         end
                     | None => false
                     end
                 | None => false
                 end = true).
  { destruct requests as [[[[[[|u users]|]]|]]|]; simpl; auto. }
  destruct reviews as [[[data|]]|]; simpl.
  - destruct (existsb _ data); [reflexivity|]. exact Hreq.
  - exact Hreq.
  - exact Hreq.
Qed.

(** The third task alone.  Either it has posted nothing, and then it has
    returned only if a listing showed a review by someone else or a requested
    reviewer; or it has logged its line and then posted once, as the last
    thing it did. *)
Lemma reviewTask_runs toLocaleString this fuel author h p' :
  runs_to (CodeReviewChat.reviewTask toLocaleString this fuel author) h p' ->
  (filter posts h = []
   /\ (p' = Ret tt ->
       existsb (shows_review_by_other author) h || existsb shows_pending_request h
       = true))
  \/ exists pre channel r,
       h = pre ++ [Call (chat_postMessage
                           (WebClient.mk (Options.slackToken
                                            (CodeReviewChat.options this)))
                           ("New Pull Request from "
                            ++ PR.owner (CodeReviewChat.pr this))
                           channel
                           (Some (CodeReviewChat.blocks toLocaleString this)) true) r]
       /\ filter posts pre = []
       /\ In (Logged ("New Pull Request from " ++ PR.owner (CodeReviewChat.pr this)))
            pre
       /\ p' = settle r.
Proof.
  unfold CodeReviewChat.reviewTask, await_all2. cbv zeta. cbn [bind].
  intros Hr.
  destruct h as [|ev1 h];
    [left; simpl in Hr; subst p'; split; [reflexivity|discriminate]|].
  destruct Hr as [p1 [Hm Hr]]. cbn [moves] in Hm.
  destruct Hm as [[r1 [-> ->]]|[r2 [-> ->]]];
    (destruct h as [|ev2 h];
     [left; simpl in Hr; subst p'; split; [reflexivity|discriminate]|]);
    destruct Hr as [p2 [Hm Hr]]; cbn [moves] in Hm.
  - destruct Hm as [r2 [-> ->]].
    destruct r1 as [reviews|e1], r2 as [requests|e2]; cbn [left_first settle bind] in Hr;
      try (left; apply settled_runs in Hr; [|reflexivity]; destruct Hr as [-> ->];
           split; [reflexivity|discriminate]).
    destruct (CodeReviewChat.hasExisting reviews requests author) eqn:Eh.
    + left. split.
      * destruct h as [|ev h]; [reflexivity|].
        destruct Hr as [p3 [[-> ->] Hr]].
        apply settled_runs in Hr; [|reflexivity]. destruct Hr as [-> _]. reflexivity.
      * intros _.
        match goal with |- context [pulls_listReviews ?o ?r ?n] =>
          pose proof (gate_closed_by_evidence author o r n o r n _ _ Eh) as Hev end.
        cbn [existsb]. apply orb_true_iff in Hev.
        destruct Hev as [Hev|Hev]; rewrite Hev; rewrite ?orb_true_r; reflexivity.
    + destruct (announce_runs _ _ _ _ _ _ Hr)
        as [[Hf Hne]|[pre [channel [r [-> [Hf ->]]]]]].
      * left. split; [exact Hf|]. intros ->. now destruct Hne.
      * right.
        match goal with |- context [?ev1 :: ?ev2 :: Logged ?m :: pre ++ _] =>
          exists (ev1 :: ev2 :: Logged m :: pre) end.
        exists channel, r. split; [reflexivity|]. split; [exact Hf|].
        split; [right; right; left; reflexivity|reflexivity].
  - destruct Hm as [r1 [-> ->]].
    destruct r1 as [reviews|e1], r2 as [requests|e2]; cbn [right_first settle bind] in Hr;
      try (left; apply settled_runs in Hr; [|reflexivity]; destruct Hr as [-> ->];
           split; [reflexivity|discriminate]).
    destruct (CodeReviewChat.hasExisting reviews requests author) eqn:Eh.
    + left. split.
      * destruct h as [|ev h]; [reflexivity|].
        destruct Hr as [p3 [[-> ->] Hr]].
        apply settled_runs in Hr; [|reflexivity]. destruct Hr as [-> _]. reflexivity.
      * intros _.
        match goal with |- context [pulls_listReviews ?o ?r ?n] =>
          pose proof (gate_closed_by_evidence author o r n o r n _ _ Eh) as Hev end.
        cbn [existsb]. apply orb_true_iff in Hev.
        destruct Hev as [Hev|Hev]; rewrite Hev; rewrite ?orb_true_r; reflexivity.
    + destruct (announce_runs _ _ _ _ _ _ Hr)
        as [[Hf Hne]|[pre [channel [r [-> [Hf ->]]]]]].
      * left. split; [exact Hf|]. intros ->. now destruct Hne.
      * right.
        match goal with |- context [?ev1 :: ?ev2 :: Logged ?m :: pre ++ _] =>
          exists (ev1 :: ev2 :: Logged m :: pre) end.
        exists channel, r. split; [reflexivity|]. split; [exact Hf|].
        split; [right; right; left; reflexivity|reflexivity].
Qed.

Lemma assignTask_runs author h p' :
  runs_to (CodeReviewChat.assignTask author) h p' ->
  h = [] \/ exists r, h = [Call (issue_addAssignee (User.name author)) r].
Proof.
  intros Hr. destruct h as [|ev h]; [now left|right].
  destruct Hr as [p1 [[r [-> ->]] Hr]].
  apply settled_runs in Hr; [|destruct r; reflexivity]. destruct Hr as [-> _].
  now exists r.
Qed.

Lemma milestoneTask_runs data h p' :
  runs_to (CodeReviewChat.milestoneTask data) h p' ->
  filter sets_a_milestone h = []
  \/ (Issue.milestone data = None
      /\ exists milestone r,
           h = [Call issue_getCurrentRepoMilestone (Resolved (Some milestone));
                Call (issue_setMilestone milestone) r]).
Proof.
  unfold CodeReviewChat.milestoneTask, await. cbn [bind]. intros Hr.
  destruct h as [|ev h]; [now left|].
  destruct Hr as [p1 [[r [-> ->]] Hr]].
  destruct (Issue.milestone data) as [m0|] eqn:Em;
    destruct r as [[m|]|e]; cbn [settle bind] in Hr;
    try (left; apply settled_runs in Hr; [|reflexivity]; destruct Hr as [-> _];
         reflexivity).
  destruct h as [|ev h]; [now left|right].
  destruct Hr as [p2 [[r' [-> ->]] Hr]].
  apply settled_runs in Hr; [|destruct r'; reflexivity]. destruct Hr as [-> _].
  split; [reflexivity|]. now exists m, r'.
Qed.

Lemma Merge_nil_l {X} (b : list X) : Merge [] b b.
Proof. induction b; constructor; auto. Qed.

(** The tasks [run] starts, each with what it has done. *)
Lemma publisher_histories toLocaleString this fuel data new tasks' :
  interleaved
    ((if Js.truthy_opt_string (Issue.assignee data) then []
      else [CodeReviewChat.assignTask (Issue.author data)])
     ++ [CodeReviewChat.milestoneTask data;
         CodeReviewChat.reviewTask toLocaleString this fuel (Issue.author data)])
    new tasks' ->
  exists h1 h2 h3 h23 p1s p2 p3,
    tasks' = p1s ++ [p2; p3]
    /\ (h1 = []
        \/ (Js.truthy_opt_string (Issue.assignee data) = false
            /\ exists r, h1 = [Call (issue_addAssignee (User.name (Issue.author data))) r]))
    /\ runs_to (CodeReviewChat.milestoneTask data) h2 p2
    /\ runs_to (CodeReviewChat.reviewTask toLocaleString this fuel (Issue.author data))
         h3 p3
    /\ Merge h2 h3 h23
    /\ Merge h1 h23 new.
Proof.
  assert (Hrest : forall all ps,
             interleaved
               [CodeReviewChat.milestoneTask data;
                CodeReviewChat.reviewTask toLocaleString this fuel (Issue.author data)]
               all ps ->
             exists h2 h3 p2 p3,
               ps = [p2; p3]
               /\ runs_to (CodeReviewChat.milestoneTask data) h2 p2
               /\ runs_to (CodeReviewChat.reviewTask toLocaleString this fuel
                             (Issue.author data)) h3 p3
               /\ Merge h2 h3 all).
  { intros all ps H. apply interleaved_cons_inv in H.
    destruct H as [h2 [p2 [hs [ps2 [-> [Hr2 [H Hm2]]]]]]].
    apply interleaved_cons_inv in H.
    destruct H as [h3 [p3 [hs' [ps3 [-> [Hr3 [H Hm3]]]]]]].
    apply interleaved_nil_inv in H. destruct H as [-> ->].
    apply Merge_nil_inv in Hm3. subst hs. exists h2, h3, p2, p3. auto. }
  destruct (Js.truthy_opt_string (Issue.assignee data)) eqn:Ea; cbn [app]; intros H.
  - destruct (Hrest _ _ H) as [h2 [h3 [p2 [p3 [-> [Hr2 [Hr3 Hm]]]]]]].
    exists [], h2, h3, new, [], p2, p3. repeat split; auto. apply Merge_nil_l.
  - apply interleaved_cons_inv in H.
    destruct H as [h1 [p1 [hs [ps [-> [Hr1 [H Hm1]]]]]]].
    destruct (Hrest _ _ H) as [h2 [h3 [p2 [p3 [-> [Hr2 [Hr3 Hm]]]]]]].
    exists h1, h2, h3, hs, [p1], p2, p3. repeat split; auto.
    destruct (assignTask_runs _ _ _ Hr1) as [->|Hr]; auto.
Qed.

Lemma filter_nil_existsb {X} (f : X -> bool) l : filter f l = [] -> existsb f l = false.
Proof.
  induction l as [|x l IH]; [reflexivity|]. cbn [filter existsb].
  destruct (f x); [discriminate|]. exact IH.
Qed.

Lemma existsb_weaken {X} (f g : X -> bool) l :
  (forall x, f x = true -> g x = true) -> existsb g l = false -> existsb f l = false.
Proof.
  intros Hfg. induction l as [|x l IH]; [reflexivity|]. cbn [existsb].
  intros H. apply orb_false_iff in H. destruct H as [Hx Hl].
  rewrite (IH Hl), orb_false_r. destruct (f x) eqn:Ef; [|reflexivity].
  now rewrite (Hfg x Ef) in Hx.
Qed.

(** X17.  The side tasks overwrite nothing.  Whatever the schedule and the
    answers: when the issue has an assignee, [addAssignee] is not called;
    when it is called, it is called once, with the name of the author; when
    the issue has a milestone, [setMilestone] is not called; when it is
    called, it is called once, with a milestone that
    [getCurrentRepoMilestone] has reported in this run. *)
Theorem side_tasks_overwrite_nothing (env : Env) toLocaleString this fuel sched tr
    data :
  PR.draft (CodeReviewChat.pr this) = false ->
  env tr _ issue_getIssue = Resolved data ->
  env (tr ++ [Call issue_getIssue (Resolved data)]) _
    (issue_hasWriteAccess (Issue.author data)) = Resolved true ->
  let author := Issue.author data in
  let tasks :=
    (if Js.truthy_opt_string (Issue.assignee data) then []
     else [CodeReviewChat.assignTask author])
    ++ [CodeReviewChat.milestoneTask data;
        CodeReviewChat.reviewTask toLocaleString this fuel author] in
  let tr1 :=
    tr ++ [Call issue_getIssue (Resolved data);
           Call (issue_hasWriteAccess author) (Resolved true)] in
  exec env (CodeReviewChat.run toLocaleString this fuel) tr = (Returned tasks, tr1)
  /\ forall tasks' new,
       run_tasks env sched tasks tr1 = (tasks', tr1 ++ new) ->
       (Js.truthy_opt_string (Issue.assignee data) = true ->
        existsb assigns_someone new = false)
       /\ (forall name, existsb (assigns name) new = true -> name = User.name author)
       /\ List.length (filter assigns_someone new) <= 1
       /\ (Issue.milestone data <> None -> existsb sets_a_milestone new = false)
       /\ (forall milestone,
             existsb (sets_milestone milestone) new = true ->
             existsb (shows_current_milestone milestone) new = true)
       /\ List.length (filter sets_a_milestone new) <= 1.
Proof.
  intros Hd Hi Hw author tasks tr1.
  split; [exact (run_starts_tasks env toLocaleString this fuel tr data Hd Hi Hw)|].
  intros tasks' new E. apply run_tasks_spec in E. subst tasks.
  destruct (publisher_histories _ _ _ _ _ _ E)
    as [h1 [h2 [h3 [h23 [p1s [p2 [p3 [_ [H1 [Hr2 [Hr3 [Hm23 Hm]]]]]]]]]]]].
  assert (C2 : Forall (call_satisfies from_milestoneTask) h2)
    by (eapply runs_calls_only; [apply milestoneTask_calls|exact Hr2]).
  assert (C3 : Forall (call_satisfies from_reviewTask) h3)
    by (eapply runs_calls_only; [|exact Hr3]; apply reviewTask_calls; intros; exact I).
  assert (A2 : filter assigns_someone h2 = [])
    by (apply (filter_none_of from_milestoneTask); auto;
        intros R q r Hq; destruct q; simpl in *; easy).
  assert (A3 : filter assigns_someone h3 = [])
    by (apply (filter_none_of from_reviewTask); auto;
        intros R q r Hq; destruct q; simpl in *; easy).
  assert (M3 : filter sets_a_milestone h3 = [])
    by (apply (filter_none_of from_reviewTask); auto;
        intros R q r Hq; destruct q; simpl in *; easy).
  assert (M1 : filter sets_a_milestone h1 = [])
    by (destruct H1 as [->|[_ [r ->]]]; reflexivity).
  assert (A23 : filter assigns_someone h23 = []).
  { pose proof (Merge_filter assigns_someone _ _ _ Hm23) as H.
    rewrite A2, A3 in H. now apply Merge_nil_inv in H. }
  assert (Anew : filter assigns_someone new = filter assigns_someone h1).
  { pose proof (Merge_filter assigns_someone _ _ _ Hm) as H.
    rewrite A23 in H. now apply Merge_nil_inv in H. }
  assert (M23 : filter sets_a_milestone h23 = filter sets_a_milestone h2).
  { pose proof (Merge_filter sets_a_milestone _ _ _ Hm23) as H.
    rewrite M3 in H. now apply Merge_nil_inv in H. }
  assert (Mnew : filter sets_a_milestone new = filter sets_a_milestone h2).
  { pose proof (Merge_filter sets_a_milestone _ _ _ Hm) as H.
    rewrite M1, M23 in H. now apply Merge_nil_l_inv in H. }
  assert (Hsub_a : forall name ev, assigns name ev = true -> assigns_someone ev = true).
  { intros name [R q r|msg]; [|discriminate]. destruct q; simpl; congruence. }
  assert (Hsub_m : forall m ev, sets_milestone m ev = true -> sets_a_milestone ev = true).
  { intros m [R q r|msg]; [|discriminate]. destruct q; simpl; congruence. }
  split; [|split; [|split; [|split; [|split]]]].
  - intros Ha. apply filter_nil_existsb. rewrite Anew.
    destruct H1 as [->|[Hf _]]; [reflexivity|congruence].
  - intros name Hn.
    assert (Hn1 : existsb (assigns name) h1 = true).
    { rewrite (Merge_existsb _ _ _ _ Hm) in Hn.
      rewrite (existsb_weaken (assigns name) assigns_someone h23 (Hsub_a name)
                 (filter_nil_existsb _ _ A23)), orb_false_r in Hn. exact Hn. }
    destruct H1 as [->|[_ [r ->]]]; [discriminate|].
    simpl in Hn1. rewrite orb_false_r in Hn1. symmetry. now apply String.eqb_eq.
  - rewrite Anew. destruct H1 as [->|[_ [r ->]]]; simpl; lia.
  - intros Hm0. apply filter_nil_existsb. rewrite Mnew.
    destruct (milestoneTask_runs _ _ _ Hr2) as [Hf|[Hnone _]]; [exact Hf|congruence].
  - intros milestone Hs.
    assert (Hs2 : existsb (sets_milestone milestone) h2 = true).
    { rewrite (Merge_existsb _ _ _ _ Hm), (Merge_existsb _ _ _ _ Hm23) in Hs.
      rewrite (existsb_weaken (sets_milestone milestone) sets_a_milestone h1
                 (Hsub_m milestone) (filter_nil_existsb _ _ M1)),
              (existsb_weaken (sets_milestone milestone) sets_a_milestone h3
                 (Hsub_m milestone) (filter_nil_existsb _ _ M3)) in Hs.
      now rewrite orb_false_r in Hs. }
    rewrite (Merge_existsb _ _ _ _ Hm), (Merge_existsb _ _ _ _ Hm23).
    destruct (milestoneTask_runs _ _ _ Hr2) as [Hf|[_ [m [r ->]]]].
    + rewrite (existsb_weaken (sets_milestone milestone) sets_a_milestone h2
                 (Hsub_m milestone) (filter_nil_existsb _ _ Hf)) in Hs2. discriminate.
    + simpl in Hs2. rewrite orb_false_r in Hs2. simpl. rewrite Hs2.
      now rewrite !orb_true_r.
  - rewrite Mnew.
    destruct (milestoneTask_runs _ _ _ Hr2) as [->|[_ [m [r ->]]]]; simpl; lia.
Qed.

Lemma side_tasks_overwrite_nothing_witness :
  let env := Script.env Scenario.script_triaged in
  let author := Issue.author Scenario.triaged in
  let tr1 :=
    [Call issue_getIssue (Resolved Scenario.triaged);
     Call (issue_hasWriteAccess author) (Resolved true)] in
  PR.draft (CodeReviewChat.pr Example.publisher) = false
  /\ env [] _ issue_getIssue = Resolved Scenario.triaged
  /\ env ([] ++ [Call issue_getIssue (Resolved Scenario.triaged)]) _
       (issue_hasWriteAccess author) = Resolved true
  /\ exists tasks' new,
       run_tasks env Example.in_turn
         [CodeReviewChat.milestoneTask Scenario.triaged;
          CodeReviewChat.reviewTask Example.toLocaleString Example.publisher 2 author]
         tr1 = (tasks', tr1 ++ new)
       /\ forallb settled tasks' = true
       /\ existsb assigns_someone new = false
       /\ existsb sets_a_milestone new = false.
Proof.
  cbv zeta.
  assert (Hd : PR.draft (CodeReviewChat.pr Example.publisher) = false) by reflexivity.
  assert (Hi : Script.env Scenario.script_triaged [] _ issue_getIssue
               = Resolved Scenario.triaged) by reflexivity.
  assert (Hw : Script.env Scenario.script_triaged
                 ([] ++ [Call issue_getIssue (Resolved Scenario.triaged)]) _
                 (issue_hasWriteAccess (Issue.author Scenario.triaged)) = Resolved true)
    by reflexivity.
  split; [exact Hd|]. split; [exact Hi|]. split; [exact Hw|].
  destruct (side_tasks_overwrite_nothing (Script.env Scenario.script_triaged)
              Example.toLocaleString Example.publisher 2 Example.in_turn []
              Scenario.triaged Hd Hi Hw) as [_ Hall].
  eexists. eexists. split; [vm_compute; reflexivity|].
  split; [reflexivity|].
  edestruct Hall as [Ha [_ [_ [Hm _]]]]; [vm_compute; reflexivity|].
  split; [apply Ha; reflexivity|apply Hm; discriminate].
Defined.

Lemma no_posts_by_side_tasks data h1 h2 p2 :
  (h1 = [] \/ exists r, h1 = [Call (issue_addAssignee (User.name (Issue.author data))) r]) ->
  runs_to (CodeReviewChat.milestoneTask data) h2 p2 ->
  filter posts h1 = [] /\ filter posts h2 = [].
Proof.
  intros H1 Hr2. split.
  - destruct H1 as [->|[r ->]]; reflexivity.
  - apply (filter_none_of from_milestoneTask).
    + intros R q r Hq. destruct q; simpl in *; easy.
    + reflexivity.
    + eapply runs_calls_only; [apply milestoneTask_calls|exact Hr2].
Qed.

Lemma posts_of_the_tasks {X} (f : X -> bool) h1 h2 h3 h23 new :
  Merge h2 h3 h23 -> Merge h1 h23 new ->
  filter f h1 = [] -> filter f h2 = [] -> filter f new = filter f h3.
Proof.
  intros Hm23 Hm F1 F2.
  pose proof (Merge_filter f _ _ _ Hm23) as H23. rewrite F2 in H23.
  apply Merge_nil_l_inv in H23.
  pose proof (Merge_filter f _ _ _ Hm) as H. rewrite F1, H23 in H.
  now apply Merge_nil_l_inv in H.
Qed.

(** X18.  An unreviewed PR is announced.  Whatever the schedule and the
    answers: when the review task, the last one started, has returned, and
    no listing has shown a review by someone other than the author or a
    requested reviewer, then the line "New Pull Request from <owner>" was
    logged and exactly one message was posted, with the client of the Slack
    token, that line as its text, the composed blocks and [link_names], and
    the post was accepted.  The other tasks need not have succeeded. *)
Theorem unreviewed_pr_is_announced (env : Env) toLocaleString this fuel sched tr data :
  PR.draft (CodeReviewChat.pr this) = false ->
  env tr _ issue_getIssue = Resolved data ->
  env (tr ++ [Call issue_getIssue (Resolved data)]) _
    (issue_hasWriteAccess (Issue.author data)) = Resolved true ->
  let author := Issue.author data in
  let tasks :=
    (if Js.truthy_opt_string (Issue.assignee data) then []
     else [CodeReviewChat.assignTask author])
    ++ [CodeReviewChat.milestoneTask data;
        CodeReviewChat.reviewTask toLocaleString this fuel author] in
  let tr1 :=
    tr ++ [Call issue_getIssue (Resolved data);
           Call (issue_hasWriteAccess author) (Resolved true)] in
  let message := ("New Pull Request from " ++ PR.owner (CodeReviewChat.pr this))%string in
  forall tasks' new,
    run_tasks env sched tasks tr1 = (tasks', tr1 ++ new) ->
    last tasks' Diverge = Ret tt ->
    existsb (shows_review_by_other author) new = false ->
    existsb shows_pending_request new = false ->
    In (Logged message) new
    /\ exists channel,
         filter posts new
         = [Call (chat_postMessage
                    (WebClient.mk (Options.slackToken (CodeReviewChat.options this)))
                    message channel
                    (Some (CodeReviewChat.blocks toLocaleString this)) true)
              (Resolved tt)].
Proof.
  intros Hd Hi Hw author tasks tr1 message tasks' new E Hlast Hrev Hreq.
  apply run_tasks_spec in E. subst tasks.
  destruct (publisher_histories _ _ _ _ _ _ E)
    as [h1 [h2 [h3 [h23 [p1s [p2 [p3 [-> [H1 [Hr2 [Hr3 [Hm23 Hm]]]]]]]]]]]].
  assert (Hp3 : p3 = Ret tt).
  { change (p1s ++ [p2; p3]) with (p1s ++ [p2] ++ [p3]) in Hlast.
    rewrite app_assoc, last_last in Hlast. exact Hlast. }
  subst p3.
  assert (Hrev3 : existsb (shows_review_by_other author) h3 = false).
  { rewrite (Merge_existsb _ _ _ _ Hm), (Merge_existsb _ _ _ _ Hm23) in Hrev.
    apply orb_false_iff in Hrev. destruct Hrev as [_ Hrev].
    apply orb_false_iff in Hrev. tauto. }
  assert (Hreq3 : existsb shows_pending_request h3 = false).
  { rewrite (Merge_existsb _ _ _ _ Hm), (Merge_existsb _ _ _ _ Hm23) in Hreq.
    apply orb_false_iff in Hreq. destruct Hreq as [_ Hreq].
    apply orb_false_iff in Hreq. tauto. }
  assert (H1' : h1 = []
                \/ exists r, h1 = [Call (issue_addAssignee
                                           (User.name (Issue.author data))) r])
    by (destruct H1 as [->|[_ Hr]]; auto).
  destruct (no_posts_by_side_tasks data h1 h2 p2 H1' Hr2) as [F1 F2].
  rewrite (posts_of_the_tasks posts _ _ _ _ _ Hm23 Hm F1 F2).
  destruct (reviewTask_runs _ _ _ _ _ _ Hr3)
    as [[_ Hev]|[pre [channel [r [-> [Hf [Hlog Hs]]]]]]].
  - specialize (Hev eq_refl). fold author in Hev. rewrite Hrev3, Hreq3 in Hev.
    discriminate.
  - destruct r as [[]|e]; [|discriminate]. split.
    + apply (Merge_In_right _ _ _ _ Hm). apply (Merge_In_right _ _ _ _ Hm23).
      apply in_or_app. left. exact Hlog.
    + exists channel. rewrite filter_app, Hf. reflexivity.
Qed.

Lemma unreviewed_pr_is_announced_witness :
  let env := Script.env Example.script_unreviewed in
  let author := Issue.author Example.alice in
  let tr1 :=
    [Call issue_getIssue (Resolved Example.alice);
     Call (issue_hasWriteAccess author) (Resolved true)] in
  PR.draft (CodeReviewChat.pr Example.publisher) = false
  /\ env [] _ issue_getIssue = Resolved Example.alice
  /\ env ([] ++ [Call issue_getIssue (Resolved Example.alice)]) _
       (issue_hasWriteAccess author) = Resolved true
  /\ exists tasks' new,
       run_tasks env Example.in_turn
         [CodeReviewChat.assignTask author;
          CodeReviewChat.milestoneTask Example.alice;
          CodeReviewChat.reviewTask Example.toLocaleString Example.publisher 2 author]
         tr1 = (tasks', tr1 ++ new)
       /\ last tasks' Diverge = Ret tt
       /\ existsb (shows_review_by_other author) new = false
       /\ existsb shows_pending_request new = false
       /\ In (Logged "New Pull Request from alice") new
       /\ exists channel,
            filter posts new
            = [Call (chat_postMessage Example.bot "New Pull Request from alice" channel
                       (Some (CodeReviewChat.blocks Example.toLocaleString
                                Example.publisher)) true)
                 (Resolved tt)].
Proof.
  cbv zeta.
  assert (Hd : PR.draft (CodeReviewChat.pr Example.publisher) = false) by reflexivity.
  assert (Hi : Script.env Example.script_unreviewed [] _ issue_getIssue
               = Resolved Example.alice) by reflexivity.
  assert (Hw : Script.env Example.script_unreviewed
                 ([] ++ [Call issue_getIssue (Resolved Example.alice)]) _
                 (issue_hasWriteAccess (Issue.author Example.alice)) = Resolved true)
    by reflexivity.
  split; [exact Hd|]. split; [exact Hi|]. split; [exact Hw|].
  pose proof (unreviewed_pr_is_announced (Script.env Example.script_unreviewed)
                Example.toLocaleString Example.publisher 2 Example.in_turn []
                Example.alice Hd Hi Hw) as Hall.
  cbv zeta in Hall.
  eexists. eexists.
  match goal with |- ?E /\ _ => assert (He : E) by (vm_compute; reflexivity) end.
  split; [exact He|].
  match goal with |- ?L /\ ?A /\ ?B /\ _ =>
    assert (Hl : L) by reflexivity;
    assert (Ha : A) by reflexivity;
    assert (Hb : B) by reflexivity
  end.
  split; [exact Hl|]. split; [exact Ha|]. split; [exact Hb|].
  exact (Hall _ _ He Hl Ha Hb).
Defined.

Lemma tasks_by_the_publisher env toLocaleString this fuel tr tasks tr1 :
  exec env (CodeReviewChat.run toLocaleString this fuel) tr = (Returned tasks, tr1) ->
  Forall (calls_only (by_the_publisher toLocaleString this)) tasks.
Proof.
  intros E. destruct (run_started _ _ _ _ _ _ _ E) as [->|[data [_ [_ ->]]]];
    [constructor|].
  apply Forall_app. split.
  - destruct (Js.truthy_opt_string (Issue.assignee data)); repeat constructor.
    intros [v|e]; exact I.
  - constructor; [|constructor; [apply reviewTask_by_the_publisher|constructor]].
    unfold CodeReviewChat.milestoneTask.
    apply calls_only_bind; [apply calls_only_await; exact I|].
    intros [m|]; destruct (Issue.milestone data); try exact I.
    apply calls_only_await. exact I.
Qed.

(** X19.  Whatever the schedule and the answers, a run of the publisher
    posts at most one message, and every call it makes is one of its own:
    the issue provider's calls; the two listings, for the owner, repository
    and number of the payload; pages of channels and the post, both with
    the client of the Slack token; the post has the text "New Pull Request
    from <owner>", the composed blocks and [link_names].  It never reads a
    history or a thread and never deletes. *)
Theorem publisher_posts_at_most_once env toLocaleString this fuel sched tr tasks before
    tasks' new :
  exec env (CodeReviewChat.run toLocaleString this fuel) tr
  = (Returned tasks, tr ++ before) ->
  run_tasks env sched tasks (tr ++ before) = (tasks', (tr ++ before) ++ new) ->
  Forall (call_satisfies (by_the_publisher toLocaleString this)) (before ++ new)
  /\ List.length (filter posts (before ++ new)) <= 1.
Proof.
  intros E Er. split.
  - apply Forall_app. split.
    + exact (exec_calls_only _ env _
               (run_calls_only (by_the_publisher toLocaleString this) _ _ _ I
                  (fun _ => I)) _ _ _ E).
    + apply run_tasks_spec in Er.
      exact (interleaved_calls_only _ _ _ _ Er (tasks_by_the_publisher _ _ _ _ _ _ _ E)).
  - assert (Hb : filter posts before = []).
    { apply (filter_none_of intake).
      - intros R q r Hq. destruct q; simpl in *; easy.
      - reflexivity.
      - exact (exec_calls_only _ env _
                 (run_calls_only intake toLocaleString this fuel I (fun _ => I))
                 _ _ _ E). }
    rewrite filter_app, Hb. cbn [app].
    destruct (run_started _ _ _ _ _ _ _ E) as [->|[data [_ [_ ->]]]].
    + rewrite run_tasks_nil in Er. inversion Er as [[Ho Ht]].
      rewrite <- (app_nil_r (tr ++ before)) in Ht at 1.
      apply app_inv_head in Ht. subst new. simpl. lia.
    + apply run_tasks_spec in Er.
      destruct (publisher_histories _ _ _ _ _ _ Er)
        as [h1 [h2 [h3 [h23 [p1s [p2 [p3 [_ [H1 [Hr2 [Hr3 [Hm23 Hm]]]]]]]]]]]].
      assert (H1' : h1 = []
                    \/ exists r, h1 = [Call (issue_addAssignee
                                               (User.name (Issue.author data))) r])
        by (destruct H1 as [->|[_ Hr]]; auto).
      destruct (no_posts_by_side_tasks data h1 h2 p2 H1' Hr2) as [F1 F2].
      rewrite (posts_of_the_tasks posts _ _ _ _ _ Hm23 Hm F1 F2).
      destruct (reviewTask_runs _ _ _ _ _ _ Hr3)
        as [[-> _]|[pre [channel [r [-> [Hf _]]]]]]; [simpl; lia|].
      rewrite filter_app, Hf. simpl. lia.
Qed.

Lemma publisher_posts_at_most_once_witness :
  let env := Script.env Example.script_unreviewed in
  exists tasks before tasks' new,
    exec env (CodeReviewChat.run Example.toLocaleString Example.publisher 2) []
    = (Returned tasks, [] ++ before)
    /\ run_tasks env Example.in_turn tasks ([] ++ before)
       = (tasks', ([] ++ before) ++ new)
    /\ List.length (filter posts (before ++ new)) = 1
    /\ Forall (call_satisfies (by_the_publisher Example.toLocaleString Example.publisher))
         (before ++ new).
Proof.
  cbv zeta.
  eexists. eexists. eexists. eexists.
  match goal with |- ?E1 /\ ?E2 /\ _ =>
    assert (H1 : E1) by (vm_compute; reflexivity);
    assert (H2 : E2) by (vm_compute; reflexivity)
  end.
  split; [exact H1|]. split; [exact H2|]. split; [reflexivity|].
  exact (proj1 (publisher_posts_at_most_once _ _ _ _ _ _ _ _ _ _ H1 H2)).
Defined.

Lemma no_posts_among (P : forall R, Req R -> Prop) new :
  (forall R (q : Req R), P _ q -> is_post q = false) ->
  Forall (call_satisfies P) new ->
  forall ev, In ev new -> posts ev = true -> False.
Proof.
  intros HP Hall ev Hin Hp. rewrite Forall_forall in Hall. specialize (Hall ev Hin).
  destruct ev as [R q r|msg]; [|discriminate].
  simpl in *. rewrite (HP _ q Hall) in Hp. discriminate.
Qed.

Lemma lists_channels_not_post web R (q : Req R) :
  lists_channels web _ q -> is_post q = false.
Proof. destruct q; simpl; intros H; try reflexivity; destruct H. Qed.

(** X20.  [postMessage] posts to the configured channel or not at all.
    Whatever the service answers, a post is made at most once; when it is
    made, the configured name is not empty, the channel it goes to is the
    first member channel bearing that name in the pages fetched by this
    very call, and the function ends as the post does.  It does not return
    without having posted. *)
Theorem postMessage_goes_to_the_configured_channel env this fuel message blocks tr out
    new :
  exec env (CodeReviewChat.postMessage this fuel message blocks) tr = (out, tr ++ new) ->
  let web := WebClient.mk (Options.slackToken (CodeReviewChat.options this)) in
  let name := Options.codereviewChannel (CodeReviewChat.options this) in
  let members :=
    filter Channel.is_member (flat_map ConversationsList.channels (listed new)) in
  (forall ev,
     In ev new -> posts ev = true ->
     name <> EmptyString
     /\ exists before c after r,
          members = before ++ c :: after
          /\ (forall b, In b before -> Channel.name b <> name)
          /\ Channel.name c = name
          /\ Channel.is_member c = true
          /\ ev = Call (chat_postMessage web message (Channel.id c) blocks true) r
          /\ out = match r with
                   | Resolved _ => Returned tt
                   | Rejected e => Thrown e
                   end)
  /\ List.length (filter posts new) <= 1
  /\ (out = Returned tt -> existsb posts new = true).
Proof.
  intros E web name members. unfold CodeReviewChat.postMessage in E.
  rewrite exec_bind in E.
  destruct (exec_new env (Chatter.getChat (CodeReviewChat.super this) fuel) tr)
    as [out1 [new1 E1]].
  destruct (getChat_outcomes _ _ _ _ _ _ E1) as [Hcalls Hout].
  assert (Hnone : forall ev, In ev new1 -> posts ev = true -> False).
  { apply (no_posts_among _ _ (lists_channels_not_post _) Hcalls). }
  assert (Hf : filter posts new1 = []).
  { destruct (filter posts new1) as [|ev l] eqn:Ef; [reflexivity|exfalso].
    assert (Hin : In ev (filter posts new1)) by (rewrite Ef; now left).
    apply filter_In in Hin. destruct Hin as [Hin Hp]. exact (Hnone ev Hin Hp). }
  rewrite E1 in E.
  destruct out1 as [[client channel]|e|].
  - destruct Hout as [-> [c [Hc ->]]]. rewrite exec_await in E.
    match type of E with context [Call _ ?answer] =>
      remember answer as r eqn:Er in *; clear Er end.
    inversion E as [[Ho Ht]]. rewrite <- app_assoc in Ht. apply app_inv_head in Ht.
    subst new. clear E.
    split; [|split].
    + intros ev Hin Hp. apply in_app_or in Hin.
      destruct Hin as [Hin|[<-|[]]]; [destruct (Hnone ev Hin Hp)|].
      destruct (codereviewChannel_some _ _ _ Hc)
        as [Hne [before [after [Hm [Hname Hb]]]]].
      split; [exact Hne|]. exists before, c, after, r.
      subst members. rewrite listed_app. cbn [listed flat_map listed_page app].
      rewrite app_nil_r.
      split; [exact Hm|]. split; [exact Hb|]. split; [exact Hname|].
      split; [|split; [reflexivity|destruct r as [[]|e]; reflexivity]].
      assert (Hin : In c (member_channels (listed new1)))
        by (rewrite Hm; apply in_or_app; right; left; reflexivity).
      unfold member_channels in Hin. apply filter_In in Hin. tauto.
    + rewrite filter_app, Hf. simpl. lia.
    + intros _. rewrite existsb_app. simpl. now rewrite orb_true_r.
  - inversion E as [[Ho Ht]]. apply app_inv_head in Ht. subst new.
    split; [|split].
    + intros ev Hin Hp. destruct (Hnone ev Hin Hp).
    + rewrite Hf. simpl. lia.
    + discriminate.
  - inversion E as [[Ho Ht]]. apply app_inv_head in Ht. subst new.
    split; [|split].
    + intros ev Hin Hp. destruct (Hnone ev Hin Hp).
    + rewrite Hf. simpl. lia.
    + discriminate.
Qed.

Lemma postMessage_goes_to_the_configured_channel_witness :
  let post :=
    Call (chat_postMessage Example.bot "hello" "C3" None true) (Resolved tt) in
  let new :=
    [Call (list_call Example.bot None) (Resolved Example.page1);
     Call (list_call Example.bot (Some "page-2")) (Resolved Example.page2);
     post] in
  exec (Script.env Example.script)
    (CodeReviewChat.postMessage Example.publisher 2 "hello" None) []
  = (Returned tt, [] ++ new)
  /\ In post new
  /\ posts post = true
  /\ exists before c after,
       filter Channel.is_member (flat_map ConversationsList.channels (listed new))
       = before ++ c :: after
       /\ Channel.name c = "codereview"
       /\ Channel.id c = "C3".
Proof.
  cbv zeta.
  match goal with |- ?E /\ ?I /\ ?P /\ _ =>
    assert (H : E) by reflexivity;
    assert (Hin : I) by (simpl; tauto);
    assert (Hp : P) by reflexivity
  end.
  split; [exact H|]. split; [exact Hin|]. split; [exact Hp|].
  destruct (proj1 (postMessage_goes_to_the_configured_channel _ _ _ _ _ _ _ _ H)
              _ Hin Hp)
    as [_ [before [c [after [r [Hm [_ [Hname [_ [Hev _]]]]]]]]]].
  exists before, c, after. split; [exact Hm|]. split; [exact Hname|].
  assert (Hq : posted_blocks
                 (Call (chat_postMessage Example.bot "hello" "C3" None true)
                    (Resolved tt)) = Some None) by reflexivity.
  assert (Hc : match
                 Call (chat_postMessage Example.bot "hello" "C3" None true)
                   (Resolved tt)
               with
               | Call q _ =>
                   match q with
                   | chat_postMessage _ _ channel _ _ => channel
                   | _ => EmptyString
                   end
               | Logged _ => EmptyString
               end = "C3") by reflexivity.
  rewrite Hev in Hc. exact Hc.
Defined.

(** ** The title in the header *)

Lemma remove_all_absent c s :
  Js.includes (Js.remove_all c s) (String c EmptyString) = false.
Proof.
  unfold Js.includes. induction s as [|a s IH]; [reflexivity|].
  cbn [Js.remove_all]. destruct (Ascii.eqb a c) eqn:Ea; [exact IH|].
  rewrite indexOf_unfold. cbn [Js.startsWith].
  rewrite Ascii.eqb_sym, Ea. cbn [andb].
  destruct (Js.indexOf (String c EmptyString) (Js.remove_all c s));
    [discriminate|reflexivity].
Qed.

Lemma remove_all_unchanged c s :
  Js.includes s (String c EmptyString) = false -> Js.remove_all c s = s.
Proof.
  unfold Js.includes. induction s as [|a s IH]; [reflexivity|].
  rewrite indexOf_unfold. cbn [Js.startsWith Js.remove_all].
  rewrite Ascii.eqb_sym. destruct (Ascii.eqb a c); cbn [andb].
  - destruct s; discriminate.
  - destruct (Js.indexOf (String c EmptyString) s); [discriminate|].
    intros _. now rewrite IH.
Qed.

(** X21.  The title quoted in the header holds no backtick, whatever the
    title of the PR, and a title without backticks is quoted as it is. *)
Theorem clean_title_has_no_backtick this :
  Js.includes (CodeReviewChat.cleanTitle this) "`" = false
  /\ (Js.includes (PR.title (CodeReviewChat.pr this)) "`" = false ->
      CodeReviewChat.cleanTitle this = PR.title (CodeReviewChat.pr this)).
Proof.
  unfold CodeReviewChat.cleanTitle. split.
  - apply remove_all_absent.
  - apply remove_all_unchanged.
Qed.

Lemma clean_title_has_no_backtick_witness :
  CodeReviewChat.cleanTitle Example.publisher = "fix: crash"
  /\ Js.includes (CodeReviewChat.cleanTitle Example.publisher) "`" = false.
Proof.
  split; [reflexivity|].
  exact (proj1 (clean_title_has_no_backtick Example.publisher)).
Defined.
